(** * FlashTools for the ATSAM3X8E: a shallow embedding and its properties

    The embedding follows [FlashTools.h] and [FlashTools.cpp].  The class is
    a record of its data members; every member function is a function in a
    small monad that threads the object and the device, records every bus
    access it makes, and can fail to return (a busy-wait that never ends).

    The device itself (the two EEFC register banks, the flash array behind
    them and the IAP routine in ROM) is not part of the library: it is an
    interface, [Hardware], over which every general statement is
    quantified.  A small simulated device, [Sim], instantiates it for
    concrete runs.

    Embedded: the constructor, [setfws], [getfws], [cmd], [flashcpy],
    [setEFC], [getEFC], [getUniqueID], the GPNVM operations, the flash
    descriptor and its getters, [lock], [unlock], [islocked], [erase],
    [write] and [read].  Left out, as no property below needs them:
    [setfam], [getfam], the destructor, [MPUConfigureRegion],
    [getPageAddress] and [getOffset]. *)

From Stdlib Require Import ZArith List Bool Lia.
Import ListNotations.
Local Open Scope Z_scope.

(** ** Machine integers *)

Definition wrap32 (x : Z) : Z := x mod 2 ^ 32.
Definition wrap16 (x : Z) : Z := x mod 2 ^ 16.

(** ** Memory map and flash geometry ([FlashTools.h], lines 73-98) *)

Definition IFLASH0_ADDR : Z := 0x00080000.
Definition IFLASH1_ADDR : Z := 0x000C0000.
Definition IROM_ADDR : Z := 0x00100000.
Definition IFLASH0_SIZE : Z := IFLASH1_ADDR - IFLASH0_ADDR.
Definition IFLASH1_SIZE : Z := IFLASH0_SIZE.
Definition IFLASH_ADDR : Z := IFLASH0_ADDR.
Definition IFLASH_PAGE_SIZE : Z := 256.
Definition IFLASH_NB_OF_PAGES : Z := 1024.
Definition IFLASH_LOCK_REGION_PAGES : Z := 64.
Definition IFLASH_WORD_SIZE : Z := 4.
Definition IFLASH_LOCK_REGION_SIZE : Z := IFLASH_PAGE_SIZE * IFLASH_LOCK_REGION_PAGES.
Definition IFLASH_WORDS_PER_PAGE : Z := IFLASH_PAGE_SIZE / IFLASH_WORD_SIZE.
Definition IFLASH_LAST_PAGE_ADDRESS : Z := IFLASH1_ADDR + IFLASH1_SIZE - IFLASH_PAGE_SIZE.
Definition CHIP_FLASH_WAIT_STATE : Z := 6.
Definition UNIQUE_ID_SIZE : Z := 4.
Definition FLASH_DESCRIPTOR_SIZE : Z := 4.
Definition IAP_ENTRY_ADDRESS : Z := IROM_ADDR + 8.

(** Flash mode register fields (lines 101-107). *)
Definition EEFC_FMR_FWS_Pos : Z := 8.
Definition EEFC_FMR_FWS_Msk : Z := Z.shiftl 0xf EEFC_FMR_FWS_Pos.
Definition EEFC_FMR_FWS (value : Z) : Z :=
  Z.land EEFC_FMR_FWS_Msk (wrap32 (Z.shiftl value EEFC_FMR_FWS_Pos)).
Definition EEFC_FMR_FAM : Z := Z.shiftl 1 24.
Definition EEFC_FMR_SCOD : Z := Z.shiftl 1 16.
Definition FLASH_ACCESS_MODE_128 : Z := 0.

(** Flash status register fields (lines 110-113). *)
Definition EEFC_FSR_FRDY : Z := Z.shiftl 1 0.
Definition EEFC_FSR_FCMDE : Z := Z.shiftl 1 1.
Definition EEFC_FSR_FLOCKE : Z := Z.shiftl 1 2.
Definition EEFC_ERROR_FLAGS : Z := Z.lor EEFC_FSR_FLOCKE EEFC_FSR_FCMDE.

Definition SCB_SHCSR_MEMFAULTENA_Msk : Z := Z.shiftl 1 16.

(** EFC commands (lines 120-134). *)
Definition EFC_FCMD_GETD : Z := 0x00.
Definition EFC_FCMD_WP : Z := 0x01.
Definition EFC_FCMD_WPL : Z := 0x02.
Definition EFC_FCMD_EWP : Z := 0x03.
Definition EFC_FCMD_EWPL : Z := 0x04.
Definition EFC_FCMD_EA : Z := 0x05.
Definition EFC_FCMD_SLB : Z := 0x08.
Definition EFC_FCMD_CLB : Z := 0x09.
Definition EFC_FCMD_GLB : Z := 0x0A.
Definition EFC_FCMD_SGPB : Z := 0x0B.
Definition EFC_FCMD_CGPB : Z := 0x0C.
Definition EFC_FCMD_GGPB : Z := 0x0D.
Definition EFC_FCMD_STUI : Z := 0x0E.
Definition EFC_FCMD_SPUI : Z := 0x0F.

Definition FWP_KEY : Z := 0x5A.

(** Return codes (the [ReturnCodes] enum). *)
Definition SUCCESS : Z := 0.
Definition ERROR : Z := 0x10.
Definition INVALID : Z := 0xFFFFFFFF.
Definition BIT_IS_SET : Z := 1.
Definition BIT_IS_CLEARED : Z := 0.

(** ** The device interface *)

Inductive efc_id : Type := EFC0 | EFC1.

Inductive efc_reg : Type := EEFC_FMR | EEFC_FCR | EEFC_FSR | EEFC_FRR.

Inductive reg : Type :=
| EFC_REG (e : efc_id) (r : efc_reg)
| SCB_SHCSR.

(** What the code can do to the device.  A register read is volatile: it
    returns a value and may change the device (the result register hands out
    the next word of a response at each read).  [iap_rom idx word] is the
    ROM routine that the constructor finds at [IAP_ENTRY_ADDRESS]; its
    return value is never used by the library.  [mem_load w a] is a load of
    [w] bytes at address [a]; [mem_store32] a word store (into the flash
    address space it fills the controller's page latch). *)
Class Hardware (hw : Type) : Type := {
  reg_load : reg -> hw -> Z * hw;
  reg_store : reg -> Z -> hw -> hw;
  iap_rom : Z -> Z -> hw -> hw;
  mem_load : Z -> Z -> hw -> Z;
  mem_store32 : Z -> Z -> hw -> hw
}.

(** Every access to the device, in the order the code makes it. *)
Inductive event : Type :=
| RegLoad (r : reg) (v : Z)
| RegStore (r : reg) (v : Z)
| IapCall (idx word : Z)
| MemLoad (width addr v : Z)
| MemStore32 (addr v : Z).

(** ** The object *)

(** The data members of [class FlashTools], the static page buffer of
    [flashcpy] (as its 256 bytes), and the device the object drives. *)
Record machine (hw : Type) : Type := Machine {
  dev : hw;
  efc : efc_id;
  FWS0 : Z; FWS1 : Z;
  FAM0 : Z; FAM1 : Z;
  uniqueID : list Z;
  flash_descriptor : list Z;
  page_buffer : list Z
}.
Arguments Machine {hw}.
Arguments dev {hw}.
Arguments efc {hw}.
Arguments FWS0 {hw}.
Arguments FWS1 {hw}.
Arguments FAM0 {hw}.
Arguments FAM1 {hw}.
Arguments uniqueID {hw}.
Arguments flash_descriptor {hw}.
Arguments page_buffer {hw}.

Definition with_dev {hw} (m : machine hw) (h : hw) : machine hw :=
  Machine h (efc m) (FWS0 m) (FWS1 m) (FAM0 m) (FAM1 m)
          (uniqueID m) (flash_descriptor m) (page_buffer m).
Definition with_efc {hw} (m : machine hw) (e : efc_id) : machine hw :=
  Machine (dev m) e (FWS0 m) (FWS1 m) (FAM0 m) (FAM1 m)
          (uniqueID m) (flash_descriptor m) (page_buffer m).
Definition with_uniqueID {hw} (m : machine hw) (u : list Z) : machine hw :=
  Machine (dev m) (efc m) (FWS0 m) (FWS1 m) (FAM0 m) (FAM1 m)
          u (flash_descriptor m) (page_buffer m).
Definition with_flash_descriptor {hw} (m : machine hw) (d : list Z) : machine hw :=
  Machine (dev m) (efc m) (FWS0 m) (FWS1 m) (FAM0 m) (FAM1 m)
          (uniqueID m) d (page_buffer m).
Definition with_page_buffer {hw} (m : machine hw) (b : list Z) : machine hw :=
  Machine (dev m) (efc m) (FWS0 m) (FWS1 m) (FAM0 m) (FAM1 m)
          (uniqueID m) (flash_descriptor m) b.
Definition with_saved_modes {hw} (m : machine hw) (fws0 fws1 fam0 fam1 : Z) : machine hw :=
  Machine (dev m) (efc m) fws0 fws1 fam0 fam1
          (uniqueID m) (flash_descriptor m) (page_buffer m).

(** ** The monad: object and device state, a trace of device accesses, and
    non-termination ([None]: a loop that did not end within its fuel). *)

Definition M (hw A : Type) : Type := machine hw -> option (A * machine hw * list event).

Definition ret {hw A} (a : A) : M hw A := fun m => Some (a, m, []).

Definition bind {hw A B} (c : M hw A) (f : A -> M hw B) : M hw B :=
  fun m =>
    match c m with
    | None => None
    | Some (a, m1, t1) =>
        match f a m1 with
        | None => None
        | Some (b, m2, t2) => Some (b, m2, t1 ++ t2)
        end
    end.

Definition hang {hw A} : M hw A := fun _ => None.

Notation "x <- c ;; k" := (bind c (fun x => k))
  (at level 61, c at next level, right associativity).
Notation "c ;;; k" := (bind c (fun _ => k))
  (at level 61, right associativity).

(** Array cells, as C indexes them.  A store outside the array is undefined
    in C; here it leaves the list as it is. *)
Definition cell (l : list Z) (i : Z) : Z := nth (Z.to_nat i) l 0.

Fixpoint set_nth (n : nat) (v : Z) (l : list Z) : list Z :=
  match l, n with
  | [], _ => []
  | _ :: t, O => v :: t
  | x :: t, S k => x :: set_nth k v t
  end.

Definition set_cell (l : list Z) (i : Z) (v : Z) : list Z := set_nth (Z.to_nat i) v l.

Section Code.

Context {hw : Type} {HW : Hardware hw}.

(** *** Bus accesses *)

Definition rd (r : reg) : M hw Z := fun m =>
  let v := wrap32 (fst (reg_load r (dev m))) in
  Some (v, with_dev m (snd (reg_load r (dev m))), [RegLoad r v]).

Definition wr (r : reg) (v : Z) : M hw unit := fun m =>
  Some (tt, with_dev m (reg_store r v (dev m)), [RegStore r v]).

Definition call_IAP (idx word : Z) : M hw unit := fun m =>
  Some (tt, with_dev m (iap_rom idx word (dev m)), [IapCall idx word]).

Definition load (width addr : Z) : M hw Z := fun m =>
  let v := mem_load width addr (dev m) mod 2 ^ (8 * width) in
  Some (v, m, [MemLoad width addr v]).

Definition store32 (addr v : Z) : M hw unit := fun m =>
  Some (tt, with_dev m (mem_store32 addr v (dev m)), [MemStore32 addr v]).

(** *** Data members *)

Definition get_efc : M hw efc_id := fun m => Some (efc m, m, []).
Definition set_efc (e : efc_id) : M hw unit := fun m => Some (tt, with_efc m e, []).
Definition get_uniqueID : M hw (list Z) := fun m => Some (uniqueID m, m, []).
Definition set_uniqueID (u : list Z) : M hw unit := fun m => Some (tt, with_uniqueID m u, []).
Definition get_flash_descriptor : M hw (list Z) := fun m => Some (flash_descriptor m, m, []).
Definition set_flash_descriptor (d : list Z) : M hw unit :=
  fun m => Some (tt, with_flash_descriptor m d, []).
Definition get_page_buffer : M hw (list Z) := fun m => Some (page_buffer m, m, []).
Definition set_page_buffer (b : list Z) : M hw unit :=
  fun m => Some (tt, with_page_buffer m b, []).

(** [efc == EFC0 ? 0 : 1] *)
Definition efc_index (e : efc_id) : Z := match e with EFC0 => 0 | EFC1 => 1 end.

(** [(addr >= IFLASH1_ADDR) ? EFC1 : EFC0] *)
Definition bank_efc (addr : Z) : efc_id := if IFLASH1_ADDR <=? addr then EFC1 else EFC0.

(** *** Wait states ([FlashTools.cpp], lines 70-96) *)

Definition setfws (fws : Z) : M hw unit :=
  e <- get_efc ;;
  fmr <- rd (EFC_REG e EEFC_FMR) ;;
  wr (EFC_REG e EEFC_FMR)
     (Z.lor (Z.land fmr (wrap32 (Z.lnot EEFC_FMR_FWS_Msk))) (EEFC_FMR_FWS fws)).

Definition getfws : M hw Z :=
  e <- get_efc ;;
  fmr <- rd (EFC_REG e EEFC_FMR) ;;
  ret (Z.shiftr (Z.land fmr EEFC_FMR_FWS_Msk) EEFC_FMR_FWS_Pos).

(** *** The command word and [cmd] (lines 104-119) *)

(** Assignment to a bit-field of [width] bits at bit [pos] of a 32-bit
    union member: the value is truncated to the field, the other bits of
    the word stay. *)
Definition bitfield_set (pos width v full : Z) : Z :=
  Z.lor (Z.land full (wrap32 (Z.lnot (Z.shiftl (Z.ones width) pos))))
        (Z.shiftl (Z.land v (Z.ones width)) pos).

(** [EEFC_FCR_Type]: FCMD:8 at bit 0, FARG:16 at bit 8, FKEY:8 at bit 24. *)
Definition set_FCMD := bitfield_set 0 8.
Definition set_FARG := bitfield_set 8 16.
Definition set_FKEY := bitfield_set 24 8.

Definition cmd (c arg : Z) : M hw Z :=
  let EFC_FCR_REGISTER := 0 in
  let EFC_FCR_REGISTER := set_FCMD c EFC_FCR_REGISTER in
  let EFC_FCR_REGISTER := set_FKEY FWP_KEY EFC_FCR_REGISTER in
  let EFC_FCR_REGISTER := set_FARG arg EFC_FCR_REGISTER in
  e <- get_efc ;;
  call_IAP (efc_index e) EFC_FCR_REGISTER ;;;
  fsr <- rd (EFC_REG e EEFC_FSR) ;;
  ret (Z.land fsr EEFC_ERROR_FLAGS).


(** *** [flashcpy] (lines 130-176) *)

(** [memcpy] into an array at index [dest], one byte after the other. *)
Fixpoint poke (dest : nat) (bytes : list Z) (buf : list Z) : list Z :=
  match bytes with
  | [] => buf
  | v :: rest => poke (S dest) rest (set_nth dest v buf)
  end.

(** The [n] bytes at a flash address, each one a load on the bus. *)
Fixpoint load_bytes (n : nat) (addr : Z) : M hw (list Z) :=
  match n with
  | O => ret []
  | S k =>
      v <- load 1 addr ;;
      vs <- load_bytes k (wrap32 (addr + 1)) ;;
      ret (v :: vs)
  end.

(** The first [n] bytes behind the caller's pointer.  [data] is the memory
    the pointer points to; reading past what the caller owns is undefined
    in C and reads 0 here. *)
Definition read_data (data : list Z) (n : Z) : list Z :=
  map (fun i => nth i data 0) (seq 0 (Z.to_nat n)).

(** The loop over the three parts: [parts] pairs the index [i] with
    [sizes[i]]; [dest] is the offset of the copy destination in the page
    buffer, [page_data] the flash address the next flash copy reads. *)
Fixpoint flashcpy_parts (write_data : list Z) (parts : list (Z * Z))
         (dest page_data : Z) : M hw unit :=
  match parts with
  | [] => ret tt
  | (i, size) :: rest =>
      bytes <- (if i =? 1 then ret (read_data write_data size)
                else load_bytes (Z.to_nat size) page_data) ;;
      buf <- get_page_buffer ;;
      set_page_buffer (poke (Z.to_nat dest) bytes buf) ;;;
      flashcpy_parts write_data rest (dest + size) (wrap32 (page_data + size))
  end.

(** Word [t] of the page buffer (the buffer is an array of 32-bit words
    that [flashcpy] fills through a byte pointer; the core is little-endian). *)
Definition buffer_word (buf : list Z) (t : Z) : Z :=
  cell buf (4 * t) + 2 ^ 8 * cell buf (4 * t + 1)
  + 2 ^ 16 * cell buf (4 * t + 2) + 2 ^ 24 * cell buf (4 * t + 3).

(** [for (t = 0; t < IFLASH_WORDS_PER_PAGE; ++t) *flash++ = *src++;]
    with [n] the iterations left. *)
Fixpoint store_words (n : nat) (t flash : Z) : M hw unit :=
  match n with
  | O => ret tt
  | S k =>
      buf <- get_page_buffer ;;
      store32 flash (buffer_word buf t) ;;;
      store_words k (t + 1) (wrap32 (flash + 4))
  end.

(** Returns the page address, or 0 for the null pointer. *)
Definition flashcpy (page_address : Z) (write_data : option (list Z))
           (offset write_size padding_size : Z) : M hw Z :=
  let sizes := [(0, offset); (1, write_size); (2, padding_size)] in
  match write_data with
  | None => ret 0
  | Some data =>
      if page_address =? 0 then ret 0
      else
        flashcpy_parts data sizes 0 page_address ;;;
        store_words (Z.to_nat IFLASH_WORDS_PER_PAGE) 0 page_address ;;;
        ret page_address
  end.

(** *** [setEFC], [getEFC] (lines 183-198) *)

Definition setEFC (efc_idx : Z) : M hw Z :=
  if negb (efc_idx =? 0) && negb (efc_idx =? 1) then ret INVALID
  else set_efc (if efc_idx =? 0 then EFC0 else EFC1) ;;; ret SUCCESS.

Definition getEFC : M hw Z := e <- get_efc ;; ret (efc_index e).

(** *** [getUniqueID] (lines 205-260) *)

(** The two busy-waits on the ready flag.  [while_set = true] is
    [for (stat = FSR; (stat & FRDY) == FRDY; stat = FSR);] and
    [while_set = false] the same loop with [!=].  The source has no bound
    on them: [fuel] is the number of status reads allowed. *)
Fixpoint wait_FRDY (fuel : nat) (while_set : bool) : M hw unit :=
  match fuel with
  | O => hang
  | S k =>
      e <- get_efc ;;
      stat <- rd (EFC_REG e EEFC_FSR) ;;
      if Bool.eqb (Z.land stat EEFC_FSR_FRDY =? EEFC_FSR_FRDY) while_set
      then wait_FRDY k while_set
      else ret tt
  end.

(** [uBuff[i] = uniqueID[i] = tmpUniqueID[i]] for the [n] cells from [i]. *)
Fixpoint copy_unique_id (n : nat) (i tmpUniqueID : Z) (uBuff : list Z) : M hw (list Z) :=
  match n with
  | O => ret uBuff
  | S k =>
      v <- load 4 (wrap32 (tmpUniqueID + 4 * i)) ;;
      u <- get_uniqueID ;;
      set_uniqueID (set_cell u i v) ;;;
      copy_unique_id k (i + 1) tmpUniqueID (set_cell uBuff i v)
  end.

(** [uBuff] is the caller's array ([None]: the null pointer); the result
    is the return code and the array as the call leaves it. *)
Definition getUniqueID (fuel : nat) (uBuff : option (list Z)) : M hw (Z * option (list Z)) :=
  match uBuff with
  | None => ret (INVALID, None)
  | Some buf =>
      u <- get_uniqueID ;;
      if negb (cell u 0 =? 0) then
        ret (SUCCESS,
             Some (fold_left (fun b i => set_cell b i (cell u i))
                             (map Z.of_nat (seq 0 (Z.to_nat UNIQUE_ID_SIZE))) buf))
      else
        fws <- getfws ;;
        setfws CHIP_FLASH_WAIT_STATE ;;;
        e <- get_efc ;;
        let tmpUniqueID := match e with EFC0 => IFLASH0_ADDR | EFC1 => IFLASH1_ADDR end in
        fmr <- rd (EFC_REG e EEFC_FMR) ;;
        wr (EFC_REG e EEFC_FMR) (Z.lor fmr EEFC_FMR_SCOD) ;;;
        wr (EFC_REG e EEFC_FCR) (set_FKEY FWP_KEY (set_FARG 0 (set_FCMD EFC_FCMD_STUI 0))) ;;;
        wait_FRDY fuel true ;;;
        buf' <- copy_unique_id (Z.to_nat UNIQUE_ID_SIZE) 0 tmpUniqueID buf ;;
        wr (EFC_REG e EEFC_FCR) (set_FKEY FWP_KEY (set_FARG 0 (set_FCMD EFC_FCMD_SPUI 0))) ;;;
        wait_FRDY fuel false ;;;
        fmr <- rd (EFC_REG e EEFC_FMR) ;;
        wr (EFC_REG e EEFC_FMR) (Z.land fmr (wrap32 (Z.lnot EEFC_FMR_SCOD))) ;;;
        setfws fws ;;;
        ret (SUCCESS, Some buf')
  end.

(** *** GPNVM bits (lines 267-367) *)

(** [efc->EEFC_FRR & (1 << k)], as a truth value. *)
Definition FRR_bit (k : Z) : M hw bool :=
  e <- get_efc ;;
  frr <- rd (EFC_REG e EEFC_FRR) ;;
  ret (negb (Z.land frr (Z.shiftl 1 k) =? 0)).

Definition setSecurityBit : M hw Z :=
  st <- cmd EFC_FCMD_GGPB 0 ;;
  done <- (if st =? SUCCESS then FRR_bit 0 else ret false) ;;
  if done then ret SUCCESS else cmd EFC_FCMD_SGPB 0.

Definition setBootModeSAMBA : M hw Z :=
  st <- cmd EFC_FCMD_GGPB 0 ;;
  done <- (if st =? SUCCESS then b <- FRR_bit 1 ;; ret (negb b) else ret false) ;;
  if done then ret SUCCESS else cmd EFC_FCMD_CGPB 1.

Definition setBootModeFlash : M hw Z :=
  st <- cmd EFC_FCMD_GGPB 0 ;;
  done <- (if st =? SUCCESS then FRR_bit 1 else ret false) ;;
  if done then ret SUCCESS else cmd EFC_FCMD_SGPB 1.

Definition setBootFlash0 : M hw Z :=
  st <- cmd EFC_FCMD_GGPB 0 ;;
  done <- (if st =? SUCCESS then b <- FRR_bit 2 ;; ret (negb b) else ret false) ;;
  if done then ret SUCCESS else cmd EFC_FCMD_CGPB 2.

Definition setBootFlash1 : M hw Z :=
  st <- cmd EFC_FCMD_GGPB 0 ;;
  done <- (if st =? SUCCESS then FRR_bit 2 else ret false) ;;
  if done then ret SUCCESS else cmd EFC_FCMD_SGPB 2.

Definition getSecurityBit : M hw Z :=
  st <- cmd EFC_FCMD_GGPB 0 ;;
  if negb (st =? SUCCESS) then ret ERROR
  else b <- FRR_bit 0 ;; ret (if b then BIT_IS_SET else BIT_IS_CLEARED).

Definition getBootSelectBit : M hw Z :=
  st <- cmd EFC_FCMD_GGPB 0 ;;
  if negb (st =? SUCCESS) then ret ERROR
  else b <- FRR_bit 1 ;; ret (if b then BIT_IS_SET else BIT_IS_CLEARED).

Definition getFlashSelectBit : M hw Z :=
  st <- cmd EFC_FCMD_GGPB 0 ;;
  if negb (st =? SUCCESS) then ret ERROR
  else b <- FRR_bit 2 ;; ret (if b then BIT_IS_SET else BIT_IS_CLEARED).

(** *** The flash descriptor and its getters (lines 374-445) *)

(** [for (i = 0, res; i < FLASH_DESCRIPTOR_SIZE && (res = efc->EEFC_FRR) != 0; ++i)
      flash_descriptor[i] = res;]   with [n] the values of [i] left. *)
Fixpoint read_descriptor (n : nat) (i : Z) : M hw unit :=
  match n with
  | O => ret tt
  | S k =>
      e <- get_efc ;;
      res <- rd (EFC_REG e EEFC_FRR) ;;
      if res =? 0 then ret tt
      else
        d <- get_flash_descriptor ;;
        set_flash_descriptor (set_cell d i res) ;;;
        read_descriptor k (i + 1)
  end.

(** The result is [true] for the pointer to [flash_descriptor] and [false]
    for the null pointer. *)
Definition getFlashDescriptor (addr : Z) : M hw bool :=
  if IFLASH_LAST_PAGE_ADDRESS <? addr then ret false
  else
    set_efc (bank_efc addr) ;;;
    st <- cmd EFC_FCMD_GETD 0 ;;
    if negb (st =? SUCCESS) then ret false
    else
      read_descriptor (Z.to_nat FLASH_DESCRIPTOR_SIZE) 0 ;;;
      d <- get_flash_descriptor ;;
      set_flash_descriptor (set_cell d FLASH_DESCRIPTOR_SIZE addr) ;;;
      ret true.

(** The condition every getter starts with:
    [flash_descriptor[FLASH_DESCRIPTOR_SIZE] == addr || getFlashDescriptor(addr) != NULL]. *)
Definition descriptor_for (addr : Z) : M hw bool :=
  d <- get_flash_descriptor ;;
  if cell d FLASH_DESCRIPTOR_SIZE =? addr then ret true else getFlashDescriptor addr.

Definition getFlashId (addr : Z) : M hw Z :=
  ok <- descriptor_for addr ;;
  if ok then d <- get_flash_descriptor ;; ret (cell d 0) else ret INVALID.

Definition getFlashSize (addr : Z) : M hw Z :=
  ok <- descriptor_for addr ;;
  if ok then d <- get_flash_descriptor ;; ret (cell d 1) else ret INVALID.

Definition getPageSize (addr : Z) : M hw Z :=
  ok <- descriptor_for addr ;;
  if ok then d <- get_flash_descriptor ;; ret (cell d 2) else ret INVALID.

Definition getRegionCount (addr : Z) : M hw Z :=
  ok <- descriptor_for addr ;;
  if ok then d <- get_flash_descriptor ;; ret (cell d 3) else ret INVALID.

Definition getRegionSize (addr : Z) : M hw Z :=
  ok <- descriptor_for addr ;;
  if ok then d <- get_flash_descriptor ;; ret (cell d 4) else ret INVALID.

(** The two quotients are unsigned divisions; a zero divisor gives 0, in
    [Z] as on the Cortex-M3 with its divide-by-zero trap off. *)
Definition getPageCount (addr : Z) : M hw Z :=
  ok <- descriptor_for addr ;;
  if ok then d <- get_flash_descriptor ;; ret (cell d 1 / cell d 2) else ret INVALID.

Definition getPageCountPerRegion (addr : Z) : M hw Z :=
  ok <- descriptor_for addr ;;
  if ok then d <- get_flash_descriptor ;; ret (cell d 4 / cell d 2) else ret INVALID.

(** *** [lock], [unlock] (lines 453-520) *)

(** [while (start_page < end_page) { if (cmd(c, start_page) != SUCCESS)
    return efc->EEFC_FSR & EEFC_ERROR_FLAGS; start_page += pages_in_region; }]
    [start_page] is a [uint16_t] and wraps; after 1024 steps of 64 it is
    back where it began, so a run is followed for [fuel] iterations. *)
Fixpoint region_loop (fuel : nat) (c start_page end_page pages_in_region : Z) : M hw Z :=
  if start_page <? end_page then
    match fuel with
    | O => hang
    | S k =>
        st <- cmd c start_page ;;
        if negb (st =? SUCCESS) then
          e <- get_efc ;;
          fsr <- rd (EFC_REG e EEFC_FSR) ;;
          ret (Z.land fsr EEFC_ERROR_FLAGS)
        else region_loop k c (wrap16 (start_page + pages_in_region)) end_page pages_in_region
    end
  else ret SUCCESS.

Definition region_pages (c start_addr end_addr : Z) : M hw Z :=
  let pages_in_region := wrap16 (IFLASH_LOCK_REGION_SIZE / IFLASH_PAGE_SIZE) in
  let actual_start_addr := wrap32 (start_addr - start_addr mod IFLASH_LOCK_REGION_SIZE) in
  let actual_end_addr :=
    wrap32 (end_addr - end_addr mod IFLASH_LOCK_REGION_SIZE + IFLASH_LOCK_REGION_SIZE - 1) in
  let base := if IFLASH1_ADDR <=? actual_start_addr then IFLASH1_ADDR else IFLASH0_ADDR in
  set_efc (bank_efc actual_start_addr) ;;;
  let start_page := wrap16 (wrap32 (actual_start_addr - base) / IFLASH_PAGE_SIZE) in
  let end_page := wrap16 (wrap32 (actual_end_addr - base) / IFLASH_PAGE_SIZE) in
  region_loop 1025 c start_page end_page pages_in_region.

Definition lock (start_addr end_addr : Z) : M hw Z :=
  region_pages EFC_FCMD_SLB start_addr end_addr.

Definition unlock (start_addr end_addr : Z) : M hw Z :=
  region_pages EFC_FCMD_CLB start_addr end_addr.

(** *** [islocked] (lines 528-574) *)

Definition READ_SIZE : Z := 32.

(** [for (involved = 0, stat = efc->EEFC_FRR;
         !(involved <= start_region && start_region < (involved + READ_SIZE));
         involved += READ_SIZE) stat = efc->EEFC_FRR;]
    from the state after the initialisation. *)
Fixpoint skip_groups (fuel : nat) (start_region involved stat : Z) : M hw (Z * Z) :=
  if (involved <=? start_region) && (start_region <? wrap32 (involved + READ_SIZE))
  then ret (involved, stat)
  else
    match fuel with
    | O => hang
    | S k =>
        e <- get_efc ;;
        stat' <- rd (EFC_REG e EEFC_FRR) ;;
        skip_groups k start_region (wrap32 (involved + READ_SIZE)) stat'
    end.

(** [for (bit = ..., idx = ...; idx > 0; --idx) { if (stat & (1 << bit))
    ++locked_regions; if (++bit == READ_SIZE) { stat = efc->EEFC_FRR; bit = 0; } }] *)
Fixpoint count_locked (idx : nat) (bit stat locked_regions : Z) : M hw Z :=
  match idx with
  | O => ret locked_regions
  | S k =>
      let locked_regions :=
        if negb (Z.land stat (wrap32 (Z.shiftl 1 bit)) =? 0)
        then wrap32 (locked_regions + 1) else locked_regions in
      if wrap32 (bit + 1) =? READ_SIZE then
        e <- get_efc ;;
        stat' <- rd (EFC_REG e EEFC_FRR) ;;
        count_locked k 0 stat' locked_regions
      else count_locked k (wrap32 (bit + 1)) stat locked_regions
  end.

(** The region index of the page an address lies in, counted from [base]. *)
Definition page_of (base addr : Z) : Z := wrap16 (wrap32 (addr - base) / IFLASH_PAGE_SIZE).
Definition region_of (page : Z) : Z :=
  wrap16 (page / (IFLASH_LOCK_REGION_SIZE / IFLASH_PAGE_SIZE)).

Definition islocked (start_addr end_addr : Z) : M hw Z :=
  let base := if IFLASH1_ADDR <=? start_addr then IFLASH1_ADDR else IFLASH0_ADDR in
  set_efc (bank_efc start_addr) ;;;
  let start_page := page_of base start_addr in
  let end_page := page_of base end_addr in
  let start_region := region_of start_page in
  let end_region := region_of end_page in
  st <- cmd EFC_FCMD_GLB 0 ;;
  if negb (st =? SUCCESS) then
    e <- get_efc ;;
    fsr <- rd (EFC_REG e EEFC_FSR) ;;
    ret (Z.land fsr EEFC_ERROR_FLAGS)
  else
    e <- get_efc ;;
    stat <- rd (EFC_REG e EEFC_FRR) ;;
    found <- skip_groups 2048 start_region 0 stat ;;
    let '(involved, stat) := found in
    count_locked (Z.to_nat (wrap32 (end_region - start_region + 1)))
                 (wrap32 (start_region - involved)) stat 0.

(** *** [erase] (lines 581-584) *)

Definition erase (addr : Z) : M hw Z :=
  set_efc (bank_efc addr) ;;;
  cmd EFC_FCMD_EA 0.

(** *** [write] ([FlashTools.h], lines 325-376) *)

(** [data += k]: the memory behind the pointer, [k] objects of
    [sizeof_Type] bytes further on. *)
Definition advance (sizeof_Type : Z) (data : option (list Z)) (k : Z) : option (list Z) :=
  option_map (skipn (Z.to_nat (k * sizeof_Type))) data.

(** The page command [write] issues for its [erase] and [lock] flags. *)
Definition page_command (erase lock : bool) : Z :=
  if erase && lock then EFC_FCMD_EWPL else if erase then EFC_FCMD_EWP else EFC_FCMD_WP.

(** The [for] loop over the pages.  [Some flags] is the [return] inside the
    loop, [None] the normal end of the loop.  Each iteration with
    [offset < 256] writes at least one byte, so [data_size] iterations are
    always enough; [fuel] is that bound. *)
Fixpoint write_pages (fuel : nat) (sizeof_Type FLASH_START_ADDR page_num offset : Z)
         (data : option (list Z)) (data_size : Z) (erase lock : bool) : M hw (option Z) :=
  if 0 <? data_size then
    match fuel with
    | O => hang
    | S k =>
        let write_size :=
          if wrap32 (IFLASH_PAGE_SIZE - offset) <? data_size
          then wrap32 (IFLASH_PAGE_SIZE - offset) else data_size in
        let page_address := wrap32 (FLASH_START_ADDR + page_num * IFLASH_PAGE_SIZE) in
        let padding_size := wrap16 (wrap32 (IFLASH_PAGE_SIZE - offset - write_size)) in
        flashcpy page_address data offset write_size padding_size ;;;
        st <- cmd (page_command erase lock) page_num ;;
        if negb (st =? SUCCESS) then
          e <- get_efc ;;
          fsr <- rd (EFC_REG e EEFC_FSR) ;;
          ret (Some (Z.land fsr EEFC_ERROR_FLAGS))
        else
          write_pages k sizeof_Type FLASH_START_ADDR (wrap16 (page_num + 1)) 0
                      (advance sizeof_Type data (write_size / sizeof_Type))
                      (wrap32 (data_size - write_size)) erase lock
    end
  else ret None.

(** [islocked(addr, addr + data_size - 1) && unlock(addr, addr + data_size - 1) != SUCCESS] *)
Definition locked_and_stuck (addr data_size : Z) : M hw bool :=
  locked <- islocked addr (wrap32 (addr + data_size - 1)) ;;
  if locked =? 0 then ret false
  else
    st <- unlock addr (wrap32 (addr + data_size - 1)) ;;
    ret (negb (st =? SUCCESS)).

(** [data] is the memory behind the caller's pointer, as bytes ([None]: the
    null pointer); [sizeof_Type] is [sizeof(Type)] of the instantiation. *)
Definition write (sizeof_Type addr : Z) (data : option (list Z)) (data_size : Z)
           (erase lock : bool) : M hw Z :=
  if (IFLASH_LAST_PAGE_ADDRESS + IFLASH_PAGE_SIZE <=? addr) || (addr <? IFLASH_ADDR)
     || negb (Z.land addr 3 =? 0)
  then ret INVALID
  else
    stuck <- locked_and_stuck addr data_size ;;
    if stuck then ret ERROR
    else
      let FLASH_START_ADDR := if IFLASH1_ADDR <=? addr then IFLASH1_ADDR else IFLASH0_ADDR in
      set_efc (bank_efc addr) ;;;
      let page_num := wrap16 ((addr - FLASH_START_ADDR) / IFLASH_PAGE_SIZE) in
      let offset := wrap16 ((addr - FLASH_START_ADDR) mod IFLASH_PAGE_SIZE) in
      fws <- getfws ;;
      setfws CHIP_FLASH_WAIT_STATE ;;;
      early <- write_pages (Z.to_nat data_size) sizeof_Type FLASH_START_ADDR
                           page_num offset data data_size erase lock ;;
      match early with
      | Some flags => ret flags
      | None => setfws fws ;;; ret SUCCESS
      end.

(** *** [read] (lines 391-394) *)

(** [Type] is an unsigned integer type of [sizeof_Type] bytes; the
    sentinel is converted to it. *)
Definition read (sizeof_Type addr : Z) : M hw Z :=
  if (IFLASH_LAST_PAGE_ADDRESS + IFLASH_PAGE_SIZE <? addr) || (addr <? IFLASH0_ADDR)
  then ret (INVALID mod 2 ^ (8 * sizeof_Type))
  else load sizeof_Type addr.

(** *** The constructor ([FlashTools.cpp], lines 24-56) *)

Definition FlashTools_ctor : M hw unit :=
  set_efc EFC0 ;;;
  shcsr <- rd SCB_SHCSR ;;
  wr SCB_SHCSR (Z.lor shcsr SCB_SHCSR_MEMFAULTENA_Msk) ;;;
  load 4 IAP_ENTRY_ADDRESS ;;;
  fmr <- rd (EFC_REG EFC0 EEFC_FMR) ;;
  let fws0 := Z.shiftr (Z.land fmr EEFC_FMR_FWS_Msk) EEFC_FMR_FWS_Pos in
  fmr <- rd (EFC_REG EFC1 EEFC_FMR) ;;
  let fws1 := Z.shiftr (Z.land fmr EEFC_FMR_FWS_Msk) EEFC_FMR_FWS_Pos in
  fmr <- rd (EFC_REG EFC0 EEFC_FMR) ;;
  let fam0 := Z.land fmr EEFC_FMR_FAM in
  fmr <- rd (EFC_REG EFC1 EEFC_FMR) ;;
  let fam1 := Z.land fmr EEFC_FMR_FAM in
  (fun m => Some (tt, with_saved_modes m fws0 fws1 fam0 fam1, [])) ;;;
  wr (EFC_REG EFC0 EEFC_FMR) (Z.lor FLASH_ACCESS_MODE_128 (EEFC_FMR_FWS CHIP_FLASH_WAIT_STATE)) ;;;
  wr (EFC_REG EFC1 EEFC_FMR) (Z.lor FLASH_ACCESS_MODE_128 (EEFC_FMR_FWS CHIP_FLASH_WAIT_STATE)) ;;;
  set_uniqueID [0; 0; 0; 0] ;;;
  set_flash_descriptor [0; 0; 0; 0; 0xFFFFFFFF].

(** The object before its constructor has run: the static page buffer is
    zero-initialised, the members are taken as zero. *)
Definition raw_object (h : hw) : machine hw :=
  Machine h EFC0 0 0 0 0 [0; 0; 0; 0] [0; 0; 0; 0; 0]
          (repeat 0 (Z.to_nat IFLASH_PAGE_SIZE)).

(** A freshly constructed object on device [h]. *)
Definition new_FlashTools (h : hw) : option (machine hw) :=
  match FlashTools_ctor (raw_object h) with
  | Some (_, m, _) => Some m
  | None => None
  end.

End Code.

(** ** A simulated device

    The device is hardware, not code of the library.  This register file
    and flash array follow the register-level contract the specification
    gives for it (section 6): a command word without the key is refused
    with the command-error flag, a page command on a locked region is
    refused with the lock-error flag, the result register hands out the
    words of the last response one read at a time.  It is used to run the
    code on concrete inputs; no general statement below depends on it. *)
Module Sim.

Record bank : Type := Bank {
  fmr : Z;                (* flash mode register *)
  flags : Z;              (* error flags of the last command *)
  ready : bool;           (* FRDY *)
  response : list Z;      (* what the result register will hand out *)
  lock_bits : Z;          (* one bit per lock region, 64 regions at most *)
  uid_mode : bool         (* between "start unique ID" and "stop unique ID" *)
}.

Record t : Type := Dev {
  bank0 : bank;
  bank1 : bank;
  flash : list (Z * Z);   (* address, byte; an absent address is erased: 0xFF *)
  latch : list (Z * Z);   (* address, word: the stores since the last page command *)
  gpnvm : Z;
  uid : list Z;           (* the four words of the unique identifier *)
  descriptor : list Z;    (* the response to "get flash descriptor" *)
  shcsr : Z
}.

Definition get_bank (e : efc_id) (d : t) : bank :=
  match e with EFC0 => bank0 d | EFC1 => bank1 d end.

Definition set_bank (e : efc_id) (b : bank) (d : t) : t :=
  match e with
  | EFC0 => Dev b (bank1 d) (flash d) (latch d) (gpnvm d) (uid d) (descriptor d) (shcsr d)
  | EFC1 => Dev (bank0 d) b (flash d) (latch d) (gpnvm d) (uid d) (descriptor d) (shcsr d)
  end.

Definition set_flash (f l : list (Z * Z)) (d : t) : t :=
  Dev (bank0 d) (bank1 d) f l (gpnvm d) (uid d) (descriptor d) (shcsr d).

Definition set_gpnvm (g : Z) (d : t) : t :=
  Dev (bank0 d) (bank1 d) (flash d) (latch d) g (uid d) (descriptor d) (shcsr d).

Definition set_shcsr (v : Z) (d : t) : t :=
  Dev (bank0 d) (bank1 d) (flash d) (latch d) (gpnvm d) (uid d) (descriptor d) v.

Fixpoint lookup (a : Z) (l : list (Z * Z)) : option Z :=
  match l with
  | [] => None
  | (k, v) :: rest => if k =? a then Some v else lookup a rest
  end.

Definition flash_byte (d : t) (a : Z) : Z :=
  match lookup a (flash d) with Some v => v | None => 0xFF end.

(** The byte the latch holds for address [a] (0xFF where nothing was stored). *)
Definition latch_byte (d : t) (a : Z) : Z :=
  match lookup (a - a mod 4) (latch d) with
  | Some w => Z.shiftr w (8 * (a mod 4)) mod 256
  | None => 0xFF
  end.

Definition bank_base (e : efc_id) : Z :=
  match e with EFC0 => IFLASH0_ADDR | EFC1 => IFLASH1_ADDR end.

Definition answer (e : efc_id) (fl : Z) (resp : list Z) (d : t) : t :=
  let b := get_bank e d in
  set_bank e (Bank (fmr b) fl (ready b) resp (lock_bits b) (uid_mode b)) d.

Definition set_lock (e : efc_id) (bits : Z) (d : t) : t :=
  let b := get_bank e d in
  set_bank e (Bank (fmr b) (flags b) (ready b) (response b) bits (uid_mode b)) d.

Definition set_uid_mode (e : efc_id) (on : bool) (d : t) : t :=
  let b := get_bank e d in
  set_bank e (Bank (fmr b) 0 (negb on) (response b) (lock_bits b) on) d.

(** Programming page [page] of bank [e] from the latch.  With [erase] the
    page takes the latch content, without it the bits of the page can only
    go from 1 to 0. *)
Definition program (e : efc_id) (page : Z) (erase : bool) (d : t) : list (Z * Z) :=
  map (fun i =>
         let a := bank_base e + page * IFLASH_PAGE_SIZE + Z.of_nat i in
         (a, if erase then latch_byte d a else Z.land (flash_byte d a) (latch_byte d a)))
      (seq 0 (Z.to_nat IFLASH_PAGE_SIZE))
  ++ flash d.

Definition in_bank (e : efc_id) (a : Z) : bool :=
  (bank_base e <=? a) && (a <? bank_base e + IFLASH0_SIZE).

Definition execute (e : efc_id) (word : Z) (d : t) : t :=
  let c := Z.land word 0xFF in
  let arg := Z.land (Z.shiftr word 8) 0xFFFF in
  let key := Z.land (Z.shiftr word 24) 0xFF in
  let region := arg / IFLASH_LOCK_REGION_PAGES in
  let locks := lock_bits (get_bank e d) in
  if negb (key =? FWP_KEY) then answer e EEFC_FSR_FCMDE [] d
  else if c =? EFC_FCMD_GETD then answer e 0 (descriptor d) d
  else if (c =? EFC_FCMD_WP) || (c =? EFC_FCMD_WPL) || (c =? EFC_FCMD_EWP) || (c =? EFC_FCMD_EWPL) then
    if IFLASH_NB_OF_PAGES <=? arg then answer e EEFC_FSR_FCMDE [] d
    else if Z.testbit locks region then answer e EEFC_FSR_FLOCKE [] (set_flash (flash d) [] d)
    else
      let d1 := set_flash (program e arg ((c =? EFC_FCMD_EWP) || (c =? EFC_FCMD_EWPL)) d) [] d in
      let d2 := if (c =? EFC_FCMD_WPL) || (c =? EFC_FCMD_EWPL)
                then set_lock e (Z.setbit locks region) d1 else d1 in
      answer e 0 [] d2
  else if c =? EFC_FCMD_EA then
    if locks =? 0 then
      answer e 0 [] (set_flash (filter (fun kv => negb (in_bank e (fst kv))) (flash d)) [] d)
    else answer e EEFC_FSR_FLOCKE [] d
  else if c =? EFC_FCMD_SLB then answer e 0 [] (set_lock e (Z.setbit locks region) d)
  else if c =? EFC_FCMD_CLB then answer e 0 [] (set_lock e (Z.clearbit locks region) d)
  else if c =? EFC_FCMD_GLB then
    answer e 0 [Z.land locks (Z.ones 32); Z.land (Z.shiftr locks 32) (Z.ones 32)] d
  else if c =? EFC_FCMD_SGPB then
    if arg <? 3 then answer e 0 [] (set_gpnvm (Z.setbit (gpnvm d) arg) d)
    else answer e EEFC_FSR_FCMDE [] d
  else if c =? EFC_FCMD_CGPB then
    if arg <? 3 then answer e 0 [] (set_gpnvm (Z.clearbit (gpnvm d) arg) d)
    else answer e EEFC_FSR_FCMDE [] d
  else if c =? EFC_FCMD_GGPB then answer e 0 [gpnvm d] d
  else if c =? EFC_FCMD_STUI then set_uid_mode e true d
  else if c =? EFC_FCMD_SPUI then set_uid_mode e false d
  else answer e EEFC_FSR_FCMDE [] d.

Definition sim_reg_load (r : reg) (d : t) : Z * t :=
  match r with
  | SCB_SHCSR => (shcsr d, d)
  | EFC_REG e EEFC_FMR => (fmr (get_bank e d), d)
  | EFC_REG e EEFC_FCR => (0, d)
  | EFC_REG e EEFC_FSR =>
      let b := get_bank e d in
      (Z.lor (if ready b then EEFC_FSR_FRDY else 0) (flags b), d)
  | EFC_REG e EEFC_FRR =>
      let b := get_bank e d in
      (hd 0 (response b),
       set_bank e (Bank (fmr b) (flags b) (ready b) (tl (response b)) (lock_bits b) (uid_mode b)) d)
  end.

Definition sim_reg_store (r : reg) (v : Z) (d : t) : t :=
  match r with
  | SCB_SHCSR => set_shcsr v d
  | EFC_REG e EEFC_FMR =>
      let b := get_bank e d in
      set_bank e (Bank v (flags b) (ready b) (response b) (lock_bits b) (uid_mode b)) d
  | EFC_REG e EEFC_FCR => execute e v d
  | EFC_REG e _ => d
  end.

Definition sim_iap_rom (idx word : Z) (d : t) : t :=
  execute (if idx =? 0 then EFC0 else EFC1) word d.

(** A byte of the address space: the unique identifier shows through the
    start of a bank while that bank is in unique-identifier mode. *)
Definition mem_byte (d : t) (a : Z) : Z :=
  let e := if IFLASH1_ADDR <=? a then EFC1 else EFC0 in
  if uid_mode (get_bank e d) && (bank_base e <=? a) && (a <? bank_base e + 16)
  then Z.shiftr (nth (Z.to_nat ((a - bank_base e) / 4)) (uid d) 0) (8 * (a mod 4)) mod 256
  else flash_byte d a.

Definition sim_mem_load (width a : Z) (d : t) : Z :=
  fold_right (fun i acc => mem_byte d (a + Z.of_nat i) + 256 * acc) 0
             (seq 0 (Z.to_nat width)).

Definition sim_mem_store32 (a v : Z) (d : t) : t :=
  set_flash (flash d) ((a, v) :: latch d) d.

#[global] Instance hardware : Hardware t := {
  reg_load := sim_reg_load;
  reg_store := sim_reg_store;
  iap_rom := sim_iap_rom;
  mem_load := sim_mem_load;
  mem_store32 := sim_mem_store32
}.

Definition idle_bank (locks : Z) : bank := Bank 0x400 0 true [] locks false.

(** A device after reset: wait states 4 in both banks, flash content [f],
    lock bits [l0] and [l1], GPNVM bits [g]. *)
Definition reset (f : list (Z * Z)) (l0 l1 g : Z) : t :=
  Dev (idle_bank l0) (idle_bank l1) f [] g
      [0x11223344; 0x55667788; 0x99AABBCC; 0xDDEEFF00]
      [0x000F0730; 0x40000; 256; 1; 0x40000; 16; 0x4000]
      0.

End Sim.

(** ** Notions the statements are written with *)

(** The command and argument fields of a command word. *)
Definition command_of (word : Z) : Z * Z :=
  (Z.land word 0xFF, Z.land (Z.shiftr word 8) 0xFFFF).

(** The commands a run has issued, through the IAP routine or by a store
    to a command register, oldest first. *)
Fixpoint commands_issued (tr : list event) : list (Z * Z) :=
  match tr with
  | [] => []
  | IapCall _ w :: rest => command_of w :: commands_issued rest
  | RegStore (EFC_REG _ EEFC_FCR) w :: rest => command_of w :: commands_issued rest
  | _ :: rest => commands_issued rest
  end.

(** The three parts of the outcome of a run. *)
Definition returned {hw A} (o : option (A * machine hw * list event)) : option A :=
  match o with Some (a, _, _) => Some a | None => None end.

Definition final {hw A} (o : option (A * machine hw * list event)) : option (machine hw) :=
  match o with Some (_, m, _) => Some m | None => None end.

Definition trace_of {hw A} (o : option (A * machine hw * list event)) : list event :=
  match o with Some (_, _, t) => t | None => [] end.

Section Notions.

Context {hw : Type} {HW : Hardware hw}.

(** What it is for [op] to bring GPNVM bit [k] to the value [desired] with
    the programming command [prog], issued at most once.  [op] first runs
    the get-GPNVM-bits command; [st1] is its status.  When that succeeds the
    result register is read once ([frr]).  If bit [k] of it already has the
    desired value, [op] ends there with [SUCCESS] and the only command of
    the run is the get command.  In every other case [op] goes on with
    exactly one [cmd prog k], whose status is the result. *)
Definition programs_bit_once (op : M hw Z) (k : Z) (desired : bool) (prog : Z) : Prop :=
  forall m : machine hw,
  exists st1 m1 t1,
    cmd EFC_FCMD_GGPB 0 m = Some (st1, m1, t1) /\
    let FRR := EFC_REG (efc m1) EEFC_FRR in
    let frr := wrap32 (fst (reg_load FRR (dev m1))) in
    let m2 := with_dev m1 (snd (reg_load FRR (dev m1))) in
    if st1 =? SUCCESS then
      if Bool.eqb (Z.testbit frr k) desired then
        op m = Some (SUCCESS, m2, t1 ++ [RegLoad FRR frr]) /\
        commands_issued (t1 ++ [RegLoad FRR frr]) = [(EFC_FCMD_GGPB, 0)]
      else
        exists st2 m3 t2,
          cmd prog k m2 = Some (st2, m3, t2) /\
          op m = Some (st2, m3, t1 ++ [RegLoad FRR frr] ++ t2) /\
          commands_issued (t1 ++ [RegLoad FRR frr] ++ t2) = [(EFC_FCMD_GGPB, 0); (prog, k)]
    else
      exists st2 m3 t2,
        cmd prog k m1 = Some (st2, m3, t2) /\
        op m = Some (st2, m3, t1 ++ t2) /\
        commands_issued (t1 ++ t2) = [(EFC_FCMD_GGPB, 0); (prog, k)].

(** The [n] bytes of the address space from [a] on, as byte loads on
    device [h] return them: the current flash content. *)
Definition flash_bytes (h : hw) (a : Z) (n : nat) : list Z :=
  map (fun i => mem_load 1 (a + Z.of_nat i) h mod 2 ^ 8) (seq 0 n).

(** The trace of loading those bytes one by one. *)
Definition load_events (h : hw) (a : Z) (n : nat) : list event :=
  map (fun i => MemLoad 1 (a + Z.of_nat i) (mem_load 1 (a + Z.of_nat i) h mod 2 ^ 8))
      (seq 0 n).

(** The word-wise store of a page image to the page at [pa]: the trace
    and the device after it. *)
Definition store_events (pa : Z) (image : list Z) : list event :=
  map (fun t => MemStore32 (pa + 4 * Z.of_nat t) (buffer_word image (Z.of_nat t)))
      (seq 0 (Z.to_nat IFLASH_WORDS_PER_PAGE)).

Definition stored (pa : Z) (image : list Z) (h : hw) : hw :=
  fold_left (fun h t => mem_store32 (pa + 4 * Z.of_nat t) (buffer_word image (Z.of_nat t)) h)
            (seq 0 (Z.to_nat IFLASH_WORDS_PER_PAGE)) h.

(** The page buffer the write algorithm is described to build: in this
    order, the [offset] bytes the page holds at its start, the payload, and
    the bytes the page holds after the write window. *)
Definition merged_page (current : list Z) (offset : Z) (payload : list Z) : list Z :=
  firstn (Z.to_nat offset) current
  ++ payload
  ++ skipn (Z.to_nat offset + length payload) current.

(** One page of the described algorithm: read the prefix and the suffix
    from the current flash content ([offset] bytes from the start of the
    page, and [IFLASH_PAGE_SIZE - offset - write_size] bytes after the
    window), merge them with the payload into the page buffer, and store
    the whole buffer to the page, word by word. *)
Definition commit_page (page_address offset : Z) (payload : list Z) : M hw unit :=
  fun m =>
    let write_size := Z.of_nat (length payload) in
    let padding_size := IFLASH_PAGE_SIZE - offset - write_size in
    let current := flash_bytes (dev m) page_address (Z.to_nat IFLASH_PAGE_SIZE) in
    let image := merged_page current offset payload in
    Some (tt,
          with_page_buffer (with_dev m (stored page_address image (dev m))) image,
          load_events (dev m) page_address (Z.to_nat offset)
          ++ load_events (dev m) (page_address + offset + write_size) (Z.to_nat padding_size)
          ++ store_events page_address image).

(** The described loop: while data remains, commit one page of
    [write_size = min (IFLASH_PAGE_SIZE - offset) data_size] payload bytes
    and issue the page command; on failure return the status flags, on
    success go on with the next page at offset 0.  Each page takes the next
    [write_size] bytes of the data: the data that remains after a page is
    the data without the bytes that page was given. *)
Fixpoint commit_pages (fuel : nat) (base page_num offset : Z)
         (data : list Z) (data_size : Z) (erase lock : bool) : M hw (option Z) :=
  if 0 <? data_size then
    match fuel with
    | O => hang
    | S k =>
        let write_size := Z.min (IFLASH_PAGE_SIZE - offset) data_size in
        commit_page (base + page_num * IFLASH_PAGE_SIZE) offset
                    (firstn (Z.to_nat write_size) data) ;;;
        st <- cmd (page_command erase lock) page_num ;;
        if negb (st =? SUCCESS) then
          e <- get_efc ;;
          fsr <- rd (EFC_REG e EEFC_FSR) ;;
          ret (Some (Z.land fsr EEFC_ERROR_FLAGS))
        else
          commit_pages k base (page_num + 1) 0
                       (skipn (Z.to_nat write_size) data)
                       (data_size - write_size) erase lock
    end
  else ret None.

(** A computation that leaves the static page buffer as it is. *)
Definition keeps_page_buffer {A} (c : M hw A) : Prop :=
  forall m a m' t, c m = Some (a, m', t) -> page_buffer m' = page_buffer m.

(** The first [n] words the result register of controller [e] hands out
    to successive reads from device state [h], and the device after them. *)
Fixpoint frr_words (e : efc_id) (n : nat) (h : hw) : list Z * hw :=
  match n with
  | O => ([], h)
  | S k =>
      let r := frr_words e k (snd (reg_load (EFC_REG e EEFC_FRR) h)) in
      (wrap32 (fst (reg_load (EFC_REG e EEFC_FRR) h)) :: fst r, snd r)
  end.

End Notions.

(** The lock bit of region [r] in a response of 32-bit groups: bit
    [r mod 32] of group [r / 32]. *)
Definition lock_bit (groups : list Z) (r : Z) : bool :=
  Z.testbit (nth (Z.to_nat (r / 32)) groups 0) (r mod 32).

(** How many of the [n] regions from [first] on have their lock bit set. *)
Definition locked_among (groups : list Z) (first : Z) (n : nat) : Z :=
  Z.of_nat (length (filter (lock_bit groups)
                           (map (fun i => first + Z.of_nat i) (seq 0 n)))).

(** An address range that lies in one of the two banks. *)
Definition within_one_bank (start_addr end_addr : Z) : Prop :=
  (IFLASH0_ADDR <= start_addr /\ start_addr <= end_addr /\ end_addr < IFLASH1_ADDR)
  \/ (IFLASH1_ADDR <= start_addr /\ start_addr <= end_addr
      /\ end_addr < IFLASH1_ADDR + IFLASH1_SIZE).

(** The bank base and the lock regions [islocked] computes for its
    arguments. *)
Definition base_of (start_addr : Z) : Z :=
  if IFLASH1_ADDR <=? start_addr then IFLASH1_ADDR else IFLASH0_ADDR.
Definition start_region_of (start_addr : Z) : Z :=
  region_of (page_of (base_of start_addr) start_addr).
Definition end_region_of (start_addr end_addr : Z) : Z :=
  region_of (page_of (base_of start_addr) end_addr).

(** [write] as it is described, for a valid address and a buffer of
    [data_size] bytes: the lock check, the wait states saved and forced,
    the described loop from the page and the offset of the address, and
    the wait states put back when every page went through.  The size of
    the objects the buffer holds plays no part in it. *)
Definition described_write {hw} {HW : Hardware hw}
           (addr : Z) (data : list Z) (data_size : Z) (erase lock : bool) : M hw Z :=
  let page_num := (addr - base_of addr) / IFLASH_PAGE_SIZE in
  let offset := (addr - base_of addr) mod IFLASH_PAGE_SIZE in
  stuck <- locked_and_stuck addr data_size ;;
  if stuck then ret ERROR
  else
    set_efc (bank_efc addr) ;;;
    fws <- getfws ;;
    setfws CHIP_FLASH_WAIT_STATE ;;;
    early <- commit_pages (Z.to_nat data_size) (base_of addr)
                          page_num offset data data_size erase lock ;;
    match early with
    | Some flags => ret flags
    | None => setfws fws ;;; ret SUCCESS
    end.

(** Sample devices and objects for concrete runs. *)
Definition sample_flash : list (Z * Z) :=
  [(0x80000, 0x01); (0x80001, 0x02); (0x8000F, 0x0F); (0x80020, 0x07); (0x800FF, 0x99)].

Definition sample_device : Sim.t := Sim.reset sample_flash 0 0 0.

Definition sample_object : machine Sim.t :=
  match new_FlashTools sample_device with
  | Some m => m
  | None => raw_object sample_device
  end.

(** The sample object after other code has set four wait states in the
    mode register of bank 0. *)
Definition sample_object_fws4 : machine Sim.t :=
  with_dev sample_object
           (Sim.sim_reg_store (EFC_REG EFC0 EEFC_FMR) 0x400 (dev sample_object)).

(** The wait-state field of the mode register of bank 0. *)
Definition bank0_wait_states (m : machine Sim.t) : Z :=
  Z.shiftr (Z.land (Sim.fmr (Sim.bank0 (dev m))) EEFC_FMR_FWS_Msk) EEFC_FMR_FWS_Pos.

(** A device like the sample one whose descriptor is all different. *)
Definition other_device : Sim.t :=
  Sim.Dev (Sim.bank0 sample_device) (Sim.bank1 sample_device) sample_flash [] 0
          (Sim.uid sample_device) [0x12345678; 0x20000; 512; 2; 0x10000; 8; 0x8000] 0.

Definition other_object : machine Sim.t :=
  match new_FlashTools other_device with
  | Some m => m
  | None => raw_object other_device
  end.

(** A device whose second bank reports lock bits for regions 30, 31 and
    33, and its object. *)
Definition straddle_device : Sim.t := Sim.reset [] 0 (2 ^ 30 + 2 ^ 31 + 2 ^ 33) 0.

Definition straddle_object : machine Sim.t :=
  match new_FlashTools straddle_device with
  | Some m => m
  | None => raw_object straddle_device
  end.

(** ** More of the library

    The members the sections above leave out. *)

Section MoreCode.

Context {hw : Type} {HW : Hardware hw}.

(** *** [setfam], [getfam] ([FlashTools.cpp], lines 78-96) *)

Definition setfam (fa_mode : Z) : M hw unit :=
  e <- get_efc ;;
  fmr <- rd (EFC_REG e EEFC_FMR) ;;
  wr (EFC_REG e EEFC_FMR) (Z.lor (Z.land fmr (wrap32 (Z.lnot EEFC_FMR_FAM))) fa_mode).

Definition getfam : M hw Z :=
  e <- get_efc ;;
  fmr <- rd (EFC_REG e EEFC_FMR) ;;
  ret (Z.land fmr EEFC_FMR_FAM).

(** *** The destructor (lines 61-64) *)

Definition FlashTools_dtor : M hw unit := fun m =>
  (wr (EFC_REG EFC0 EEFC_FMR) (Z.lor (FAM0 m) (EEFC_FMR_FWS (FWS0 m))) ;;;
   wr (EFC_REG EFC1 EEFC_FMR) (Z.lor (FAM1 m) (EEFC_FMR_FWS (FWS1 m)))) m.

(** *** The pointer versions of [write] and [read] ([FlashTools.h], lines 381-402) *)

Definition write_at (sizeof_Type addr : Z) (data : option (list Z)) (size : Z)
           (erase lock : bool) : M hw Z :=
  write sizeof_Type addr data size erase lock.

Definition read_at (sizeof_Type addr : Z) : M hw Z := read sizeof_Type addr.

End MoreCode.

(** *** [getPageAddress], [getOffset] ([FlashTools.h], lines 283-314)

    [IFLASH_TOTAL_PAGES] is the sum of two macros that the header of the
    library does not define (they come from the device header); it is a
    parameter here.  A pointer is its address, 0 for the null pointer;
    [ptr + offset] on a [Type*] adds [offset * sizeof(Type)]. *)

Definition getPageAddress (IFLASH_TOTAL_PAGES sizeof_Type page_num offset : Z) : Z :=
  if (page_num <? 0) || (IFLASH_TOTAL_PAGES <=? page_num) then 0
  else if page_num <=? IFLASH_NB_OF_PAGES then
    wrap32 (wrap32 (IFLASH0_ADDR + wrap32 (IFLASH_PAGE_SIZE * page_num))
            + offset * sizeof_Type)
  else
    wrap32 (wrap32 (IFLASH1_ADDR
                    + wrap32 (IFLASH_PAGE_SIZE * (page_num mod IFLASH_NB_OF_PAGES)))
            + offset * sizeof_Type).

Definition getOffset (IFLASH_TOTAL_PAGES sizeof_Type page_num offset : Z) : Z :=
  if (page_num <? 0) || (IFLASH_TOTAL_PAGES <=? page_num) then 0
  else if page_num <=? IFLASH_NB_OF_PAGES then
    wrap32 (wrap32 (IFLASH_PAGE_SIZE * page_num) / sizeof_Type + offset)
  else
    wrap32 (wrap32 (IFLASH0_SIZE + wrap32 (IFLASH_PAGE_SIZE * page_num)) / sizeof_Type
            + offset).

(** *** [MPUConfigureRegion] ([FlashTools.cpp], lines 593-677)

    The function reads nothing and writes three registers of the MPU
    between two barriers; it is modelled by what it does in order. *)

Inductive mpu_reg : Type := MPU_RBAR | MPU_RASR | MPU_CTRL.

Inductive mpu_event : Type :=
| DSB
| ISB
| MpuStore (r : mpu_reg) (v : Z).

(** [x << n] on [uint32_t].  A count of 32 or more is undefined in C; the
    shift instruction of the core gives 0 for it. *)
Definition shl32 (x n : Z) : Z :=
  if (0 <=? n) && (n <? 32) then wrap32 (Z.shiftl x n) else 0.

(** The union for the control register is never initialised as a whole:
    [MPU_CTRL_uninitialised] is what its storage holds before the three
    one-bit fields are assigned. *)
Definition MPUConfigureRegion (addr size region tex c b s ap xn : Z)
           (MPU_CTRL_uninitialised : Z) : Z * list mpu_event :=
  let MPU_RBAR_REGISTER := 0 in
  let MPU_RBAR_REGISTER := bitfield_set 0 4 region MPU_RBAR_REGISTER in
  let MPU_RBAR_REGISTER := bitfield_set 4 1 1 MPU_RBAR_REGISTER in
  let MPU_RBAR_REGISTER :=
    bitfield_set 5 27 (Z.land (Z.shiftr addr 5) (shl32 0xffffffff (wrap32 (size - 4))))
                 MPU_RBAR_REGISTER in
  let MPU_RASR_REGISTER := 0 in
  let MPU_RASR_REGISTER := bitfield_set 1 5 size MPU_RASR_REGISTER in
  let MPU_RASR_REGISTER := bitfield_set 0 1 1 MPU_RASR_REGISTER in
  let MPU_RASR_REGISTER := bitfield_set 8 8 0 MPU_RASR_REGISTER in
  let MPU_RASR_REGISTER := bitfield_set 19 3 tex MPU_RASR_REGISTER in
  let MPU_RASR_REGISTER := bitfield_set 17 1 c MPU_RASR_REGISTER in
  let MPU_RASR_REGISTER := bitfield_set 16 1 b MPU_RASR_REGISTER in
  let MPU_RASR_REGISTER := bitfield_set 18 1 s MPU_RASR_REGISTER in
  let MPU_RASR_REGISTER := bitfield_set 24 3 ap MPU_RASR_REGISTER in
  let MPU_RASR_REGISTER := bitfield_set 28 1 xn MPU_RASR_REGISTER in
  let MPU_CTRL_REGISTER := MPU_CTRL_uninitialised in
  let MPU_CTRL_REGISTER := bitfield_set 2 1 1 MPU_CTRL_REGISTER in
  let MPU_CTRL_REGISTER := bitfield_set 1 1 0 MPU_CTRL_REGISTER in
  let MPU_CTRL_REGISTER := bitfield_set 0 1 1 MPU_CTRL_REGISTER in
  (SUCCESS,
   [DSB; ISB;
    MpuStore MPU_RBAR MPU_RBAR_REGISTER;
    MpuStore MPU_RASR MPU_RASR_REGISTER;
    MpuStore MPU_CTRL MPU_CTRL_REGISTER]).

(** ** More notions *)

(** Reading a bit-field of [width] bits at bit [pos] of a word. *)
Definition bitfield_get (pos width full : Z) : Z :=
  Z.land (Z.shiftr full pos) (Z.ones width).

(** A trace in which no read of a status register shows an error flag. *)
Definition status_ok (e : event) : bool :=
  match e with
  | RegLoad (EFC_REG _ EEFC_FSR) v => Z.land v EEFC_ERROR_FLAGS =? 0
  | _ => true
  end.

Definition no_error_status (t : list event) : bool := forallb status_ok t.

(** [FLASH_ACCESS_MODE_64] ([FlashTools.h], line 141) *)
Definition FLASH_ACCESS_MODE_64 : Z := EEFC_FMR_FAM.

(** An access that does not concern the other flash controller: a
    register or command access to controller [e], or a memory access.  The
    system control block is no flash controller at all. *)
Definition efc_eqb (a b : efc_id) : bool :=
  match a, b with EFC0, EFC0 | EFC1, EFC1 => true | _, _ => false end.

Definition on_controller (e : efc_id) (ev : event) : bool :=
  match ev with
  | RegLoad (EFC_REG e' _) _ | RegStore (EFC_REG e' _) _ => efc_eqb e' e
  | RegLoad SCB_SHCSR _ | RegStore SCB_SHCSR _ => false
  | IapCall idx _ => idx =? match e with EFC0 => 0 | EFC1 => 1 end
  | MemLoad _ _ _ | MemStore32 _ _ => true
  end.

(** The page commands of a write: command [c] for [n] consecutive pages
    from page [first] on. *)
Definition page_commands (c first : Z) (n : nat) : list (Z * Z) :=
  map (fun i => (c, first + Z.of_nat i)) (seq 0 n).

(** The number of pages that [size] bytes from byte [offset] of a page
    reach into. *)
Definition pages_touched (offset size : Z) : nat :=
  if 0 <? size then Z.to_nat ((offset + size - 1) / IFLASH_PAGE_SIZE + 1) else 0%nat.

(** A load or a store in the address space, as opposed to a register
    access or a command. *)
Definition is_memory_access (ev : event) : bool :=
  match ev with
  | MemLoad _ _ _ | MemStore32 _ _ => true
  | _ => false
  end.

Section MoreNotions.

Context {hw : Type} {HW : Hardware hw}.

(** What it is for [op] to read GPNVM bit [k]: it runs the get-GPNVM-bits
    command on the controller that is selected, whose status is [st1].
    When that fails the result is [ERROR] and the result register is not
    read; otherwise the result register is read once and bit [k] of it
    decides between [BIT_IS_SET] and [BIT_IS_CLEARED].  No other command is
    issued and the selected controller stays. *)
Definition reads_gpnvm_bit (op : M hw Z) (k : Z) : Prop :=
  forall m : machine hw,
  exists st1 m1 t1,
    cmd EFC_FCMD_GGPB 0 m = Some (st1, m1, t1) /\
    let FRR := EFC_REG (efc m) EEFC_FRR in
    let frr := wrap32 (fst (reg_load FRR (dev m1))) in
    (if st1 =? SUCCESS then
       op m = Some (if Z.testbit frr k then BIT_IS_SET else BIT_IS_CLEARED,
                    with_dev m1 (snd (reg_load FRR (dev m1))),
                    t1 ++ [RegLoad FRR frr])
     else op m = Some (ERROR, m1, t1))
    /\ commands_issued (trace_of (op m)) = [(EFC_FCMD_GGPB, 0)]
    /\ option_map efc (final (op m)) = Some (efc m).

(** The seven descriptor getters, each with the value it takes from the
    cached descriptor. *)
Definition descriptor_getters : list ((Z -> M hw Z) * (list Z -> Z)) :=
  [ (getFlashId, fun d => cell d 0);
    (getFlashSize, fun d => cell d 1);
    (getPageSize, fun d => cell d 2);
    (getRegionCount, fun d => cell d 3);
    (getRegionSize, fun d => cell d 4);
    (getPageCount, fun d => cell d 1 / cell d 2);
    (getPageCountPerRegion, fun d => cell d 4 / cell d 2) ].

(** A computation that, started with controller [e] selected, keeps it
    selected and makes no access that concerns the other one (in a run
    that returns). *)
Definition stays_on (e : efc_id) {A} (c : M hw A) : Prop :=
  forall m a m' t,
    efc m = e -> c m = Some (a, m', t) ->
    efc m' = e /\ forallb (on_controller e) t = true.

(** A computation none of whose accesses concern a controller other
    than [e], whatever was selected before. *)
Definition addresses_only (e : efc_id) {A} (c : M hw A) : Prop :=
  forall m a m' t, c m = Some (a, m', t) -> forallb (on_controller e) t = true.

(** A computation that always returns, keeps the selected controller
    and only loads and stores in the address space. *)
Definition memory_only {A} (c : M hw A) : Prop :=
  forall m, exists a m' t,
    c m = Some (a, m', t) /\ efc m' = efc m /\ forallb is_memory_access t = true.

End MoreNotions.
(** Storing the words of a response into an array from index [i] on, up
    to the first zero word. *)
Fixpoint fill (i : nat) (words old : list Z) : list Z :=
  match words with
  | [] => old
  | w :: rest => if w =? 0 then old else fill (S i) rest (set_nth i w old)
  end.

Definition nonzero (w : Z) : bool := negb (w =? 0).

(** A device like the sample one whose response to the get-descriptor
    command ends after two words, and its object. *)
Definition short_device : Sim.t :=
  Sim.Dev (Sim.bank0 sample_device) (Sim.bank1 sample_device) sample_flash [] 0
          (Sim.uid sample_device) [0x000F0730; 0x40000] 0.

Definition short_object : machine Sim.t :=
  match new_FlashTools short_device with
  | Some m => m
  | None => raw_object short_device
  end.

(** Two addresses that lie in the same bank, in either order. *)
Definition same_bank (a b : Z) : Prop :=
  (IFLASH0_ADDR <= a < IFLASH1_ADDR /\ IFLASH0_ADDR <= b < IFLASH1_ADDR)
  \/ (IFLASH1_ADDR <= a < IFLASH1_ADDR + IFLASH1_SIZE
      /\ IFLASH1_ADDR <= b < IFLASH1_ADDR + IFLASH1_SIZE).

(** One command [c] for each of [n] lock regions from region [first] on,
    its argument the first page of the region. *)
Definition region_commands (c first : Z) (n : nat) : list (Z * Z) :=
  map (fun i => (c, IFLASH_LOCK_REGION_PAGES * (first + Z.of_nat i))) (seq 0 n).

(** A run that ends on a failed command: the status read that shows the
    error is followed by a second read of the status register, and the
    flags of that second read are the result. *)
Definition reports_second_status_read (st : Z) (t : list event) : Prop :=
  exists t0 e v1 v2,
    t = t0 ++ [RegLoad (EFC_REG e EEFC_FSR) v1; RegLoad (EFC_REG e EEFC_FSR) v2]
    /\ no_error_status t0 = true
    /\ Z.land v1 EEFC_ERROR_FLAGS <> 0
    /\ st = Z.land v2 EEFC_ERROR_FLAGS.

(** A device that refuses every command, and whose status register
    clears its error flag when it is read.  The state is whether the flag
    is pending. *)
#[global] Instance flag_clearing_device : Hardware bool := {
  reg_load := fun r pending =>
    match r with
    | EFC_REG _ EEFC_FSR =>
        (Z.lor EEFC_FSR_FRDY (if pending then EEFC_FSR_FCMDE else 0), false)
    | _ => (0, pending)
    end;
  reg_store := fun _ _ pending => pending;
  iap_rom := fun _ _ _ => true;
  mem_load := fun _ _ _ => 0;
  mem_store32 := fun _ _ pending => pending
}.

Definition refused_object : machine bool := raw_object false.

(** ** Properties *)

Section Properties.

Context {hw : Type} {HW : Hardware hw}.

Lemma bind_some {A B} (c : M hw A) (f : A -> M hw B) m a m1 t1 :
  c m = Some (a, m1, t1) ->
  bind c f m =
  match f a m1 with
  | None => None
  | Some (b, m2, t2) => Some (b, m2, t1 ++ t2)
  end.
Proof. intros H. unfold bind. now rewrite H. Qed.

(** Two words whose bits do not overlap: [Z.lor] of them is their sum. *)
Lemma lor_shiftl_add x y k :
  0 <= k -> 0 <= x < 2 ^ k -> Z.lor x (Z.shiftl y k) = x + 2 ^ k * y.
Proof.
  intros Hk Hx.
  assert (D : Z.land x (Z.shiftl y k) = 0).
  { apply Z.bits_inj'. intros n Hn.
    rewrite Z.land_spec, Z.bits_0.
    destruct (Z.ltb_spec n k).
    - rewrite (Z.shiftl_spec_low y k n) by lia. apply andb_false_r.
    - rewrite <- (Z.mod_small x (2 ^ k)) by lia.
      rewrite Z.mod_pow2_bits_high by lia. reflexivity. }
  rewrite <- Z.lxor_lor, <- Z.add_nocarry_lxor by exact D.
  rewrite Z.shiftl_mul_pow2 by lia. lia.
Qed.

Lemma land_small_mask x k mask :
  0 <= k -> 0 <= x < 2 ^ k -> Z.land (Z.ones k) mask = Z.ones k -> Z.land x mask = x.
Proof.
  intros Hk Hx Hm.
  rewrite <- (Z.mod_small x (2 ^ k)) at 1 by lia.
  rewrite <- Z.land_ones, <- Z.land_assoc, Hm, Z.land_ones, Z.mod_small by lia.
  reflexivity.
Qed.

(** The command word [cmd] builds, as a sum of its three fields. *)
Lemma FCR_word_sum c a :
  set_FARG a (set_FKEY FWP_KEY (set_FCMD c 0)) =
  c mod 2 ^ 8 + 2 ^ 8 * (a mod 2 ^ 16) + 2 ^ 24 * FWP_KEY.
Proof.
  unfold set_FARG, set_FKEY, set_FCMD, bitfield_set, FWP_KEY, wrap32.
  rewrite !Z.land_ones by lia.
  change (Z.land 0 _) with 0. rewrite Z.lor_0_l, Z.shiftl_0_r.
  assert (Hc : 0 <= c mod 2 ^ 8 < 2 ^ 8) by (apply Z.mod_pos_bound; lia).
  assert (Ha : 0 <= a mod 2 ^ 16 < 2 ^ 16) by (apply Z.mod_pos_bound; lia).
  set (c8 := c mod 2 ^ 8) in *. set (a16 := a mod 2 ^ 16) in *.
  rewrite (land_small_mask c8 8) by (try lia; reflexivity).
  rewrite Z.land_lor_distr_l.
  rewrite (land_small_mask c8 8) by (try lia; reflexivity).
  change (Z.land (Z.shiftl (90 mod 2 ^ 8) 24) _) with (Z.shiftl 90 24).
  rewrite <- Z.lor_assoc, (Z.lor_comm (Z.shiftl 90 24)), Z.lor_assoc.
  rewrite (lor_shiftl_add c8 a16 8) by lia.
  rewrite (lor_shiftl_add _ 90 24) by lia.
  reflexivity.
Qed.

(** The fields of a word that is the sum of an 8-bit command, a 16-bit
    argument and a key. *)
Lemma FCR_word_fields c8 a16 key :
  0 <= c8 < 2 ^ 8 -> 0 <= a16 < 2 ^ 16 -> 0 <= key < 2 ^ 8 ->
  let word := c8 + 2 ^ 8 * a16 + 2 ^ 24 * key in
  Z.land word 0xFF = c8 /\
  Z.land (Z.shiftr word 8) 0xFFFF = a16 /\
  Z.shiftr word 24 = key /\
  0 <= word < 2 ^ 32.
Proof.
  intros Hc Ha Hk word.
  change 0xFF with (Z.ones 8). change 0xFFFF with (Z.ones 16).
  rewrite !Z.land_ones, !Z.shiftr_div_pow2 by lia.
  assert (E8 : word / 2 ^ 8 = a16 + 2 ^ 16 * key).
  { unfold word. replace (c8 + 2 ^ 8 * a16 + 2 ^ 24 * key)
      with (c8 + (a16 + 2 ^ 16 * key) * 2 ^ 8) by lia.
    rewrite Z.div_add, Z.div_small by lia. lia. }
  assert (E24 : word / 2 ^ 24 = key).
  { unfold word. replace (c8 + 2 ^ 8 * a16 + 2 ^ 24 * key)
      with ((c8 + 2 ^ 8 * a16) + key * 2 ^ 24) by lia.
    rewrite Z.div_add, Z.div_small by lia. lia. }
  repeat split.
  - unfold word. replace (c8 + 2 ^ 8 * a16 + 2 ^ 24 * key)
      with (c8 + (a16 + 2 ^ 16 * key) * 2 ^ 8) by lia.
    rewrite Z.mod_add, Z.mod_small by lia. reflexivity.
  - rewrite E8. replace (a16 + 2 ^ 16 * key) with (a16 + key * 2 ^ 16) by lia.
    rewrite Z.mod_add, Z.mod_small by lia. reflexivity.
  - exact E24.
  - unfold word. lia.
  - unfold word. lia.
Qed.

(** The status mask keeps bits 1 and 2 and nothing else. *)
Lemma error_flags_bits x :
  Z.land x EEFC_ERROR_FLAGS =
  (if Z.testbit x 1 then 2 else 0) + (if Z.testbit x 2 then 4 else 0).
Proof.
  change EEFC_ERROR_FLAGS with 6.
  destruct (Z.testbit x 1) eqn:E1; destruct (Z.testbit x 2) eqn:E2; simpl;
    apply Z.bits_inj'; intros n Hn; rewrite Z.land_spec.
  all: assert (C : n = 0 \/ n = 1 \/ n = 2 \/ 3 <= n) by lia;
    destruct C as [-> | [-> | [-> | H3]]].
  all: try (rewrite E1; reflexivity).
  all: try (rewrite E2; reflexivity).
  all: try apply andb_false_r.
  all: rewrite (Z.bits_above_log2 6 n) by (simpl; lia);
    rewrite andb_false_r; symmetry.
  all: first [ reflexivity | apply Z.bits_0 | apply Z.bits_above_log2; simpl; lia ].
Qed.

(** What a run of [cmd] is: one call of the IAP routine, one status read. *)
Lemma cmd_run (m : machine hw) c a :
  let word := set_FARG a (set_FKEY FWP_KEY (set_FCMD c 0)) in
  let h := iap_rom (efc_index (efc m)) word (dev m) in
  let fsr := wrap32 (fst (reg_load (EFC_REG (efc m) EEFC_FSR) h)) in
  cmd c a m =
  Some (Z.land fsr EEFC_ERROR_FLAGS,
        with_dev m (snd (reg_load (EFC_REG (efc m) EEFC_FSR) h)),
        [IapCall (efc_index (efc m)) word; RegLoad (EFC_REG (efc m) EEFC_FSR) fsr]).
Proof. reflexivity. Qed.

(** *** The command protocol *)

(** C7.  For every 8-bit command code [c] and 16-bit argument [a], [cmd c a]
    calls the IAP routine once, for the selected controller, with a 32-bit
    word whose bits 0-7 are [c], bits 8-23 are [a] and bits 24-31 are the
    key 0x5A; it then reads the status register once and returns it masked
    to the command-error (bit 1) and lock-error (bit 2) flags: 0 when
    neither is set, non-zero when one or both are. *)
Theorem cmd_keyed_word_and_masked_status (m : machine hw) (c a : Z) :
  0 <= c < 2 ^ 8 ->
  0 <= a < 2 ^ 16 ->
  exists word fsr,
    cmd c a m =
    Some (Z.land fsr EEFC_ERROR_FLAGS,
          with_dev m (snd (reg_load (EFC_REG (efc m) EEFC_FSR)
                                    (iap_rom (efc_index (efc m)) word (dev m)))),
          [IapCall (efc_index (efc m)) word; RegLoad (EFC_REG (efc m) EEFC_FSR) fsr])
    /\ fsr = wrap32 (fst (reg_load (EFC_REG (efc m) EEFC_FSR)
                                   (iap_rom (efc_index (efc m)) word (dev m))))
    /\ 0 <= word < 2 ^ 32
    /\ Z.land word 0xFF = c
    /\ Z.land (Z.shiftr word 8) 0xFFFF = a
    /\ Z.shiftr word 24 = 0x5A
    /\ Z.land fsr EEFC_ERROR_FLAGS =
       (if Z.testbit fsr 1 then 2 else 0) + (if Z.testbit fsr 2 then 4 else 0)
    /\ (Z.land fsr EEFC_ERROR_FLAGS = 0 <->
        Z.testbit fsr 1 = false /\ Z.testbit fsr 2 = false).
Proof.
  intros Hc Ha.
  eexists. eexists.
  split; [apply cmd_run|].
  split; [reflexivity|].
  rewrite FCR_word_sum, (Z.mod_small c), (Z.mod_small a) by lia.
  destruct (FCR_word_fields c a FWP_KEY) as (F1 & F2 & F3 & F4);
    [lia | lia | unfold FWP_KEY; lia |].
  split; [exact F4|]. split; [exact F1|]. split; [exact F2|]. split; [exact F3|].
  set (fsr := wrap32 _).
  assert (E : Z.land fsr EEFC_ERROR_FLAGS =
              (if Z.testbit fsr 1 then 2 else 0) + (if Z.testbit fsr 2 then 4 else 0)).
  { apply error_flags_bits. }
  split; [exact E|].
  rewrite E. destruct (Z.testbit fsr 1), (Z.testbit fsr 2); split; intros H;
    try lia; try (destruct H; congruence); auto.
Qed.

(** *** GPNVM bits *)

Lemma land_bit x k :
  0 <= k -> negb (Z.land x (Z.shiftl 1 k) =? 0) = Z.testbit x k.
Proof.
  intros Hk. rewrite Z.shiftl_1_l.
  assert (E : Z.land x (2 ^ k) = if Z.testbit x k then 2 ^ k else 0).
  { apply Z.bits_inj'. intros n Hn.
    rewrite Z.land_spec, Z.pow2_bits_eqb by lia.
    destruct (Z.eqb_spec k n) as [-> | Hne].
    - destruct (Z.testbit x n); simpl.
      + rewrite Z.pow2_bits_eqb, Z.eqb_refl by lia. reflexivity.
      + now rewrite Z.bits_0.
    - rewrite andb_false_r. destruct (Z.testbit x k).
      + rewrite Z.pow2_bits_eqb by lia. symmetry. now apply Z.eqb_neq.
      + now rewrite Z.bits_0. }
  rewrite E. destruct (Z.testbit x k); [|reflexivity].
  assert (0 < 2 ^ k) by (apply Z.pow_pos_nonneg; lia).
  destruct (Z.eqb_spec (2 ^ k) 0); [lia | reflexivity].
Qed.

Lemma FRR_bit_run (m : machine hw) k :
  0 <= k ->
  let FRR := EFC_REG (efc m) EEFC_FRR in
  let frr := wrap32 (fst (reg_load FRR (dev m))) in
  FRR_bit k m = Some (Z.testbit frr k, with_dev m (snd (reg_load FRR (dev m))), [RegLoad FRR frr]).
Proof.
  intros Hk FRR frr. unfold FRR_bit, bind, get_efc, rd, ret. simpl.
  fold FRR. fold frr. rewrite land_bit by exact Hk. reflexivity.
Qed.

Ltac run_step Est Ebit :=
  first [ rewrite cmd_run
        | rewrite FRR_bit_run by lia
        | rewrite Est
        | rewrite Ebit
        | unfold bind at 1
        | unfold ret at 1 ];
  cbv beta iota zeta; cbn [negb].

Ltac gpnvm_case :=
  let Est := fresh "Est" in
  let Ebit := fresh "Ebit" in
  intros m; eexists; eexists; eexists;
  split; [apply cmd_run|];
  cbv zeta;
  match goal with
  | |- context [Z.land ?fsr EEFC_ERROR_FLAGS =? SUCCESS] =>
      destruct (Z.land fsr EEFC_ERROR_FLAGS =? SUCCESS) eqn:Est
  end;
  [ match goal with
    | |- context [Z.testbit ?frr ?k] => destruct (Z.testbit frr k) eqn:Ebit
    end; simpl Bool.eqb; cbv iota
  | pose proof I as Ebit ];
  try (eexists; eexists; eexists; split; [apply cmd_run|]);
  (split;
   [ unfold setSecurityBit, setBootModeSAMBA, setBootModeFlash, setBootFlash0, setBootFlash1;
     repeat run_step Est Ebit; reflexivity
   | reflexivity ]).

(** C9.  Each of the five operations that set or clear a GPNVM bit reads
    the bits first; when that read succeeds and the bit already has the
    desired value it returns [SUCCESS] and no set or clear command is
    issued; otherwise it issues exactly one programming command, with the
    index of the bit as its argument, and returns that command's status. *)
Theorem gpnvm_programmed_only_when_needed :
  programs_bit_once (hw := hw) setSecurityBit 0 true EFC_FCMD_SGPB
  /\ programs_bit_once (hw := hw) setBootModeSAMBA 1 false EFC_FCMD_CGPB
  /\ programs_bit_once (hw := hw) setBootModeFlash 1 true EFC_FCMD_SGPB
  /\ programs_bit_once (hw := hw) setBootFlash0 2 false EFC_FCMD_CGPB
  /\ programs_bit_once (hw := hw) setBootFlash1 2 true EFC_FCMD_SGPB.
Proof.
  repeat apply conj.
  - gpnvm_case.
  - gpnvm_case.
  - gpnvm_case.
  - gpnvm_case.
  - gpnvm_case.
Qed.

(** *** The unique identifier *)

Lemma bind_inv {A B} (c : M hw A) (f : A -> M hw B) m r :
  bind c f m = Some r ->
  exists a m1 t1 b m2 t2,
    c m = Some (a, m1, t1) /\ f a m1 = Some (b, m2, t2) /\ r = (b, m2, t1 ++ t2).
Proof.
  unfold bind. intros H.
  destruct (c m) as [[[a m1] t1]|]; [|discriminate].
  destruct (f a m1) as [[[b m2] t2]|] eqn:F; [|discriminate].
  inversion H; subst. exists a, m1, t1, b, m2, t2. auto.
Qed.

Lemma commands_issued_app t1 t2 :
  commands_issued (t1 ++ t2) = commands_issued t1 ++ commands_issued t2.
Proof.
  induction t1 as [|e t1 IH]; [reflexivity|].
  destruct e as [r v | r v | idx w | w a v | a v]; simpl; rewrite ?IH; try reflexivity.
  destruct r as [e [| | |] |]; simpl; rewrite ?IH; reflexivity.
Qed.

Tactic Notation "members" :=
  cbn [dev efc FWS0 FWS1 FAM0 FAM1 uniqueID flash_descriptor page_buffer
       with_dev with_efc with_uniqueID with_flash_descriptor with_page_buffer].
Tactic Notation "members" "in" hyp(H) :=
  cbn [dev efc FWS0 FWS1 FAM0 FAM1 uniqueID flash_descriptor page_buffer
       with_dev with_efc with_uniqueID with_flash_descriptor with_page_buffer] in H.

(** A busy-wait changes nothing but the device and issues no command. *)
Lemma wait_FRDY_dev_only fuel b (m : machine hw) u m' t :
  wait_FRDY fuel b m = Some (u, m', t) ->
  m' = with_dev m (dev m') /\ commands_issued t = [].
Proof.
  revert m m' t u. induction fuel as [|k IH]; intros m m' t u H; [discriminate|].
  cbn [wait_FRDY] in H. cbv [bind get_efc rd] in H. cbv beta iota zeta in H.
  match type of H with
  | context [if ?c then _ else _] => destruct c
  end.
  - destruct (wait_FRDY k b _) as [[[u1 m1] t1]|] eqn:W; [|discriminate].
    apply IH in W. destruct W as [W1 W2].
    inversion H; subst. split.
    + rewrite W1 at 1. reflexivity.
    + simpl. exact W2.
  - cbv [ret] in H. inversion H; subst. split; reflexivity.
Qed.

(** The copy loop of [getUniqueID] on arrays of four words. *)
Lemma copy_unique_id_run (m : machine hw) base a b c d b0 b1 b2 b3 rest :
  uniqueID m = [a; b; c; d] ->
  let w i := mem_load 4 (wrap32 (base + 4 * i)) (dev m) mod 2 ^ (8 * 4) in
  copy_unique_id (Z.to_nat UNIQUE_ID_SIZE) 0 base (b0 :: b1 :: b2 :: b3 :: rest) m =
  Some (w 0 :: w 1 :: w 2 :: w 3 :: rest,
        with_uniqueID m [w 0; w 1; w 2; w 3],
        [MemLoad 4 (wrap32 (base + 4 * 0)) (w 0); MemLoad 4 (wrap32 (base + 4 * 1)) (w 1);
         MemLoad 4 (wrap32 (base + 4 * 2)) (w 2); MemLoad 4 (wrap32 (base + 4 * 3)) (w 3)]).
Proof.
  intros U w.
  change (Z.to_nat UNIQUE_ID_SIZE) with 4%nat.
  cbn [copy_unique_id]. cbv [bind load get_uniqueID set_uniqueID ret].
  cbv beta iota zeta. cbn [uniqueID with_uniqueID dev]. rewrite U.
  reflexivity.
Qed.

Lemma four_cells (l : list Z) :
  (4 <= length l)%nat -> exists b0 b1 b2 b3 rest, l = b0 :: b1 :: b2 :: b3 :: rest.
Proof.
  destruct l as [|b0 [|b1 [|b2 [|b3 rest]]]]; simpl; intros H; try lia.
  do 5 eexists. reflexivity.
Qed.

Lemma exactly_four_cells (l : list Z) :
  length l = 4%nat -> exists a b c d, l = [a; b; c; d].
Proof.
  destruct l as [|b0 [|b1 [|b2 [|b3 [|x rest]]]]]; simpl; intros H; try lia.
  do 4 eexists. reflexivity.
Qed.

(** A call that finds the identifier in the cache. *)
Lemma getUniqueID_hit fuel (m : machine hw) buf :
  length (uniqueID m) = 4%nat ->
  (4 <= length buf)%nat ->
  cell (uniqueID m) 0 <> 0 ->
  getUniqueID fuel (Some buf) m = Some ((SUCCESS, Some (uniqueID m ++ skipn 4 buf)), m, []).
Proof.
  intros Hu Hb Hc.
  destruct (exactly_four_cells _ Hu) as (a & b & c & d & U).
  destruct (four_cells _ Hb) as (b0 & b1 & b2 & b3 & rest & B).
  unfold getUniqueID. cbv [bind get_uniqueID]. cbv beta iota zeta.
  destruct (Z.eqb_spec (cell (uniqueID m) 0) 0) as [E|_]; [contradiction|].
  cbn [negb]. cbv [ret]. rewrite U, B. reflexivity.
Qed.

(** A call that has to ask the device, if it returns. *)
Lemma getUniqueID_miss fuel (m : machine hw) buf r out m1 t1 :
  length (uniqueID m) = 4%nat ->
  (4 <= length buf)%nat ->
  cell (uniqueID m) 0 = 0 ->
  getUniqueID fuel (Some buf) m = Some ((r, out), m1, t1) ->
  r = SUCCESS /\
  length (uniqueID m1) = 4%nat /\
  out = Some (uniqueID m1 ++ skipn 4 buf) /\
  commands_issued t1 = [(EFC_FCMD_STUI, 0); (EFC_FCMD_SPUI, 0)].
Proof.
  intros Hu Hb Hc H.
  destruct (exactly_four_cells _ Hu) as (a & b & c & d & U).
  destruct (four_cells _ Hb) as (b0 & b1 & b2 & b3 & rest & B).
  subst buf.
  unfold getUniqueID in H.
  cbv [bind get_uniqueID getfws setfws get_efc rd wr ret] in H.
  cbv beta iota zeta in H.
  rewrite Hc in H. cbn [Z.eqb negb] in H. cbv beta iota zeta in H.
  members in H.
  destruct (wait_FRDY fuel true _) as [[[u2 m2] t2]|] eqn:W1; [|discriminate].
  apply wait_FRDY_dev_only in W1. destruct W1 as [E2 C2].
  members in E2.
  assert (U2 : uniqueID m2 = [a; b; c; d]) by (rewrite E2; exact U).
  match type of H with
  | context [copy_unique_id ?n ?i ?base ?bb ?mm] =>
      rewrite (copy_unique_id_run mm base a b c d b0 b1 b2 b3 rest U2) in H
  end.
  cbv beta iota zeta in H. members in H.
  destruct (wait_FRDY fuel false _) as [[[u3 m3] t3]|] eqn:W2; [|discriminate].
  apply wait_FRDY_dev_only in W2. destruct W2 as [E3 C3].
  members in E3. members in H.
  injection H as Hr Ho Hm Ht. subst r out m1 t1.
  rewrite E3. members.
  repeat apply conj; try reflexivity.
  repeat (cbn [commands_issued]; rewrite ?commands_issued_app).
  rewrite C2, C3. reflexivity.
Qed.

(** C8.  Take a call of [getUniqueID] that finds the cache empty and
    returns, leaving a non-zero first word in the cache.  That call issued
    the start and the stop command, once each, and handed out the four
    words it cached.  Every later call with a non-null buffer returns
    [SUCCESS] with the same four words, makes no access to the device at
    all (its trace is empty: no command, no register read) and leaves the
    object and the device as they were, so the same holds for the call
    after it. *)
Theorem getUniqueID_cached_after_first_call
        (fuel1 fuel2 : nat) (m : machine hw) (buf1 buf2 : list Z)
        (r1 : Z) (out1 : option (list Z)) (m1 : machine hw) (t1 : list event) :
  length (uniqueID m) = 4%nat ->
  (4 <= length buf1)%nat ->
  (4 <= length buf2)%nat ->
  cell (uniqueID m) 0 = 0 ->
  getUniqueID fuel1 (Some buf1) m = Some ((r1, out1), m1, t1) ->
  cell (uniqueID m1) 0 <> 0 ->
  r1 = SUCCESS
  /\ out1 = Some (uniqueID m1 ++ skipn 4 buf1)
  /\ commands_issued t1 = [(EFC_FCMD_STUI, 0); (EFC_FCMD_SPUI, 0)]
  /\ length (uniqueID m1) = 4%nat
  /\ getUniqueID fuel2 (Some buf2) m1 =
     Some ((SUCCESS, Some (uniqueID m1 ++ skipn 4 buf2)), m1, []).
Proof.
  intros Hu Hb1 Hb2 Hc H Hnz.
  destruct (getUniqueID_miss _ _ _ _ _ _ _ Hu Hb1 Hc H) as (R & L & O & C).
  repeat apply conj; try assumption.
  apply getUniqueID_hit; assumption.
Qed.

(** *** [read] *)

(** C10.  [read<Type>(addr)] takes its sentinel branch, with no access to
    memory, exactly when [addr < 0x00080000] or [addr > 0x00100000], and
    loads from [addr] for every address in between.  The upper end of the
    window is the last page address plus one page, which is the ROM base:
    the address one past the last flash byte is read, not rejected. *)
Theorem read_window_reaches_rom_base (m : machine hw) (sizeof_Type addr : Z) :
  ((addr < 0x00080000 \/ 0x00100000 < addr) <->
   read sizeof_Type addr m = Some (INVALID mod 2 ^ (8 * sizeof_Type), m, []))
  /\ (0x00080000 <= addr <= 0x00100000 <->
      read sizeof_Type addr m =
      Some (mem_load sizeof_Type addr (dev m) mod 2 ^ (8 * sizeof_Type), m,
            [MemLoad sizeof_Type addr
                     (mem_load sizeof_Type addr (dev m) mod 2 ^ (8 * sizeof_Type))]))
  /\ IFLASH_LAST_PAGE_ADDRESS + IFLASH_PAGE_SIZE = 0x00100000
  /\ (IFLASH1_ADDR + IFLASH1_SIZE - 1) + 1 = IROM_ADDR
  /\ IROM_ADDR = 0x00100000.
Proof.
  unfold read, load.
  change (IFLASH_LAST_PAGE_ADDRESS + IFLASH_PAGE_SIZE) with 1048576.
  change IFLASH0_ADDR with 524288.
  destruct (Z.ltb_spec 1048576 addr); destruct (Z.ltb_spec addr 524288); simpl;
    (split; [|split; [|repeat split]]); split; intros H1;
    try reflexivity; try lia; try discriminate.
Qed.

(** *** Lock bits *)

Lemma frr_words_length e n (h : hw) : length (fst (frr_words e n h)) = n.
Proof.
  revert h. induction n as [|n IH]; intros h; simpl; [reflexivity|].
  now rewrite IH.
Qed.

Lemma frr_words_app e n1 n2 (h : hw) :
  frr_words e (n1 + n2) h =
  (fst (frr_words e n1 h) ++ fst (frr_words e n2 (snd (frr_words e n1 h))),
   snd (frr_words e n2 (snd (frr_words e n1 h)))).
Proof.
  revert h. induction n1 as [|n1 IH]; intros h; simpl.
  - now destruct (frr_words e n2 h).
  - rewrite IH. reflexivity.
Qed.

Lemma last_cons (v : Z) vs d : last (v :: vs) d = last vs v.
Proof.
  revert v d. induction vs as [|w vs IH]; intros v d; [reflexivity|].
  change (last (v :: w :: vs) d) with (last (w :: vs) d).
  rewrite (IH w d), (IH w v). reflexivity.
Qed.

Lemma skip_groups_run sr :
  0 <= sr < 2 ^ 16 ->
  forall k fuel j stat (m : machine hw),
    0 <= j -> j + Z.of_nat k = sr / 32 -> (k <= fuel)%nat ->
    skip_groups fuel sr (32 * j) stat m =
    Some ((32 * (sr / 32), last (fst (frr_words (efc m) k (dev m))) stat),
          with_dev m (snd (frr_words (efc m) k (dev m))),
          map (RegLoad (EFC_REG (efc m) EEFC_FRR)) (fst (frr_words (efc m) k (dev m)))).
Proof.
  intros Hsr.
  assert (Hq : 32 * (sr / 32) <= sr < 32 * (sr / 32) + 32).
  { pose proof (Z.mul_div_le sr 32). pose proof (Z.mod_pos_bound sr 32).
    pose proof (Z.div_mod sr 32). lia. }
  induction k as [|k IH]; intros fuel j stat m Hj Hk Hf.
  - assert (j = sr / 32) by lia. subst j.
    assert (C : (32 * (sr / 32) <=? sr) && (sr <? wrap32 (32 * (sr / 32) + READ_SIZE)) = true).
    { unfold wrap32, READ_SIZE. rewrite Z.mod_small by lia.
      apply andb_true_intro. split; [apply Z.leb_le | apply Z.ltb_lt]; lia. }
    destruct fuel; cbn [skip_groups]; rewrite C; cbv [ret]; cbn [frr_words fst snd map last];
      destruct m; reflexivity.
  - destruct fuel as [|fuel]; [lia|].
    assert (C : (32 * j <=? sr) && (sr <? wrap32 (32 * j + READ_SIZE)) = false).
    { unfold wrap32, READ_SIZE. rewrite Z.mod_small by lia.
      apply andb_false_intro2. apply Z.ltb_ge. lia. }
    cbn [skip_groups]. rewrite C.
    cbv [bind get_efc rd]. cbv beta iota zeta.
    replace (wrap32 (32 * j + READ_SIZE)) with (32 * (j + 1))
      by (unfold wrap32, READ_SIZE; rewrite Z.mod_small by lia; lia).
    rewrite IH by lia. members.
    cbn [frr_words fst snd map]. rewrite last_cons. reflexivity.
Qed.

Lemma bit_mask_test stat bit :
  0 <= bit < 32 ->
  negb (Z.land stat (wrap32 (Z.shiftl 1 bit)) =? 0) = Z.testbit stat bit.
Proof.
  intros Hb.
  assert (E : wrap32 (Z.shiftl 1 bit) = Z.shiftl 1 bit).
  { unfold wrap32. rewrite Z.shiftl_1_l. apply Z.mod_small.
    split; [apply Z.pow_nonneg; lia | apply Z.pow_lt_mono_r; lia]. }
  rewrite E. apply land_bit. lia.
Qed.

Lemma locked_among_S groups first n :
  locked_among groups first (S n) =
  (if lock_bit groups first then 1 else 0) + locked_among groups (first + 1) n.
Proof.
  unfold locked_among.
  rewrite <- cons_seq, <- seq_shift, map_cons, map_map. cbn [filter].
  rewrite Z.add_0_r.
  rewrite (map_ext (fun x => first + Z.of_nat (S x)) (fun i => first + 1 + Z.of_nat i))
    by (intros; lia).
  destruct (lock_bit groups first); cbn [length]; lia.
Qed.

Lemma lock_bit_low g gs x : 0 <= x < 32 -> lock_bit (g :: gs) x = Z.testbit g x.
Proof.
  intros Hx. unfold lock_bit. rewrite Z.div_small, Z.mod_small by lia. reflexivity.
Qed.

Lemma lock_bit_shift g gs x : 0 <= x -> lock_bit (g :: gs) (32 + x) = lock_bit gs x.
Proof.
  intros Hx. unfold lock_bit.
  replace (32 + x) with (x + 1 * 32) by lia.
  rewrite Z.div_add, Z.mod_add by lia.
  assert (0 <= x / 32) by (apply Z.div_pos; lia).
  replace (Z.to_nat (x / 32 + 1)) with (S (Z.to_nat (x / 32))) by lia.
  reflexivity.
Qed.

Lemma locked_among_shift g gs n :
  forall x, 0 <= x -> locked_among (g :: gs) (32 + x) n = locked_among gs x n.
Proof.
  induction n as [|n IH]; intros x Hx; [reflexivity|].
  rewrite !locked_among_S, lock_bit_shift by lia.
  replace (32 + x + 1) with (32 + (x + 1)) by lia.
  rewrite IH by lia. reflexivity.
Qed.

Lemma count_locked_run :
  forall idx bit stat locked (m : machine hw),
    0 <= bit < 32 -> 0 <= locked -> locked + Z.of_nat idx < 2 ^ 32 ->
    let k := Z.to_nat ((bit + Z.of_nat idx) / 32) in
    let w := frr_words (efc m) k (dev m) in
    count_locked idx bit stat locked m =
    Some (locked + locked_among (stat :: fst w) bit idx,
          with_dev m (snd w),
          map (RegLoad (EFC_REG (efc m) EEFC_FRR)) (fst w)).
Proof.
  induction idx as [|n IH]; intros bit stat locked m Hb Hl Hn.
  - rewrite Nat2Z.inj_0, Z.add_0_r, Z.div_small by lia.
    cbn. cbv [ret]. destruct m. cbn. rewrite Z.add_0_r. reflexivity.
  - cbn [count_locked]. rewrite bit_mask_test by lia.
    set (locked' := if Z.testbit stat bit then wrap32 (locked + 1) else locked).
    assert (L' : locked' = locked + (if Z.testbit stat bit then 1 else 0)).
    { unfold locked', wrap32. destruct (Z.testbit stat bit); [|lia].
      apply Z.mod_small. lia. }
    assert (B' : 0 <= locked' /\ locked' + Z.of_nat n < 2 ^ 32)
      by (rewrite L'; destruct (Z.testbit stat bit); lia).
    clearbody locked'.
    assert (W : wrap32 (bit + 1) = bit + 1) by (apply Z.mod_small; lia).
    rewrite W. unfold READ_SIZE.
    rewrite locked_among_S, lock_bit_low by lia.
    destruct (Z.eqb_spec (bit + 1) 32) as [E|E].
    + assert (bit = 31) by lia. subst bit.
      cbv [bind get_efc rd]. cbv beta iota zeta.
      rewrite IH by lia. members.
      replace (31 + Z.of_nat (S n)) with (Z.of_nat n + 1 * 32) by lia.
      rewrite Z.div_add by lia.
      assert (0 <= Z.of_nat n / 32) by (apply Z.div_pos; lia).
      replace (Z.to_nat (Z.of_nat n / 32 + 1)) with (S (Z.to_nat (Z.of_nat n / 32))) by lia.
      cbn [frr_words fst snd map]. rewrite Z.add_0_l.
      change (31 + 1) with (32 + 0). rewrite locked_among_shift by lia.
      rewrite L', Z.add_assoc. reflexivity.
    + rewrite IH by lia.
      replace (bit + 1 + Z.of_nat n) with (bit + Z.of_nat (S n)) by lia.
      rewrite L', Z.add_assoc. reflexivity.
Qed.

Lemma locked_among_skip pre g l2 x n :
  0 <= x ->
  locked_among (pre ++ g :: l2) (32 * Z.of_nat (length pre) + x) n =
  locked_among (g :: l2) x n.
Proof.
  intros Hx. induction pre as [|a pre IH].
  - cbn [length app]. f_equal; lia.
  - cbn [length app].
    replace (32 * Z.of_nat (S (length pre)) + x)
      with (32 + (32 * Z.of_nat (length pre) + x)) by lia.
    rewrite locked_among_shift by lia. exact IH.
Qed.

Lemma region_bounds p : 0 <= region_of (wrap16 p) < 1024.
Proof.
  unfold region_of, wrap16.
  change (IFLASH_LOCK_REGION_SIZE / IFLASH_PAGE_SIZE) with 64.
  pose proof (Z.mod_pos_bound p (2 ^ 16) ltac:(lia)) as Hp.
  assert (0 <= p mod 2 ^ 16 / 64 < 1024).
  { split; [apply Z.div_pos; lia | apply Z.div_lt_upper_bound; lia]. }
  rewrite Z.mod_small by lia. lia.
Qed.

(** In a range that lies in one bank the regions are in order. *)
Lemma one_bank_regions_ordered start_addr end_addr :
  within_one_bank start_addr end_addr ->
  start_region_of start_addr <= end_region_of start_addr end_addr.
Proof.
  unfold within_one_bank, start_region_of, end_region_of, base_of, region_of, page_of,
    wrap16, wrap32.
  change (IFLASH_LOCK_REGION_SIZE / IFLASH_PAGE_SIZE) with 64.
  change IFLASH_PAGE_SIZE with 256.
  change (IFLASH1_ADDR + IFLASH1_SIZE) with 1048576.
  change IFLASH1_ADDR with 786432. change IFLASH0_ADDR with 524288.
  intros H.
  assert (G : forall b a, b <= a < b + 262144 ->
              ((a - b) mod 2 ^ 32 / 256) mod 2 ^ 16 / 64 mod 2 ^ 16 = (a - b) / 256 / 64).
  { intros b a Hb.
    assert (0 <= (a - b) / 256 < 1024)
      by (split; [apply Z.div_pos; lia | apply Z.div_lt_upper_bound; lia]).
    assert (0 <= (a - b) / 256 / 64 < 16)
      by (split; [apply Z.div_pos; lia | apply Z.div_lt_upper_bound; lia]).
    rewrite (Z.mod_small (a - b)) by lia.
    rewrite (Z.mod_small ((a - b) / 256)) by lia.
    apply Z.mod_small. lia. }
  destruct (Z.leb_spec 786432 start_addr).
  - rewrite !G by lia. apply Z.div_le_mono; [lia|]. apply Z.div_le_mono; lia.
  - rewrite !G by lia. apply Z.div_le_mono; [lia|]. apply Z.div_le_mono; lia.
Qed.

(** C2.  Take a call of [islocked] whose range lies in one bank (or, more
    generally, whose start region is not after its end region) and whose
    get-lock-bits command succeeds.  The call returns exactly the number of
    set lock bits among the regions [start_region] to [end_region], both
    included, where the lock bit of region [r] is bit [r mod 32] of the
    [r / 32]-th word the result register hands out after the command.  It
    reads the result register [(end_region + 1) / 32 + 1] times in a row
    and does nothing else after the command: at least once, and at least
    once for every group up to the one that holds [end_region]. *)
Theorem islocked_counts_set_lock_bits
        (m : machine hw) (start_addr end_addr : Z) (m1 : machine hw) (t1 : list event) :
  let e := bank_efc start_addr in
  let start_region := start_region_of start_addr in
  let end_region := end_region_of start_addr end_addr in
  let reads := Z.to_nat ((end_region + 1) / 32 + 1) in
  let stream := frr_words e reads (dev m1) in
  within_one_bank start_addr end_addr \/ start_region <= end_region ->
  cmd EFC_FCMD_GLB 0 (with_efc m e) = Some (SUCCESS, m1, t1) ->
  islocked start_addr end_addr m =
  Some (locked_among (fst stream) start_region (Z.to_nat (end_region - start_region + 1)),
        with_dev m1 (snd stream),
        t1 ++ map (RegLoad (EFC_REG e EEFC_FRR)) (fst stream))
  /\ length (fst stream) = reads
  /\ (1 <= reads)%nat
  /\ end_region / 32 + 1 <= Z.of_nat reads.
Proof.
  intros e sr er reads stream Hrange Hcmd.
  assert (Hord : sr <= er).
  { destruct Hrange as [Hb|Ho]; [apply one_bank_regions_ordered; exact Hb | exact Ho]. }
  assert (Hsr : 0 <= sr < 1024) by apply region_bounds.
  assert (Her : 0 <= er < 1024) by apply region_bounds.
  assert (Hq : 0 <= sr / 32 < 32)
    by (split; [apply Z.div_pos; lia | apply Z.div_lt_upper_bound; lia]).
  assert (Hq2 : 0 <= (er + 1) / 32) by (apply Z.div_pos; lia).
  assert (Hm1 : efc m1 = e).
  { rewrite cmd_run in Hcmd. injection Hcmd as _ <- _. reflexivity. }
  split; [|split; [apply frr_words_length|split]].
  2: { unfold reads. lia. }
  2: { unfold reads. rewrite Z2Nat.id by lia.
       assert (er / 32 <= (er + 1) / 32) by (apply Z.div_le_mono; lia). lia. }
  unfold islocked. fold (base_of start_addr).
  fold (start_region_of start_addr). fold (end_region_of start_addr end_addr).
  fold sr. fold er. fold e.
  cbv [bind set_efc]. cbv beta iota zeta.
  rewrite Hcmd. cbv beta iota zeta.
  change (negb (SUCCESS =? SUCCESS)) with false. cbv beta iota zeta.
  cbv [get_efc rd]. cbv beta iota zeta. rewrite Hm1.
  set (h0 := dev m1) in *.
  set (stat0 := wrap32 (fst (reg_load (EFC_REG e EEFC_FRR) h0))).
  set (m2 := with_dev m1 (snd (reg_load (EFC_REG e EEFC_FRR) h0))).
  assert (Hm2 : efc m2 = e) by exact Hm1.
  pose (q := Z.to_nat (sr / 32)).
  pose proof (skip_groups_run sr ltac:(lia) q 2048%nat 0 stat0 m2
                              ltac:(lia) ltac:(unfold q; lia) ltac:(unfold q; lia)) as S.
  change (32 * 0) with 0 in S. rewrite S. clear S. cbv beta iota zeta.
  rewrite Hm2.
  set (skipped := frr_words e q (dev m2)).
  assert (Widx : wrap32 (er - sr + 1) = er - sr + 1) by (apply Z.mod_small; lia).
  assert (Wbit : wrap32 (sr - 32 * (sr / 32)) = sr mod 32).
  { rewrite Z.mod_eq by lia. apply Z.mod_small.
    pose proof (Z.mod_pos_bound sr 32 ltac:(lia)). rewrite Z.mod_eq in H by lia. lia. }
  rewrite Widx, Wbit.
  pose proof (Z.mod_pos_bound sr 32 ltac:(lia)) as Hbit.
  rewrite count_locked_run by (members; lia).
  cbv zeta. members. rewrite ?Hm1.
  rewrite Z2Nat.id by lia.
  set (k2 := Z.to_nat ((sr mod 32 + (er - sr + 1)) / 32)).
  assert (Hreads : reads = (S q + k2)%nat).
  { unfold reads, k2, q.
    replace (sr mod 32 + (er - sr + 1)) with (er + 1 + - (sr / 32) * 32)
      by (rewrite Z.mod_eq by lia; lia).
    rewrite Z.div_add by lia.
    assert (sr / 32 <= (er + 1) / 32) by (apply Z.div_le_mono; lia).
    lia. }
  unfold stream. rewrite Hreads, frr_words_app.
  cbn [frr_words fst snd]. fold stat0.
  change (snd (reg_load (EFC_REG e EEFC_FRR) h0)) with (dev m2). fold skipped.
  rewrite Hm2. set (l2 := fst (frr_words e k2 (snd skipped))).
  assert (Hlen : length (fst skipped) = q) by apply frr_words_length.
  assert (Hsplit : stat0 :: fst skipped =
                   removelast (stat0 :: fst skipped) ++ [last (fst skipped) stat0]).
  { rewrite <- (last_cons stat0 (fst skipped) 0).
    apply app_removelast_last. discriminate. }
  set (pre := removelast (stat0 :: fst skipped)) in *.
  assert (Hpre : length pre = q).
  { apply (f_equal (@length Z)) in Hsplit.
    rewrite length_app in Hsplit. cbn [length] in Hsplit. lia. }
  assert (Hcount :
            locked_among ((stat0 :: fst skipped) ++ l2) sr (Z.to_nat (er - sr + 1)) =
            locked_among (last (fst skipped) stat0 :: l2) (sr mod 32)
                         (Z.to_nat (er - sr + 1))).
  { rewrite Hsplit, <- app_assoc. cbn [app].
    rewrite <- (locked_among_skip pre) by lia.
    f_equal. rewrite Hpre. unfold q. rewrite Z2Nat.id by lia.
    rewrite Z.mod_eq by lia. lia. }
  rewrite Hcount, map_app. cbn [app map]. rewrite Z.add_0_l. reflexivity.
Qed.

(** *** The page write engine *)

Lemma set_nth_cons n v x (l : list Z) : set_nth (S n) v (x :: l) = x :: set_nth n v l.
Proof. reflexivity. Qed.

Lemma poke_cons bytes : forall dest x buf,
  poke (S dest) bytes (x :: buf) = x :: poke dest bytes buf.
Proof.
  induction bytes as [|v rest IH]; intros dest x buf; [reflexivity|].
  cbn [poke]. rewrite set_nth_cons. apply IH.
Qed.

Lemma poke_0 bytes : forall buf,
  (length bytes <= length buf)%nat ->
  poke 0 bytes buf = bytes ++ skipn (length bytes) buf.
Proof.
  induction bytes as [|v rest IH]; intros buf H; [reflexivity|].
  destruct buf as [|x buf]; [cbn in H; lia|].
  cbn [poke set_nth length skipn app]. rewrite poke_cons. f_equal.
  apply IH. cbn in H. lia.
Qed.

Lemma poke_app pre bytes old :
  poke (length pre) bytes (pre ++ old) = pre ++ poke 0 bytes old.
Proof.
  induction pre as [|x pre IH]; [reflexivity|].
  cbn [length app]. rewrite poke_cons, IH. reflexivity.
Qed.

(** The three copies of [flashcpy] fill the buffer with the three parts. *)
Lemma poke_three (p1 p2 p3 buf : list Z) :
  (length p1 + length p2 + length p3 = length buf)%nat ->
  poke (length p1 + length p2) p3 (poke (length p1) p2 (poke 0 p1 buf)) = p1 ++ p2 ++ p3.
Proof.
  intros H.
  rewrite poke_0 by lia.
  rewrite poke_app, poke_0 by (rewrite length_skipn; lia).
  rewrite app_assoc, <- length_app, poke_app, poke_0
    by (rewrite !length_skipn; lia).
  rewrite (skipn_all2 (n := length p3)) by (rewrite !length_skipn; lia).
  rewrite app_nil_r, <- app_assoc. reflexivity.
Qed.

Lemma read_data_firstn data n :
  0 <= n <= Z.of_nat (length data) ->
  read_data data n = firstn (Z.to_nat n) data.
Proof.
  intros H. unfold read_data.
  assert (L : (Z.to_nat n <= length data)%nat) by lia.
  revert L. generalize (Z.to_nat n). clear H n.
  intros n. revert data. induction n as [|n IH]; intros data L; [reflexivity|].
  destruct data as [|x data]; [cbn in L; lia|].
  rewrite <- cons_seq, <- seq_shift, map_cons, map_map. cbn [nth firstn].
  f_equal. apply IH. cbn in L. lia.
Qed.

Lemma flash_bytes_S (h : hw) a n :
  flash_bytes h a (S n) = mem_load 1 a h mod 2 ^ 8 :: flash_bytes h (a + 1) n.
Proof.
  unfold flash_bytes.
  rewrite <- cons_seq, <- seq_shift, map_cons, map_map, Z.add_0_r.
  f_equal. apply map_ext. intros i. do 2 f_equal. lia.
Qed.

Lemma load_events_S (h : hw) a n :
  load_events h a (S n) =
  MemLoad 1 a (mem_load 1 a h mod 2 ^ 8) :: load_events h (a + 1) n.
Proof.
  unfold load_events.
  rewrite <- cons_seq, <- seq_shift, map_cons, map_map, Z.add_0_r.
  f_equal. apply map_ext. intros i.
  replace (a + Z.of_nat (S i)) with (a + 1 + Z.of_nat i) by lia. reflexivity.
Qed.

Lemma load_bytes_run n : forall a (m : machine hw),
  0 <= a -> a + Z.of_nat n < 2 ^ 32 ->
  load_bytes n a m = Some (flash_bytes (dev m) a n, m, load_events (dev m) a n).
Proof.
  induction n as [|n IH]; intros a m Ha Hn; [reflexivity|].
  cbn [load_bytes]. cbv [bind load]. cbv beta iota zeta.
  assert (W : wrap32 (a + 1) = a + 1) by (apply Z.mod_small; lia).
  rewrite W, IH by lia. cbv [ret].
  rewrite flash_bytes_S, load_events_S, app_nil_r. reflexivity.
Qed.

Lemma flash_bytes_length (h : hw) a n : length (flash_bytes h a n) = n.
Proof. unfold flash_bytes. now rewrite length_map, length_seq. Qed.

Lemma flash_bytes_app (h : hw) a n1 n2 :
  flash_bytes h a (n1 + n2) = flash_bytes h a n1 ++ flash_bytes h (a + Z.of_nat n1) n2.
Proof.
  revert a. induction n1 as [|n1 IH]; intros a.
  - replace (a + Z.of_nat 0) with a by lia. reflexivity.
  - cbn [Nat.add]. rewrite !flash_bytes_S, IH. cbn [app].
    replace (a + 1 + Z.of_nat n1) with (a + Z.of_nat (S n1)) by lia. reflexivity.
Qed.

(** The prefix and the suffix of the page content are what the loads of
    [flashcpy] read. *)
Lemma merged_page_parts (h : hw) pa offset ws pad payload :
  0 <= offset -> 0 <= pad -> length payload = Z.to_nat ws -> 0 <= ws ->
  offset + ws + pad = IFLASH_PAGE_SIZE ->
  merged_page (flash_bytes h pa (Z.to_nat IFLASH_PAGE_SIZE)) offset payload =
  flash_bytes h pa (Z.to_nat offset) ++ payload
  ++ flash_bytes h (pa + offset + ws) (Z.to_nat pad).
Proof.
  intros Ho Hp Hl Hw Hs. unfold merged_page.
  replace (Z.to_nat IFLASH_PAGE_SIZE) with (Z.to_nat offset + (Z.to_nat ws + Z.to_nat pad))%nat
    by lia.
  rewrite !flash_bytes_app.
  rewrite firstn_app, firstn_all2 by (rewrite flash_bytes_length; lia).
  rewrite flash_bytes_length, Nat.sub_diag. cbn [firstn]. rewrite app_nil_r.
  rewrite skipn_app, skipn_all2 by (rewrite flash_bytes_length; lia).
  rewrite flash_bytes_length, Hl.
  replace (Z.to_nat offset + Z.to_nat ws - Z.to_nat offset)%nat with (Z.to_nat ws) by lia.
  rewrite skipn_app, skipn_all2 by (rewrite flash_bytes_length; lia).
  rewrite flash_bytes_length, Nat.sub_diag. cbn [skipn app].
  do 3 f_equal. lia.
Qed.

Lemma store_words_from n : forall t0 pa (m : machine hw),
  0 <= pa -> pa + 4 * Z.of_nat (t0 + n) < 2 ^ 32 ->
  store_words n (Z.of_nat t0) (pa + 4 * Z.of_nat t0) m =
  Some (tt,
        with_dev m
          (fold_left (fun h t => mem_store32 (pa + 4 * Z.of_nat t)
                                             (buffer_word (page_buffer m) (Z.of_nat t)) h)
                     (seq t0 n) (dev m)),
        map (fun t => MemStore32 (pa + 4 * Z.of_nat t)
                                 (buffer_word (page_buffer m) (Z.of_nat t)))
            (seq t0 n)).
Proof.
  induction n as [|n IH]; intros t0 pa m Hpa Hn.
  - cbn. cbv [ret]. destruct m; reflexivity.
  - cbn [store_words]. cbv [bind get_page_buffer store32]. cbv beta iota zeta.
    replace (wrap32 (pa + 4 * Z.of_nat t0 + 4)) with (pa + 4 * Z.of_nat (S t0))
      by (unfold wrap32; rewrite Z.mod_small by lia; lia).
    replace (Z.of_nat t0 + 1) with (Z.of_nat (S t0)) by lia.
    rewrite IH by lia. members. reflexivity.
Qed.

Lemma store_words_run pa (m : machine hw) :
  0 <= pa -> pa + IFLASH_PAGE_SIZE < 2 ^ 32 ->
  store_words (Z.to_nat IFLASH_WORDS_PER_PAGE) 0 pa m =
  Some (tt, with_dev m (stored pa (page_buffer m) (dev m)), store_events pa (page_buffer m)).
Proof.
  intros Hpa Hn.
  pose proof (store_words_from (Z.to_nat IFLASH_WORDS_PER_PAGE) 0 pa m Hpa) as S.
  change (Z.of_nat 0) with 0 in S. rewrite Z.mul_0_r, Z.add_0_r in S.
  apply S. change IFLASH_PAGE_SIZE with 256 in Hn.
  change (Z.of_nat (0 + Z.to_nat IFLASH_WORDS_PER_PAGE)) with 64. lia.
Qed.

(** [flashcpy], as [write] calls it, is one page of the described
    algorithm. *)
Lemma flashcpy_run (m : machine hw) pa data offset ws pad :
  0 < pa -> pa + IFLASH_PAGE_SIZE < 2 ^ 32 ->
  0 <= offset -> 0 <= ws -> 0 <= pad ->
  offset + ws + pad = IFLASH_PAGE_SIZE ->
  ws <= Z.of_nat (length data) ->
  length (page_buffer m) = Z.to_nat IFLASH_PAGE_SIZE ->
  flashcpy pa (Some data) offset ws pad m =
  match commit_page pa offset (firstn (Z.to_nat ws) data) m with
  | Some (_, m', t) => Some (pa, m', t)
  | None => None
  end.
Proof.
  intros Hpa Hpa2 Ho Hw Hp Hsum Hd Hbuf.
  change IFLASH_PAGE_SIZE with 256 in *.
  assert (Lp : length (firstn (Z.to_nat ws) data) = Z.to_nat ws)
    by (rewrite length_firstn; lia).
  unfold flashcpy.
  destruct (Z.eqb_spec pa 0) as [E|_]; [lia|].
  cbn [flashcpy_parts]. change (0 =? 1) with false. change (1 =? 1) with true.
  change (2 =? 1) with false. cbv beta iota.
  cbv [bind]. rewrite load_bytes_run by lia.
  cbv [get_page_buffer set_page_buffer ret]. cbv beta iota zeta. members.
  assert (W1 : wrap32 (pa + offset) = pa + offset) by (apply Z.mod_small; lia).
  assert (W2 : wrap32 (pa + offset + ws) = pa + offset + ws) by (apply Z.mod_small; lia).
  rewrite W1, W2.
  rewrite load_bytes_run by (members; lia). members.
  rewrite read_data_firstn by lia.
  set (p1 := flash_bytes (dev m) pa (Z.to_nat offset)).
  set (p2 := firstn (Z.to_nat ws) data) in *.
  set (p3 := flash_bytes (dev m) (pa + offset + ws) (Z.to_nat pad)).
  assert (L1 : length p1 = Z.to_nat offset) by apply flash_bytes_length.
  assert (L3 : length p3 = Z.to_nat pad) by apply flash_bytes_length.
  change (Z.to_nat 0) with 0%nat.
  replace (Z.to_nat (0 + offset)) with (length p1) by lia.
  replace (Z.to_nat (0 + offset + ws)) with (length p1 + length p2)%nat by lia.
  rewrite poke_three by lia.
  rewrite store_words_run by (change IFLASH_PAGE_SIZE with 256; lia). members.
  unfold commit_page. cbv zeta.
  rewrite (merged_page_parts (dev m) pa offset ws pad p2 Ho Hp Lp Hw Hsum).
  fold p1 p3. rewrite Lp, Z2Nat.id by lia.
  change IFLASH_PAGE_SIZE with 256.
  replace (256 - offset - ws) with pad by lia.
  cbn [app]. rewrite !app_nil_r, <- app_assoc. reflexivity.
Qed.

Lemma commit_page_members pa offset payload (m : machine hw) :
  exists h image t,
    commit_page pa offset payload m = Some (tt, with_page_buffer (with_dev m h) image, t)
    /\ image = merged_page (flash_bytes (dev m) pa (Z.to_nat IFLASH_PAGE_SIZE)) offset payload.
Proof. do 3 eexists. split; reflexivity. Qed.

Lemma merged_page_length current offset payload :
  length current = Z.to_nat IFLASH_PAGE_SIZE ->
  0 <= offset -> offset + Z.of_nat (length payload) <= IFLASH_PAGE_SIZE ->
  length (merged_page current offset payload) = Z.to_nat IFLASH_PAGE_SIZE.
Proof.
  intros Hc Ho Hs. unfold merged_page.
  rewrite !length_app, length_firstn, length_skipn. lia.
Qed.

(** The loop of [write] is the described loop when every page but the
    last takes a whole number of objects: the size of an object divides
    the page size and the offset the loop starts at. *)
Lemma write_pages_commit_pages sizeof_Type base erase lock :
  0 < sizeof_Type ->
  IFLASH_PAGE_SIZE mod sizeof_Type = 0 ->
  base = IFLASH0_ADDR \/ base = IFLASH1_ADDR ->
  forall fuel page_num offset data data_size (m : machine hw),
    0 <= page_num -> 0 <= offset < IFLASH_PAGE_SIZE -> 0 <= data_size ->
    offset mod sizeof_Type = 0 ->
    page_num * IFLASH_PAGE_SIZE + offset + data_size <= 2 ^ 24 - IFLASH_PAGE_SIZE ->
    data_size <= Z.of_nat (length data) ->
    length (page_buffer m) = Z.to_nat IFLASH_PAGE_SIZE ->
    write_pages fuel sizeof_Type base page_num offset (Some data) data_size erase lock m =
    commit_pages fuel base page_num offset data data_size erase lock m.
Proof.
  intros Hsz Hdiv Hbase.
  assert (Hb : 0 < base /\ base <= IFLASH1_ADDR)
    by (destruct Hbase; subst base; unfold IFLASH0_ADDR, IFLASH1_ADDR; lia).
  change IFLASH1_ADDR with 786432 in Hb. change IFLASH_PAGE_SIZE with 256.
  change IFLASH_PAGE_SIZE with 256 in Hdiv.
  induction fuel as [|fuel IH];
    intros page_num offset data data_size m Hpn Ho Hs Hom Hinv Hd Hbuf.
  - reflexivity.
  - cbn [write_pages commit_pages]. change IFLASH_PAGE_SIZE with 256.
    destruct (Z.ltb_spec 0 data_size) as [Hpos|]; [|reflexivity].
    assert (W1 : wrap32 (256 - offset) = 256 - offset) by (apply Z.mod_small; lia).
    rewrite W1.
    set (ws := Z.min (256 - offset) data_size).
    assert (Ews : (if 256 - offset <? data_size then 256 - offset else data_size) = ws).
    { unfold ws. destruct (Z.ltb_spec (256 - offset) data_size); lia. }
    rewrite Ews.
    assert (Hws : 0 < ws <= 256 - offset /\ ws <= data_size) by (unfold ws; lia).
    assert (W2 : wrap16 (wrap32 (256 - offset - ws)) = 256 - offset - ws).
    { unfold wrap16, wrap32.
      rewrite (Z.mod_small (256 - offset - ws)) by lia. apply Z.mod_small. lia. }
    assert (W3 : wrap32 (base + page_num * 256) = base + page_num * 256)
      by (apply Z.mod_small; lia).
    rewrite W2, W3.
    destruct (commit_page_members (base + page_num * 256) offset
                                  (firstn (Z.to_nat ws) data) m) as (h & image & t & Ec & Ei).
    assert (Ef : flashcpy (base + page_num * 256) (Some data) offset ws (256 - offset - ws) m =
                 Some (base + page_num * 256, with_page_buffer (with_dev m h) image, t)).
    { rewrite flashcpy_run by (change IFLASH_PAGE_SIZE with 256; lia).
      rewrite Ec. reflexivity. }
    assert (Limg : length image = Z.to_nat 256).
    { subst image. apply merged_page_length.
      - apply flash_bytes_length.
      - lia.
      - rewrite length_firstn. change IFLASH_PAGE_SIZE with 256. lia. }
    rewrite (bind_some _ _ _ _ _ _ Ef), (bind_some _ _ _ _ _ _ Ec).
    rewrite !(bind_some _ _ _ _ _ _ (cmd_run _ _ _)).
    match goal with
    | |- context [negb (?x =? SUCCESS)] => destruct (negb (x =? SUCCESS)); [reflexivity|]
    end.
    assert (W4 : wrap16 (page_num + 1) = page_num + 1) by (apply Z.mod_small; lia).
    assert (W5 : wrap32 (data_size - ws) = data_size - ws) by (apply Z.mod_small; lia).
    rewrite W4, W5. unfold advance, option_map.
    destruct (Z.eq_dec ws data_size) as [Elast|Emore].
    + (* the last page: nothing is left for the page after it *)
      rewrite Elast, Z.sub_diag. destruct fuel; reflexivity.
    + (* a page filled to its end: a whole number of objects *)
      assert (Efull : ws = 256 - offset) by (unfold ws in *; lia).
      assert (Eobj : ws / sizeof_Type * sizeof_Type = ws).
      { assert (M : ws mod sizeof_Type = 0).
        { rewrite Efull, Zminus_mod, Hdiv, Hom. reflexivity. }
        pose proof (Z.div_mod ws sizeof_Type ltac:(lia)). lia. }
      rewrite Eobj.
      rewrite IH; [reflexivity | lia | lia | lia | apply Z.mod_0_l; lia | lia | | exact Limg].
      rewrite length_skipn. lia.
Qed.

(** The described loop ends within [data_size] iterations. *)
Lemma commit_pages_returns base erase lock :
  forall fuel page_num offset data data_size (m : machine hw),
    0 <= offset < IFLASH_PAGE_SIZE ->
    data_size <= Z.of_nat fuel ->
    exists r, commit_pages fuel base page_num offset data data_size erase lock m
              = Some r.
Proof.
  change IFLASH_PAGE_SIZE with 256.
  induction fuel as [|fuel IH]; intros page_num offset data data_size m Ho Hf.
  - cbn [commit_pages]. destruct (Z.ltb_spec 0 data_size); [lia|]. eexists. reflexivity.
  - cbn [commit_pages]. change IFLASH_PAGE_SIZE with 256.
    destruct (Z.ltb_spec 0 data_size) as [Hpos|]; [|eexists; reflexivity].
    set (ws := Z.min (256 - offset) data_size).
    assert (Hws : 0 < ws) by (unfold ws; lia).
    destruct (commit_page_members (base + page_num * 256) offset
                                  (firstn (Z.to_nat ws) data) m) as (h & image & t & Ec & _).
    rewrite (bind_some _ _ _ _ _ _ Ec).
    rewrite (bind_some _ _ _ _ _ _ (cmd_run _ _ _)).
    match goal with
    | |- context [negb (?x =? SUCCESS)] => destruct (negb (x =? SUCCESS))
    end.
    + eexists. reflexivity.
    + match goal with
      | |- context [commit_pages fuel ?b ?c ?d ?e ?f ?g ?h ?mm] =>
          destruct (IH c d e f mm) as [[[r m'] t'] Er]; [lia | lia |]; rewrite Er
      end.
      eexists. reflexivity.
Qed.

(** In a merged page the bytes of the window are the payload and every
    other byte is what the page held. *)
Lemma merged_page_nth current offset payload i :
  length current = Z.to_nat IFLASH_PAGE_SIZE ->
  0 <= offset -> offset + Z.of_nat (length payload) <= IFLASH_PAGE_SIZE ->
  nth i (merged_page current offset payload) 0 =
  if (Z.to_nat offset <=? i)%nat && (i <? Z.to_nat offset + length payload)%nat
  then nth (i - Z.to_nat offset) payload 0
  else nth i current 0.
Proof.
  intros Hc Ho Hs. unfold merged_page. change IFLASH_PAGE_SIZE with 256 in *.
  assert (L1 : length (firstn (Z.to_nat offset) current) = Z.to_nat offset)
    by (rewrite length_firstn; lia).
  destruct (Nat.leb_spec (Z.to_nat offset) i) as [H1|H1]; cbn [andb].
  - rewrite app_nth2 by lia. rewrite L1.
    destruct (Nat.ltb_spec i (Z.to_nat offset + length payload)) as [H2|H2].
    + rewrite app_nth1 by lia. reflexivity.
    + rewrite app_nth2 by lia. rewrite nth_skipn. f_equal. lia.
  - rewrite app_nth1 by lia. rewrite nth_firstn.
    destruct (Nat.ltb_spec i (Z.to_nat offset)); [reflexivity | lia].
Qed.

Lemma bind_ext_run {A B} (c : M hw A) (f g : A -> M hw B) m :
  (forall a m1 t1, c m = Some (a, m1, t1) -> f a m1 = g a m1) ->
  bind c f m = bind c g m.
Proof.
  intros H. unfold bind.
  destruct (c m) as [[[a m1] t1]|]; [|reflexivity].
  rewrite (H a m1 t1 eq_refl). reflexivity.
Qed.

Lemma kb_ret {A} (a : A) : keeps_page_buffer (hw := hw) (ret a).
Proof. intros m b m' t H. injection H as _ <- _. reflexivity. Qed.

Lemma kb_bind {A B} (c : M hw A) (f : A -> M hw B) :
  keeps_page_buffer c -> (forall a, keeps_page_buffer (f a)) -> keeps_page_buffer (bind c f).
Proof.
  intros Hc Hf m b m' t H.
  apply bind_inv in H. destruct H as (a & m1 & t1 & b' & m2 & t2 & H1 & H2 & E).
  injection E as -> -> ->.
  rewrite (Hf _ _ _ _ _ H2). exact (Hc _ _ _ _ H1).
Qed.

Lemma kb_rd r : keeps_page_buffer (hw := hw) (rd r).
Proof. intros m b m' t H. injection H as _ <- _. reflexivity. Qed.

Lemma kb_wr r v : keeps_page_buffer (hw := hw) (wr r v).
Proof. intros m b m' t H. injection H as _ <- _. reflexivity. Qed.

Lemma kb_call_IAP idx w : keeps_page_buffer (hw := hw) (call_IAP idx w).
Proof. intros m b m' t H. injection H as _ <- _. reflexivity. Qed.

Lemma kb_get_efc : keeps_page_buffer (hw := hw) get_efc.
Proof. intros m b m' t H. injection H as _ <- _. reflexivity. Qed.

Lemma kb_set_efc e : keeps_page_buffer (hw := hw) (set_efc e).
Proof. intros m b m' t H. injection H as _ <- _. reflexivity. Qed.

Lemma kb_hang {A} : keeps_page_buffer (hw := hw) (@hang hw A).
Proof. intros m b m' t H. discriminate. Qed.

Create HintDb kb discriminated.
#[local] Hint Resolve kb_ret kb_rd kb_wr kb_call_IAP kb_get_efc kb_set_efc kb_hang : kb.

Ltac kb_auto :=
  repeat first
    [ progress eauto with kb
    | apply kb_bind; [| intros ? ]
    | match goal with
      | |- keeps_page_buffer (if ?c then _ else _) => destruct c
      | |- keeps_page_buffer (let '(_, _) := ?p in _) => destruct p
      end ].

Lemma kb_cmd c a : keeps_page_buffer (hw := hw) (cmd c a).
Proof. unfold cmd. kb_auto. Qed.

Lemma kb_getfws : keeps_page_buffer (hw := hw) getfws.
Proof. unfold getfws. kb_auto. Qed.

Lemma kb_setfws v : keeps_page_buffer (hw := hw) (setfws v).
Proof. unfold setfws. kb_auto. Qed.

#[local] Hint Resolve kb_cmd kb_getfws kb_setfws : kb.

Lemma kb_skip_groups fuel : forall sr involved stat,
  keeps_page_buffer (hw := hw) (skip_groups fuel sr involved stat).
Proof.
  induction fuel as [|fuel IH]; intros sr involved stat; cbn [skip_groups]; kb_auto.
Qed.

Lemma kb_count_locked idx : forall bit stat locked,
  keeps_page_buffer (hw := hw) (count_locked idx bit stat locked).
Proof.
  induction idx as [|idx IH]; intros bit stat locked; cbn [count_locked]; kb_auto.
Qed.

Lemma kb_region_loop fuel : forall c sp ep pr,
  keeps_page_buffer (hw := hw) (region_loop fuel c sp ep pr).
Proof.
  induction fuel as [|fuel IH]; intros c sp ep pr; cbn [region_loop]; kb_auto.
Qed.

#[local] Hint Resolve kb_skip_groups kb_count_locked kb_region_loop : kb.

Lemma kb_islocked a b : keeps_page_buffer (hw := hw) (islocked a b).
Proof. unfold islocked. kb_auto. Qed.

Lemma kb_unlock a b : keeps_page_buffer (hw := hw) (unlock a b).
Proof. unfold unlock, region_pages. kb_auto. Qed.

#[local] Hint Resolve kb_islocked kb_unlock : kb.

Lemma kb_locked_and_stuck a n : keeps_page_buffer (hw := hw) (locked_and_stuck a n).
Proof. unfold locked_and_stuck. kb_auto. Qed.

(** Where [write] is the described algorithm.  For a word-aligned address
    in the flash range, a buffer that holds [data_size > 0] bytes of
    objects whose size divides the page size, an address that is a
    multiple of that size, and a range that stays below page number 65535
    of its bank (every range inside the 512 KiB of flash does), [write] is
    its lock check and wait-state prologue followed by the described page
    loop: each iteration takes
    [write_size = min (page_size - offset) remaining] and
    [padding_size = page_size - offset - write_size], fills the 256-byte
    page buffer with, in this order, [offset] bytes loaded from the start
    of the page, the next [write_size] bytes of the caller's data and
    [padding_size] bytes loaded from the flash after the window, stores the
    whole buffer to the page word by word and issues the page command, and
    then goes on with the next page at offset 0.  The loop always comes to
    an end.  In every page buffer so built the bytes outside
    [offset, offset + write_size) are the bytes the page held before, and
    the bytes inside are the payload.  Objects of 1, 2 or 4 bytes meet the
    two conditions at every word-aligned address. *)
Lemma write_is_described_write
      (m : machine hw) (sizeof_Type addr : Z) (data : list Z) (data_size : Z)
      (erase lock : bool)
      (current payload : list Z) (window_offset : Z) (i : nat) :
  IFLASH_ADDR <= addr < IFLASH_LAST_PAGE_ADDRESS + IFLASH_PAGE_SIZE ->
  Z.land addr 3 = 0 ->
  0 < data_size ->
  addr - base_of addr + data_size <= 2 ^ 24 - IFLASH_PAGE_SIZE ->
  data_size <= Z.of_nat (length data) ->
  0 < sizeof_Type ->
  IFLASH_PAGE_SIZE mod sizeof_Type = 0 ->
  addr mod sizeof_Type = 0 ->
  length (page_buffer m) = Z.to_nat IFLASH_PAGE_SIZE ->
  length current = Z.to_nat IFLASH_PAGE_SIZE ->
  0 <= window_offset ->
  window_offset + Z.of_nat (length payload) <= IFLASH_PAGE_SIZE ->
  let page_num := (addr - base_of addr) / IFLASH_PAGE_SIZE in
  let offset := (addr - base_of addr) mod IFLASH_PAGE_SIZE in
  write sizeof_Type addr (Some data) data_size erase lock m =
  described_write addr data data_size erase lock m
  /\ (forall m' : machine hw,
        exists r, commit_pages (Z.to_nat data_size) (base_of addr)
                               page_num offset data data_size erase lock m' = Some r)
  /\ nth i (merged_page current window_offset payload) 0 =
     (if (Z.to_nat window_offset <=? i)%nat
         && (i <? Z.to_nat window_offset + length payload)%nat
      then nth (i - Z.to_nat window_offset) payload 0
      else nth i current 0).
Proof.
  intros Haddr Halign Hpos Hrange Hdata Hsz Hdiv Hobj Hbuf Hcur Hwo Hwin page_num offset.
  assert (Hbase : base_of addr = IFLASH0_ADDR \/ base_of addr = IFLASH1_ADDR)
    by (unfold base_of; destruct (IFLASH1_ADDR <=? addr); auto).
  assert (Hom : offset mod sizeof_Type = 0).
  { change IFLASH_PAGE_SIZE with 256 in Hdiv. unfold offset.
    change IFLASH_PAGE_SIZE with 256.
    assert (Bq : exists q, base_of addr = 256 * q).
    { destruct Hbase as [-> | ->]; [exists 2048 | exists 3072]; reflexivity. }
    destruct Bq as [q Bq].
    pose proof (Z.div_mod 256 sizeof_Type ltac:(lia)) as D256. rewrite Hdiv in D256.
    pose proof (Z.div_mod addr sizeof_Type ltac:(lia)) as Da. rewrite Hobj in Da.
    pose proof (Z.div_mod (addr - base_of addr) 256 ltac:(lia)) as Dr.
    set (k := 256 / sizeof_Type) in *. set (a := addr / sizeof_Type) in *.
    set (p := (addr - base_of addr) / 256) in *.
    set (r := (addr - base_of addr) mod 256) in *.
    clearbody k a p r.
    assert (Ek : sizeof_Type * k = 256) by lia.
    assert (E1 : 256 * q = sizeof_Type * k * q) by (rewrite Ek; reflexivity).
    assert (E2 : 256 * p = sizeof_Type * k * p) by (rewrite Ek; reflexivity).
    assert (Er : r = (a - k * q - k * p) * sizeof_Type) by lia.
    rewrite Er. apply Z.mod_mul. lia. }
  assert (Hrel : 0 <= addr - base_of addr).
  { unfold base_of. destruct (Z.leb_spec IFLASH1_ADDR addr);
      unfold IFLASH_ADDR, IFLASH0_ADDR, IFLASH1_ADDR in *; lia. }
  change IFLASH_PAGE_SIZE with 256 in *.
  assert (Hoff : 0 <= offset < 256) by (apply Z.mod_pos_bound; lia).
  assert (Hpn : 0 <= page_num) by (apply Z.div_pos; lia).
  assert (Hdm : addr - base_of addr = 256 * page_num + offset)
    by (apply Z.div_mod; lia).
  assert (Hpn2 : page_num < 2 ^ 16) by (clearbody page_num offset; lia).
  split; [|split].
  - unfold write, described_write. change IFLASH_PAGE_SIZE with 256.
    destruct (Z.leb_spec (IFLASH_LAST_PAGE_ADDRESS + 256) addr) as [H1|_]; [lia|].
    destruct (Z.ltb_spec addr IFLASH_ADDR) as [H1|_]; [lia|].
    rewrite Halign. cbn [orb negb Z.eqb]. cbv iota zeta.
    fold (base_of addr). fold page_num. fold offset.
    clearbody page_num offset.
    replace (wrap16 page_num) with page_num by (symmetry; apply Z.mod_small; lia).
    replace (wrap16 offset) with offset by (symmetry; apply Z.mod_small; lia).
    apply bind_ext_run. intros stuck m1 t1 E1.
    destruct stuck; [reflexivity|].
    apply bind_ext_run. intros u2 m2 t2 E2.
    apply bind_ext_run. intros fws m3 t3 E3.
    apply bind_ext_run. intros u4 m4 t4 E4.
    assert (Hbuf4 : length (page_buffer m4) = Z.to_nat IFLASH_PAGE_SIZE).
    { rewrite (kb_setfws _ _ _ _ _ E4), (kb_getfws _ _ _ _ E3), (kb_set_efc _ _ _ _ _ E2),
        (kb_locked_and_stuck _ _ _ _ _ _ E1).
      exact Hbuf. }
    unfold bind.
    rewrite (write_pages_commit_pages sizeof_Type (base_of addr) erase lock Hsz Hdiv Hbase
               (Z.to_nat data_size) page_num offset data data_size m4 Hpn Hoff
               ltac:(lia) Hom ltac:(change IFLASH_PAGE_SIZE with 256; lia) Hdata Hbuf4).
    reflexivity.
  - clearbody page_num offset.
    intros m'. apply commit_pages_returns; [change IFLASH_PAGE_SIZE with 256|]; lia.
  - apply merged_page_nth; assumption.
Qed.

(** With a null data pointer and a valid address, on every device: a call
    of [write] that returns has issued the get-lock-bits command. *)
Lemma write_null_data_issues_get_lock_bits
      (m : machine hw) sizeof_Type addr data_size erase lock r m' t :
  IFLASH_ADDR <= addr < IFLASH_LAST_PAGE_ADDRESS + IFLASH_PAGE_SIZE ->
  Z.land addr 3 = 0 ->
  write sizeof_Type addr None data_size erase lock m = Some (r, m', t) ->
  exists rest, commands_issued t = (EFC_FCMD_GLB, 0) :: rest.
Proof.
  intros Haddr Halign H. unfold write in H.
  destruct (Z.leb_spec (IFLASH_LAST_PAGE_ADDRESS + IFLASH_PAGE_SIZE) addr) as [H1|_]; [lia|].
  destruct (Z.ltb_spec addr IFLASH_ADDR) as [H1|_]; [lia|].
  rewrite Halign in H. cbn [orb negb Z.eqb] in H. cbv iota in H.
  apply bind_inv in H. destruct H as (stuck & m1 & t1 & b & m2 & t2 & L & _ & E).
  injection E as _ _ ->.
  unfold locked_and_stuck in L.
  apply bind_inv in L. destruct L as (n & m3 & t3 & b3 & m4 & t4 & I & _ & E).
  injection E as _ _ ->.
  unfold islocked in I.
  apply bind_inv in I. destruct I as (u & m5 & t5 & b5 & m6 & t6 & S & C & E).
  injection E as _ _ ->. injection S as _ _ <-.
  apply bind_inv in C. destruct C as (st & m7 & t7 & b7 & m8 & t8 & C & _ & E).
  injection E as _ _ ->.
  rewrite cmd_run in C. injection C as _ _ <-.
  rewrite !commands_issued_app. cbn [commands_issued app].
  eexists. reflexivity.
Qed.

(** *** The descriptor cache *)

(** Above the last page address, and away from the tag, the seven getters
    return the sentinel and touch neither the cache nor the device. *)
Lemma descriptor_getters_reject_above_last_page (m : machine hw) addr :
  IFLASH_LAST_PAGE_ADDRESS < addr ->
  cell (flash_descriptor m) FLASH_DESCRIPTOR_SIZE <> addr ->
  Forall (fun getter : Z -> M hw Z => getter addr m = Some (INVALID, m, []))
         [getFlashId; getFlashSize; getPageSize; getRegionCount; getRegionSize;
          getPageCount; getPageCountPerRegion].
Proof.
  intros Hhi Htag.
  assert (E : descriptor_for addr m = Some (false, m, [])).
  { unfold descriptor_for, getFlashDescriptor, bind, get_flash_descriptor.
    destruct (Z.eqb_spec (cell (flash_descriptor m) FLASH_DESCRIPTOR_SIZE) addr);
      [contradiction|].
    destruct (Z.ltb_spec IFLASH_LAST_PAGE_ADDRESS addr); [reflexivity | lia]. }
  repeat constructor;
    unfold getFlashId, getFlashSize, getPageSize, getRegionCount, getRegionSize,
      getPageCount, getPageCountPerRegion;
    rewrite (bind_some _ _ _ _ _ _ E); reflexivity.
Qed.

Lemma set_nth_length n v (l : list Z) : length (set_nth n v l) = length l.
Proof.
  revert n. induction l as [|x l IH]; intros n; [destruct n; reflexivity|].
  destruct n; cbn; [reflexivity | now rewrite IH].
Qed.

Lemma set_nth_same n v (l : list Z) : (n < length l)%nat -> nth n (set_nth n v l) 0 = v.
Proof.
  revert n. induction l as [|x l IH]; intros n H; [cbn in H; lia|].
  destruct n; cbn; [reflexivity|]. apply IH. cbn in H. lia.
Qed.

Lemma read_descriptor_length n : forall i (m : machine hw) u m' t,
  read_descriptor n i m = Some (u, m', t) ->
  length (flash_descriptor m') = length (flash_descriptor m).
Proof.
  induction n as [|n IH]; intros i m u m' t H.
  - injection H as _ <- _. reflexivity.
  - cbn [read_descriptor] in H.
    cbv [bind get_efc rd get_flash_descriptor set_flash_descriptor] in H.
    cbv beta iota zeta in H.
    match type of H with context [if ?c then _ else _] => destruct c end.
    + injection H as _ <- _. reflexivity.
    + destruct (read_descriptor n (i + 1) _) as [[[u1 m1] t1]|] eqn:R; [|discriminate].
      apply IH in R. injection H as _ <- _. rewrite R. members.
      unfold set_cell. apply set_nth_length.
Qed.

(** After a fetch that succeeded, cell 4 of the descriptor is the address:
    that is what [getRegionSize] returns, on every device. *)
Lemma getRegionSize_is_the_tag (m m' : machine hw) addr t :
  length (flash_descriptor m) = Z.to_nat (FLASH_DESCRIPTOR_SIZE + 1) ->
  getFlashDescriptor addr m = Some (true, m', t) ->
  getRegionSize addr m' = Some (addr, m', [])
  /\ getPageCountPerRegion addr m' = Some (addr / cell (flash_descriptor m') 2, m', []).
Proof.
  intros Hlen H.
  assert (Htag : cell (flash_descriptor m') FLASH_DESCRIPTOR_SIZE = addr).
  { unfold getFlashDescriptor in H.
    destruct (IFLASH_LAST_PAGE_ADDRESS <? addr); [discriminate|].
    cbv [bind set_efc] in H. cbv beta iota zeta in H.
    rewrite cmd_run in H. cbv beta iota zeta in H.
    match type of H with context [if ?c then _ else _] => destruct c end;
      [discriminate|].
    destruct (read_descriptor _ 0 _) as [[[u1 m1] t1]|] eqn:R; [|discriminate].
    apply read_descriptor_length in R. members in R.
    cbv [get_flash_descriptor set_flash_descriptor ret] in H. cbv beta iota zeta in H.
    injection H as <- _. members.
    unfold cell, set_cell. apply set_nth_same. rewrite R, Hlen. cbn. lia. }
  unfold getRegionSize, getPageCountPerRegion, descriptor_for, bind, get_flash_descriptor.
  rewrite Htag, Z.eqb_refl. cbv [ret]. cbv beta iota zeta.
  change (cell (flash_descriptor m') 4) with (cell (flash_descriptor m') FLASH_DESCRIPTOR_SIZE).
  rewrite Htag. split; reflexivity.
Qed.

End Properties.

(** ** Runs on the simulated device *)

Lemma cmd_keyed_word_and_masked_status_witness :
  (0 <= EFC_FCMD_SLB < 2 ^ 8) /\ (0 <= 64 < 2 ^ 16) /\
  exists word fsr,
    cmd EFC_FCMD_SLB 64 sample_object =
    Some (Z.land fsr EEFC_ERROR_FLAGS,
          with_dev sample_object
                   (snd (reg_load (EFC_REG (efc sample_object) EEFC_FSR)
                                  (iap_rom (efc_index (efc sample_object)) word
                                           (dev sample_object)))),
          [IapCall (efc_index (efc sample_object)) word;
           RegLoad (EFC_REG (efc sample_object) EEFC_FSR) fsr])
    /\ fsr = wrap32 (fst (reg_load (EFC_REG (efc sample_object) EEFC_FSR)
                                   (iap_rom (efc_index (efc sample_object)) word
                                            (dev sample_object))))
    /\ 0 <= word < 2 ^ 32
    /\ Z.land word 0xFF = EFC_FCMD_SLB
    /\ Z.land (Z.shiftr word 8) 0xFFFF = 64
    /\ Z.shiftr word 24 = 0x5A
    /\ Z.land fsr EEFC_ERROR_FLAGS =
       (if Z.testbit fsr 1 then 2 else 0) + (if Z.testbit fsr 2 then 4 else 0)
    /\ (Z.land fsr EEFC_ERROR_FLAGS = 0 <->
        Z.testbit fsr 1 = false /\ Z.testbit fsr 2 = false).
Proof.
  split; [unfold EFC_FCMD_SLB; lia|].
  split; [lia|].
  apply (cmd_keyed_word_and_masked_status sample_object EFC_FCMD_SLB 64);
    unfold EFC_FCMD_SLB; lia.
Defined.

Lemma getUniqueID_cached_after_first_call_witness :
  exists out1 m1 t1,
    length (uniqueID sample_object) = 4%nat
    /\ cell (uniqueID sample_object) 0 = 0
    /\ getUniqueID 8 (Some [0; 0; 0; 0]) sample_object = Some ((SUCCESS, out1), m1, t1)
    /\ cell (uniqueID m1) 0 <> 0
    /\ out1 = Some (uniqueID m1 ++ skipn 4 [0; 0; 0; 0])
    /\ commands_issued t1 = [(EFC_FCMD_STUI, 0); (EFC_FCMD_SPUI, 0)]
    /\ getUniqueID 3 (Some [7; 7; 7; 7]) m1 =
       Some ((SUCCESS, Some (uniqueID m1 ++ skipn 4 [7; 7; 7; 7])), m1, []).
Proof.
  destruct (getUniqueID 8 (Some [0; 0; 0; 0]) sample_object)
    as [[[[r1 out1] m1] t1]|] eqn:E; [|vm_compute in E; discriminate].
  assert (Hnz : cell (uniqueID m1) 0 <> 0).
  { vm_compute in E. injection E as _ _ <- _. vm_compute. discriminate. }
  destruct (getUniqueID_cached_after_first_call
              8 3 sample_object [0; 0; 0; 0] [7; 7; 7; 7] r1 out1 m1 t1)
    as (R & O & C & L & S);
    [reflexivity | simpl; lia | simpl; lia | reflexivity | exact E | exact Hnz |].
  exists out1, m1, t1. subst r1.
  repeat apply conj; try assumption; reflexivity.
Defined.

Ltac by_computation :=
  vm_compute; repeat split; try reflexivity; try (intros Hc; discriminate Hc).

Lemma islocked_counts_set_lock_bits_witness :
  start_region_of 0x138000 = 30
  /\ end_region_of 0x138000 0x148000 = 34
  /\ returned (cmd EFC_FCMD_GLB 0 (with_efc straddle_object EFC1)) = Some SUCCESS
  /\ returned (islocked 0x138000 0x148000 straddle_object) = Some 3
  /\ trace_of (islocked 0x138000 0x148000 straddle_object) =
     [IapCall 1 0x5A00000A; RegLoad (EFC_REG EFC1 EEFC_FSR) 1;
      RegLoad (EFC_REG EFC1 EEFC_FRR) 0xC0000000; RegLoad (EFC_REG EFC1 EEFC_FRR) 2].
Proof.
  split; [reflexivity|]. split; [reflexivity|]. split; [reflexivity|].
  pose (m0 := with_efc straddle_object (bank_efc 0x138000)).
  pose (word := set_FARG 0 (set_FKEY FWP_KEY (set_FCMD EFC_FCMD_GLB 0))).
  pose (h := iap_rom (efc_index (efc m0)) word (dev m0)).
  pose (fsr := wrap32 (fst (reg_load (EFC_REG (efc m0) EEFC_FSR) h))).
  pose (m1 := with_dev m0 (snd (reg_load (EFC_REG (efc m0) EEFC_FSR) h))).
  pose (t1 := [IapCall (efc_index (efc m0)) word; RegLoad (EFC_REG (efc m0) EEFC_FSR) fsr]).
  assert (Hcmd : cmd EFC_FCMD_GLB 0 m0 = Some (SUCCESS, m1, t1)) by reflexivity.
  assert (Hord : within_one_bank 0x138000 0x148000 \/
                 start_region_of 0x138000 <= end_region_of 0x138000 0x148000)
    by (right; by_computation).
  destruct (islocked_counts_set_lock_bits straddle_object 0x138000 0x148000 m1 t1 Hord Hcmd)
    as (Hrun & _).
  rewrite Hrun. split; reflexivity.
Defined.

(** A run in which [write] is the described algorithm. *)
Lemma write_is_described_write_example :
  let data := repeat 0xAA 16 in
  let current := repeat 0x11 256 in
  write 1 0x80010 (Some data) 16 true false sample_object =
  described_write 0x80010 data 16 true false sample_object
  /\ nth 40 (merged_page current 16 data) 0 = 0x11
  /\ returned (write 1 0x80010 (Some data) 16 true false sample_object) = Some SUCCESS
  /\ option_map (fun m => map (Sim.flash_byte (dev m)) [0x8000F; 0x80010; 0x8001F; 0x80020])
                (final (write 1 0x80010 (Some data) 16 true false sample_object))
     = Some [0x0F; 0xAA; 0xAA; 0x07].
Proof.
  intros data current.
  assert (H1 : IFLASH_ADDR <= 0x80010 < IFLASH_LAST_PAGE_ADDRESS + IFLASH_PAGE_SIZE)
    by by_computation.
  assert (H4 : 0x80010 - base_of 0x80010 + 16 <= 2 ^ 24 - IFLASH_PAGE_SIZE) by by_computation.
  assert (H5 : 16 <= Z.of_nat (length data)) by by_computation.
  assert (H10 : 16 + Z.of_nat (length data) <= IFLASH_PAGE_SIZE) by by_computation.
  destruct (write_is_described_write sample_object 1 0x80010 data 16 true false
                                     current data 16 40%nat
                                     H1 eq_refl eq_refl H4 H5 eq_refl eq_refl eq_refl
                                     eq_refl eq_refl ltac:(lia) H10) as (Hw & _ & Hn).
  split; [exact Hw|]. split; [exact Hn|].
  split; vm_compute; reflexivity.
Qed.

(** C1.  [write] moves its data pointer by [write_size / sizeof(Type)]
    whole objects after each page, not by the [write_size] bytes the page
    was given.  With 8-byte objects at an address that is word-aligned but
    not a multiple of 8, and 264 bytes of data: the first page takes bytes
    0 to 251, which is 31 objects and a half, and the pointer moves by 31
    objects, 248 bytes.  The second page is given bytes 248 to 259 where
    the described algorithm gives it bytes 252 to 263: four bytes are
    committed twice, the last four never, and the call returns
    [SUCCESS].  The same data written as bytes is committed as
    described. *)
Theorem write_advances_data_by_whole_objects :
  let data := repeat 0x11 252 ++ [1; 2; 3; 4; 5; 6; 7; 8; 9; 10; 11; 12] in
  let code := write 8 0x80004 (Some data) 264 true false sample_object in
  let as_bytes := write 1 0x80004 (Some data) 264 true false sample_object in
  let described := described_write 0x80004 data 264 true false sample_object in
  let first_page (m : machine Sim.t) :=
    map (fun i => Sim.flash_byte (dev m) (0x80004 + Z.of_nat i)) (seq 0 252) in
  let second_page (m : machine Sim.t) :=
    map (fun i => Sim.flash_byte (dev m) (0x80100 + Z.of_nat i)) (seq 0 12) in
  (IFLASH_ADDR <= 0x80004 < IFLASH_LAST_PAGE_ADDRESS + IFLASH_PAGE_SIZE)
  /\ Z.land 0x80004 3 = 0
  /\ length data = 264%nat
  /\ returned described = Some SUCCESS
  /\ option_map first_page (final described) = Some (firstn 252 data)
  /\ option_map second_page (final described) = Some [1; 2; 3; 4; 5; 6; 7; 8; 9; 10; 11; 12]
  /\ returned code = Some SUCCESS
  /\ commands_issued (trace_of code) =
     [(EFC_FCMD_GLB, 0); (EFC_FCMD_EWP, 0); (EFC_FCMD_EWP, 1)]
  /\ option_map first_page (final code) = Some (firstn 252 data)
  /\ option_map second_page (final code) =
     Some [0x11; 0x11; 0x11; 0x11; 1; 2; 3; 4; 5; 6; 7; 8]
  /\ option_map second_page (final code) <> option_map second_page (final described)
  /\ as_bytes = described.
Proof. by_computation. Qed.

(** C3.  [write] on a device whose mode register holds four wait states,
    with [erase] and [lock] set and two pages of data: the first page
    command locks the region, the second fails with the lock error.  The
    call returns the lock-error flag and the mode register is left with the
    six wait states [write] forced, not with the four it saved.  The same
    call without [lock] succeeds and does restore four. *)
Theorem write_failure_leaves_wait_states_forced :
  let data := Some (repeat 0x55 512) in
  let failing := write 1 0x80000 data 512 true true sample_object_fws4 in
  let passing := write 1 0x80000 data 512 true false sample_object_fws4 in
  bank0_wait_states sample_object_fws4 = 4
  /\ returned failing = Some EEFC_FSR_FLOCKE
  /\ commands_issued (trace_of failing) =
     [(EFC_FCMD_GLB, 0); (EFC_FCMD_EWPL, 0); (EFC_FCMD_EWPL, 1)]
  /\ option_map bank0_wait_states (final failing) = Some CHIP_FLASH_WAIT_STATE
  /\ returned passing = Some SUCCESS
  /\ option_map bank0_wait_states (final passing) = Some 4.
Proof. by_computation. Qed.

(** C4.  [write] with a null data pointer and a valid address: [flashcpy]
    finds the null pointer and returns null, [write] does not look at that
    result.  The call asks for the lock bits, changes the wait states,
    issues the erase-and-write command for page 0 with nothing stored to
    the page, and returns [SUCCESS]; the page is erased. *)
Theorem write_null_data_reaches_the_device :
  let o := write 1 0x80000 None 4 true false sample_object in
  returned (flashcpy 0x80000 None 0 4 252 sample_object) = Some 0
  /\ returned o = Some SUCCESS
  /\ SUCCESS <> INVALID
  /\ commands_issued (trace_of o) = [(EFC_FCMD_GLB, 0); (EFC_FCMD_EWP, 0)]
  /\ Sim.flash_byte (dev sample_object) 0x80000 = 0x01
  /\ option_map (fun m => Sim.flash_byte (dev m) 0x80000) (final o) = Some 0xFF.
Proof. by_computation. Qed.

(** C5.  A descriptor getter called with address 0, which is below the
    first bank: [getFlashDescriptor] has no lower bound, so the descriptor
    is fetched from bank 0, the cache is overwritten and tagged with
    address 0, and the getter returns the fetched field, not [INVALID].
    The tag of a new object is 0xFFFFFFFF, so a getter called with that
    address takes the cache as valid and returns its zeroed field. *)
Theorem descriptor_getter_accepts_address_below_flash :
  let o := getFlashId 0 sample_object in
  0 < IFLASH0_ADDR
  /\ flash_descriptor sample_object = [0; 0; 0; 0; 0xFFFFFFFF]
  /\ returned o = Some 0x000F0730
  /\ commands_issued (trace_of o) = [(EFC_FCMD_GETD, 0)]
  /\ option_map flash_descriptor (final o) = Some [0x000F0730; 0x40000; 256; 1; 0]
  /\ map (fun getter => returned (getter 0 sample_object))
         [getFlashId; getFlashSize; getPageSize; getRegionCount; getRegionSize;
          getPageCount; getPageCountPerRegion]
     = [Some 0x000F0730; Some 0x40000; Some 256; Some 1; Some 0; Some 1024; Some 0]
  /\ returned (getFlashId 0xFFFFFFFF sample_object) = Some 0.
Proof. by_computation. Qed.

(** C6.  [getRegionSize] returns cell 4 of [flash_descriptor], and cell 4
    is where [getFlashDescriptor] keeps the address tag: only four words
    are read from the result register.  On two devices whose descriptors
    differ in every word the call for address 0x00080000 returns
    0x00080000, and [getPageCountPerRegion] returns that address divided by
    the page size. *)
Theorem getRegionSize_returns_the_address_tag :
  nth 4 (Sim.descriptor sample_device) 0 = 0x40000
  /\ nth 4 (Sim.descriptor other_device) 0 = 0x10000
  /\ returned (getRegionSize 0x80000 sample_object) = Some 0x80000
  /\ returned (getRegionSize 0x80000 other_object) = Some 0x80000
  /\ returned (getPageSize 0x80000 sample_object) = Some 256
  /\ returned (getPageCountPerRegion 0x80000 sample_object) = Some (0x80000 / 256)
  /\ returned (getPageSize 0x80000 other_object) = Some 512
  /\ returned (getPageCountPerRegion 0x80000 other_object) = Some (0x80000 / 512).
Proof. by_computation. Qed.

(** ** More properties *)

(** *** Bit-fields *)

Lemma wrap32_testbit x n :
  0 <= n -> Z.testbit (wrap32 x) n = (n <? 32) && Z.testbit x n.
Proof.
  intros Hn. unfold wrap32. destruct (Z.ltb_spec n 32).
  - rewrite Z.mod_pow2_bits_low by lia. reflexivity.
  - rewrite Z.mod_pow2_bits_high by lia. reflexivity.
Qed.

Lemma ones_testbit w n :
  0 <= w -> 0 <= n -> Z.testbit (Z.ones w) n = (n <? w).
Proof.
  intros Hw Hn. destruct (Z.ltb_spec n w).
  - apply Z.ones_spec_low. lia.
  - apply Z.ones_spec_high. lia.
Qed.

Lemma field_mask_testbit pos w n :
  0 <= pos -> 0 <= w -> 0 <= n ->
  Z.testbit (Z.shiftl (Z.ones w) pos) n = (pos <=? n) && (n <? pos + w).
Proof.
  intros Hp Hw Hn. destruct (Z.leb_spec pos n).
  - rewrite Z.shiftl_spec, ones_testbit by lia. cbn [andb].
    destruct (Z.ltb_spec (n - pos) w); destruct (Z.ltb_spec n (pos + w)); try lia; reflexivity.
  - rewrite Z.shiftl_spec_low by lia. reflexivity.
Qed.

Lemma bitfield_set_testbit pos w v full n :
  0 <= pos -> 0 <= w -> pos + w <= 32 -> 0 <= n ->
  Z.testbit (bitfield_set pos w v full) n =
  if (pos <=? n) && (n <? pos + w) then Z.testbit v (n - pos)
  else (n <? 32) && Z.testbit full n.
Proof.
  intros Hp Hw Hpw Hn. unfold bitfield_set.
  rewrite Z.lor_spec, Z.land_spec, wrap32_testbit, Z.lnot_spec, field_mask_testbit by lia.
  destruct (Z.leb_spec pos n); destruct (Z.ltb_spec n (pos + w)); cbn [andb negb].
  - rewrite Z.shiftl_spec, Z.land_spec, ones_testbit by lia.
    destruct (Z.ltb_spec (n - pos) w); [|lia].
    rewrite andb_true_r, andb_false_r, andb_false_r. reflexivity.
  - rewrite Z.shiftl_spec, Z.land_spec, ones_testbit by lia.
    destruct (Z.ltb_spec (n - pos) w); [lia|].
    rewrite andb_false_r, orb_false_r, andb_true_r, andb_comm. reflexivity.
  - rewrite Z.shiftl_spec_low by lia.
    rewrite orb_false_r, andb_true_r, andb_comm. reflexivity.
  - lia.
Qed.

Lemma bitfield_get_testbit pos w x n :
  0 <= pos -> 0 <= w -> 0 <= n ->
  Z.testbit (bitfield_get pos w x) n = (n <? w) && Z.testbit x (n + pos).
Proof.
  intros Hp Hw Hn. unfold bitfield_get.
  rewrite Z.land_spec, Z.shiftr_spec, ones_testbit by lia. apply andb_comm.
Qed.

(** A field reads back what was assigned to it, cut to its width. *)
Lemma bitfield_get_set_same pos w v full :
  0 <= pos -> 0 <= w -> pos + w <= 32 ->
  bitfield_get pos w (bitfield_set pos w v full) = v mod 2 ^ w.
Proof.
  intros Hp Hw Hpw. apply Z.bits_inj'. intros n Hn.
  rewrite bitfield_get_testbit, bitfield_set_testbit by lia.
  destruct (Z.ltb_spec n w); cbn [andb].
  - rewrite Z.mod_pow2_bits_low by lia.
    destruct (Z.leb_spec pos (n + pos)); [|lia].
    destruct (Z.ltb_spec (n + pos) (pos + w)); [|lia].
    cbn [andb]. f_equal. lia.
  - rewrite Z.mod_pow2_bits_high by lia. reflexivity.
Qed.

(** An assignment to one field leaves every field that does not overlap
    it as it was. *)
Lemma bitfield_get_set_other p1 w1 p2 w2 v full :
  0 <= p1 -> 0 <= w1 -> p1 + w1 <= 32 ->
  0 <= p2 -> 0 <= w2 -> p2 + w2 <= 32 ->
  p1 + w1 <= p2 \/ p2 + w2 <= p1 ->
  bitfield_get p1 w1 (bitfield_set p2 w2 v full) = bitfield_get p1 w1 full.
Proof.
  intros H1 H2 H3 H4 H5 H6 Hd. apply Z.bits_inj'. intros n Hn.
  rewrite !bitfield_get_testbit, bitfield_set_testbit by lia.
  destruct (Z.ltb_spec n w1); cbn [andb]; [|reflexivity].
  destruct (Z.leb_spec p2 (n + p1)); destruct (Z.ltb_spec (n + p1) (p2 + w2));
    cbn [andb]; try lia.
  - destruct (Z.ltb_spec (n + p1) 32); [reflexivity | lia].
  - destruct (Z.ltb_spec (n + p1) 32); [reflexivity | lia].
Qed.

Lemma bitfield_get_0 pos w : 0 <= pos -> 0 <= w -> bitfield_get pos w 0 = 0.
Proof.
  intros Hp Hw. unfold bitfield_get. rewrite Z.shiftr_0_l. apply Z.land_0_l.
Qed.

Lemma bitfield_set_range pos w v full :
  0 <= pos -> 0 <= w -> pos + w <= 32 ->
  0 <= bitfield_set pos w v full < 2 ^ 32.
Proof.
  intros Hp Hw Hpw.
  assert (E : bitfield_set pos w v full = bitfield_set pos w v full mod 2 ^ 32).
  { apply Z.bits_inj'. intros n Hn.
    destruct (Z.ltb_spec n 32).
    - rewrite Z.mod_pow2_bits_low by lia. reflexivity.
    - rewrite Z.mod_pow2_bits_high by lia.
      rewrite bitfield_set_testbit by lia.
      destruct (Z.leb_spec pos n); destruct (Z.ltb_spec n (pos + w)); cbn [andb]; try lia;
        destruct (Z.ltb_spec n 32); try lia; reflexivity. }
  rewrite E. apply Z.mod_pos_bound. lia.
Qed.

(** *** The MPU region encoder *)

Ltac read_field :=
  repeat first
    [ rewrite bitfield_get_set_same by lia
    | rewrite bitfield_get_set_other by lia
    | rewrite bitfield_get_0 by lia ];
  try reflexivity.

(** X1.  [MPUConfigureRegion] issues the two barriers and then stores to
    RBAR, RASR and CTRL, in this order, and returns [SUCCESS] whatever its
    arguments are.  Every argument is cut to the width of its field: the
    region number to 4 bits, the size code to 5, TEX and AP to 3, C, B, S
    and XN to 1.  RBAR has its valid bit set; RASR has the enable bit set,
    no sub-region disabled and its reserved bits clear; CTRL has ENABLE and
    PRIVDEFENA set and HFNMIENA clear, and its bits 3 to 31 are whatever
    the uninitialised union held. *)
Theorem MPUConfigureRegion_fields (addr size region tex c b s ap xn garbage : Z) :
  exists rbar rasr ctrl,
    MPUConfigureRegion addr size region tex c b s ap xn garbage =
    (SUCCESS, [DSB; ISB; MpuStore MPU_RBAR rbar; MpuStore MPU_RASR rasr;
               MpuStore MPU_CTRL ctrl])
    /\ (0 <= rbar < 2 ^ 32 /\ 0 <= rasr < 2 ^ 32 /\ 0 <= ctrl < 2 ^ 32)
    /\ bitfield_get 0 4 rbar = region mod 2 ^ 4
    /\ bitfield_get 4 1 rbar = 1
    /\ bitfield_get 0 1 rasr = 1
    /\ bitfield_get 1 5 rasr = size mod 2 ^ 5
    /\ bitfield_get 6 2 rasr = 0
    /\ bitfield_get 8 8 rasr = 0
    /\ bitfield_get 16 1 rasr = b mod 2 ^ 1
    /\ bitfield_get 17 1 rasr = c mod 2 ^ 1
    /\ bitfield_get 18 1 rasr = s mod 2 ^ 1
    /\ bitfield_get 19 3 rasr = tex mod 2 ^ 3
    /\ bitfield_get 22 2 rasr = 0
    /\ bitfield_get 24 3 rasr = ap mod 2 ^ 3
    /\ bitfield_get 27 1 rasr = 0
    /\ bitfield_get 28 1 rasr = xn mod 2 ^ 1
    /\ bitfield_get 29 3 rasr = 0
    /\ bitfield_get 0 1 ctrl = 1
    /\ bitfield_get 1 1 ctrl = 0
    /\ bitfield_get 2 1 ctrl = 1
    /\ bitfield_get 3 29 ctrl = bitfield_get 3 29 garbage.
Proof.
  do 3 eexists. split; [reflexivity|].
  split; [repeat split; apply bitfield_set_range; lia|].
  repeat split; read_field.
Qed.

Lemma clear_low_bits x k :
  0 <= x < 2 ^ 32 -> 0 <= k < 32 ->
  Z.land x (shl32 0xffffffff k) = x - x mod 2 ^ k.
Proof.
  intros Hx Hk. unfold shl32.
  destruct (Z.leb_spec 0 k); [|lia]. destruct (Z.ltb_spec k 32); [|lia]. cbn [andb].
  change 0xffffffff with (Z.ones 32).
  replace (x - x mod 2 ^ k) with (Z.shiftl (Z.shiftr x k) k).
  2: { rewrite Z.shiftl_mul_pow2, Z.shiftr_div_pow2 by lia.
       pose proof (Z.div_mod x (2 ^ k)). assert (0 < 2 ^ k) by (apply Z.pow_pos_nonneg; lia).
       lia. }
  apply Z.bits_inj'. intros n Hn.
  rewrite Z.land_spec, wrap32_testbit by lia.
  destruct (Z.ltb_spec n k).
  - rewrite !Z.shiftl_spec_low by lia. rewrite andb_false_r. apply andb_false_r.
  - rewrite !Z.shiftl_spec, Z.shiftr_spec, ones_testbit by lia.
    replace (n - k + k) with n by lia.
    destruct (Z.ltb_spec n 32); cbn [andb].
    + destruct (Z.ltb_spec (n - k) 32); [|lia]. apply andb_true_r.
    + rewrite andb_false_r. symmetry.
      rewrite <- (Z.mod_small x (2 ^ 32)) by lia. apply Z.mod_pow2_bits_high. lia.
Qed.

(** X2.  For a 32-bit address and a size code from 4 to 31, the address
    field that [MPUConfigureRegion] stores in RBAR (bits 5 to 31) is the
    address rounded down to a multiple of the region size
    [2 ^ (size + 1)]: an address that is not aligned to the region size is
    silently moved down to the start of the region that contains it. *)
Theorem MPUConfigureRegion_base_rounded_down
        (addr size region tex c b s ap xn garbage : Z) :
  0 <= addr < 2 ^ 32 ->
  4 <= size <= 31 ->
  exists rbar,
    nth 2 (snd (MPUConfigureRegion addr size region tex c b s ap xn garbage)) DSB =
    MpuStore MPU_RBAR rbar
    /\ 2 ^ 5 * bitfield_get 5 27 rbar = addr - addr mod 2 ^ (size + 1)
    /\ rbar = (addr - addr mod 2 ^ (size + 1)) + 2 ^ 4 + region mod 2 ^ 4.
Proof.
  intros Ha Hs. eexists. split; [reflexivity|].
  set (rbar := bitfield_set 5 27 _ _).
  assert (Hk : wrap32 (size - 4) = size - 4) by (apply Z.mod_small; lia).
  assert (H5 : 0 <= Z.shiftr addr 5 < 2 ^ 27).
  { rewrite Z.shiftr_div_pow2 by lia.
    split; [apply Z.div_pos; lia | apply Z.div_lt_upper_bound; lia]. }
  assert (Hp : 0 < 2 ^ (size - 4)) by (apply Z.pow_pos_nonneg; lia).
  assert (F : 2 ^ 5 * bitfield_get 5 27 rbar = addr - addr mod 2 ^ (size + 1)).
  { unfold rbar. rewrite bitfield_get_set_same by lia.
    rewrite Hk, clear_low_bits by lia.
    pose proof (Z.mod_pos_bound (Z.shiftr addr 5) (2 ^ (size - 4)) Hp).
    pose proof (Z.mod_le (Z.shiftr addr 5) (2 ^ (size - 4)) ltac:(lia) Hp).
    rewrite (Z.mod_small (_ - _)) by lia.
    rewrite Z.shiftr_div_pow2 by lia.
    replace (size + 1) with (5 + (size - 4)) by lia.
    rewrite Z.pow_add_r by lia.
    rewrite (Z.mod_eq (addr / 2 ^ 5)), (Z.mod_eq addr (2 ^ 5 * 2 ^ (size - 4))) by lia.
    rewrite Z.div_div by lia. lia. }
  split; [exact F|].
  rewrite <- F.
  assert (R : 0 <= rbar < 2 ^ 32) by (apply bitfield_set_range; lia).
  assert (G0 : bitfield_get 0 4 rbar = region mod 2 ^ 4) by (unfold rbar; read_field).
  assert (G4 : bitfield_get 4 1 rbar = 1) by (unfold rbar; read_field).
  rewrite <- G0. clearbody rbar.
  unfold bitfield_get in *. change (Z.ones 4) with (Z.ones 4) in *.
  rewrite !Z.land_ones, !Z.shiftr_div_pow2 in * by lia.
  rewrite Z.div_1_r in *.
  change (2 ^ 0) with 1 in *. change (2 ^ 1) with 2 in *. change (2 ^ 4) with 16 in *.
  change (2 ^ 5) with 32 in *. change (2 ^ 27) with 134217728 in *.
  change (2 ^ 32) with 4294967296 in *.
  Z.div_mod_to_equations. lia.
Qed.

(** *** Lock regions *)

(** The pages [lock] and [unlock] compute for two addresses of one bank. *)
Lemma region_pages_arith_any start_addr end_addr :
  same_bank start_addr end_addr ->
  let sr := start_region_of start_addr in
  let er := end_region_of start_addr end_addr in
  let actual_start_addr := wrap32 (start_addr - start_addr mod IFLASH_LOCK_REGION_SIZE) in
  let actual_end_addr :=
    wrap32 (end_addr - end_addr mod IFLASH_LOCK_REGION_SIZE + IFLASH_LOCK_REGION_SIZE - 1) in
  let base := if IFLASH1_ADDR <=? actual_start_addr then IFLASH1_ADDR else IFLASH0_ADDR in
  0 <= sr < 16 /\ 0 <= er < 16 /\ (start_addr <= end_addr -> sr <= er)
  /\ (end_addr < start_addr -> er <= sr)
  /\ bank_efc actual_start_addr = bank_efc start_addr
  /\ wrap16 (wrap32 (actual_start_addr - base) / IFLASH_PAGE_SIZE) = 64 * sr
  /\ wrap16 (wrap32 (actual_end_addr - base) / IFLASH_PAGE_SIZE) = 64 * er + 63.
Proof.
  intros H sr er. unfold sr, er.
  unfold same_bank, start_region_of, end_region_of, base_of, region_of, page_of,
    bank_efc in *.
  change (IFLASH_LOCK_REGION_SIZE / IFLASH_PAGE_SIZE) with 64.
  change IFLASH_LOCK_REGION_SIZE with 16384.
  change IFLASH_PAGE_SIZE with 256.
  change (IFLASH1_ADDR + IFLASH1_SIZE) with 1048576 in H.
  change IFLASH1_ADDR with 786432 in *. change IFLASH0_ADDR with 524288 in *.
  assert (G : forall b a, b mod 16384 = 0 -> 0 <= b -> b + 262144 <= 2 ^ 32 ->
              b <= a < b + 262144 ->
              let r := (a - b) / 16384 in
              0 <= r < 16
              /\ wrap16 (wrap16 (wrap32 (a - b) / 256) / 64) = r
              /\ a - a mod 16384 = b + 16384 * r).
  { intros b a Hb0 Hb1 Hb2 Hb r.
    assert (Hr : 0 <= r < 16)
      by (split; [apply Z.div_pos; lia | apply Z.div_lt_upper_bound; lia]).
    assert (Hp : 0 <= (a - b) / 256 < 1024)
      by (split; [apply Z.div_pos; lia | apply Z.div_lt_upper_bound; lia]).
    assert (Hq : (a - b) / 256 / 64 = r) by (unfold r; rewrite Z.div_div by lia; reflexivity).
    split; [exact Hr|]. split.
    - unfold wrap16, wrap32. rewrite (Z.mod_small (a - b)) by lia.
      rewrite (Z.mod_small ((a - b) / 256)) by lia. rewrite Hq. apply Z.mod_small. lia.
    - pose proof (Z.div_mod (a - b) 16384 ltac:(lia)) as D. fold r in D.
      apply Z.div_exact in Hb0; [|lia].
      assert (E : a mod 16384 = (a - b) mod 16384).
      { replace a with ((a - b) + (b / 16384) * 16384) at 1 by lia.
        apply Z.mod_add. lia. }
      lia. }
  pose proof (Z.mod_pos_bound start_addr 16384 ltac:(lia)) as Ms.
  pose proof (Z.mod_pos_bound end_addr 16384 ltac:(lia)) as Me.
  assert (W32 : forall x, 0 <= x < 2 ^ 32 -> wrap32 x = x)
    by (intros x Hx; apply Z.mod_small; exact Hx).
  assert (W16 : forall x, 0 <= x < 2 ^ 16 -> wrap16 x = x)
    by (intros x Hx; apply Z.mod_small; exact Hx).
  assert (P : forall b r q, 0 <= b -> b + 262144 <= 2 ^ 32 -> 0 <= r < 16 -> 0 <= q < 16 ->
              wrap16 (wrap32 (wrap32 (b + 16384 * r) - b) / 256) = 64 * r
              /\ wrap16 (wrap32 (wrap32 (b + 16384 * q + 16384 - 1) - b) / 256)
                 = 64 * q + 63).
  { intros b r q Hb0 Hb1 Hr Hq.
    rewrite (W32 (b + 16384 * r)), (W32 (b + 16384 * q + 16384 - 1)) by lia.
    replace (b + 16384 * r - b) with (r * 64 * 256) by lia.
    replace (b + 16384 * q + 16384 - 1 - b) with (255 + (64 * q + 63) * 256) by lia.
    rewrite !W32 by lia.
    rewrite Z.div_mul, Z.div_add, (Z.div_small 255) by lia.
    rewrite !W16 by lia. split; lia. }
  destruct (Z.leb_spec 786432 start_addr) as [Hb|Hb].
  - destruct (G 786432 start_addr) as (R1 & R2 & R3); [reflexivity | lia | lia | lia |].
    destruct (G 786432 end_addr) as (S1 & S2 & S3); [reflexivity | lia | lia | lia |].
    rewrite R2, S2, R3, S3.
    set (r := (start_addr - 786432) / 16384) in *.
    set (q := (end_addr - 786432) / 16384) in *.
    assert (Hrq : start_addr <= end_addr -> r <= q)
      by (intros; apply Z.div_le_mono; lia).
    assert (Hqr : end_addr < start_addr -> q <= r)
      by (intros; apply Z.div_le_mono; lia).
    destruct (P 786432 r q) as [P1 P2]; try lia.
    pose proof (W32 (786432 + 16384 * r) ltac:(lia)) as Ea.
    destruct (Z.leb_spec 786432 (wrap32 (786432 + 16384 * r))); [|lia].
    repeat split; try lia; try assumption.
  - destruct (G 524288 start_addr) as (R1 & R2 & R3); [reflexivity | lia | lia | lia |].
    destruct (G 524288 end_addr) as (S1 & S2 & S3); [reflexivity | lia | lia | lia |].
    rewrite R2, S2, R3, S3.
    set (r := (start_addr - 524288) / 16384) in *.
    set (q := (end_addr - 524288) / 16384) in *.
    assert (Hrq : start_addr <= end_addr -> r <= q)
      by (intros; apply Z.div_le_mono; lia).
    assert (Hqr : end_addr < start_addr -> q <= r)
      by (intros; apply Z.div_le_mono; lia).
    destruct (P 524288 r q) as [P1 P2]; try lia.
    pose proof (W32 (524288 + 16384 * r) ltac:(lia)) as Ea.
    destruct (Z.leb_spec 786432 (wrap32 (524288 + 16384 * r))); [lia|].
    repeat split; try lia; try assumption.
Qed.

(** The same for a range inside one bank. *)
Lemma region_pages_arith start_addr end_addr :
  within_one_bank start_addr end_addr ->
  let sr := start_region_of start_addr in
  let er := end_region_of start_addr end_addr in
  let actual_start_addr := wrap32 (start_addr - start_addr mod IFLASH_LOCK_REGION_SIZE) in
  let actual_end_addr :=
    wrap32 (end_addr - end_addr mod IFLASH_LOCK_REGION_SIZE + IFLASH_LOCK_REGION_SIZE - 1) in
  let base := if IFLASH1_ADDR <=? actual_start_addr then IFLASH1_ADDR else IFLASH0_ADDR in
  0 <= sr /\ sr <= er /\ er < 16
  /\ bank_efc actual_start_addr = bank_efc start_addr
  /\ wrap16 (wrap32 (actual_start_addr - base) / IFLASH_PAGE_SIZE) = 64 * sr
  /\ wrap16 (wrap32 (actual_end_addr - base) / IFLASH_PAGE_SIZE) = 64 * er + 63.
Proof.
  intros H.
  assert (S : same_bank start_addr end_addr /\ start_addr <= end_addr).
  { unfold within_one_bank in H. unfold same_bank.
    change (IFLASH1_ADDR + IFLASH1_SIZE) with 1048576 in *.
    change IFLASH1_ADDR with 786432 in *. change IFLASH0_ADDR with 524288 in *. lia. }
  destruct S as [S L].
  destruct (region_pages_arith_any start_addr end_addr S) as (A1 & A2 & A3 & _ & A4 & A5 & A6).
  cbv zeta. pose proof (A3 L). repeat split; try assumption; lia.
Qed.

Section MoreProperties.

Context {hw : Type} {HW : Hardware hw}.

(** *** The mode register *)

Lemma wait_state_insert fmr fws :
  Z.lor (Z.land fmr (wrap32 (Z.lnot EEFC_FMR_FWS_Msk))) (EEFC_FMR_FWS fws) =
  bitfield_set 8 4 fws fmr.
Proof.
  unfold bitfield_set, EEFC_FMR_FWS.
  change EEFC_FMR_FWS_Msk with (Z.shiftl (Z.ones 4) 8). change EEFC_FMR_FWS_Pos with 8.
  f_equal. apply Z.bits_inj'. intros n Hn.
  rewrite Z.land_spec, field_mask_testbit, wrap32_testbit by lia.
  destruct (Z.leb_spec 8 n).
  - rewrite !Z.shiftl_spec, Z.land_spec, ones_testbit by lia.
    destruct (Z.ltb_spec n (8 + 4)); destruct (Z.ltb_spec (n - 8) 4);
      destruct (Z.ltb_spec n 32); cbn [andb]; try lia;
      rewrite ?andb_true_r, ?andb_false_r; reflexivity.
  - rewrite !Z.shiftl_spec_low by lia. rewrite andb_false_r. reflexivity.
Qed.

Lemma wait_state_extract w :
  Z.shiftr (Z.land w EEFC_FMR_FWS_Msk) EEFC_FMR_FWS_Pos = bitfield_get 8 4 w.
Proof.
  change EEFC_FMR_FWS_Msk with (Z.shiftl (Z.ones 4) 8). change EEFC_FMR_FWS_Pos with 8.
  apply Z.bits_inj'. intros n Hn.
  rewrite bitfield_get_testbit, Z.shiftr_spec, Z.land_spec, field_mask_testbit by lia.
  destruct (Z.leb_spec 8 (n + 8)); [|lia].
  destruct (Z.ltb_spec (n + 8) (8 + 4)); destruct (Z.ltb_spec n 4); cbn [andb];
    rewrite ?andb_true_r, ?andb_false_r; try reflexivity; lia.
Qed.

Lemma access_mode_insert fmr (bit : bool) :
  Z.lor (Z.land fmr (wrap32 (Z.lnot EEFC_FMR_FAM))) (if bit then EEFC_FMR_FAM else 0) =
  bitfield_set 24 1 (if bit then 1 else 0) fmr.
Proof.
  unfold bitfield_set. change EEFC_FMR_FAM with (Z.shiftl (Z.ones 1) 24).
  f_equal. destruct bit; reflexivity.
Qed.

Lemma access_mode_extract w :
  Z.land w EEFC_FMR_FAM = 2 ^ 24 * bitfield_get 24 1 w.
Proof.
  change EEFC_FMR_FAM with (Z.shiftl 1 24).
  assert (E : Z.land w (Z.shiftl 1 24) = if Z.testbit w 24 then 2 ^ 24 else 0).
  { pose proof (land_bit w 24 ltac:(lia)) as L.
    rewrite Z.shiftl_1_l in *.
    apply Z.bits_inj'. intros n Hn. rewrite Z.land_spec, Z.pow2_bits_eqb by lia.
    destruct (Z.eqb_spec 24 n) as [<-|Hne].
    - destruct (Z.testbit w 24); [reflexivity | now rewrite Z.bits_0].
    - rewrite andb_false_r. destruct (Z.testbit w 24).
      + rewrite Z.pow2_bits_eqb by lia. symmetry. now apply Z.eqb_neq.
      + now rewrite Z.bits_0. }
  rewrite E. unfold bitfield_get. rewrite Z.land_ones by lia. change (2 ^ 1) with 2.
  rewrite <- Z.bit0_mod, Z.shiftr_spec by lia. cbn [Z.add].
  destruct (Z.testbit w 24); reflexivity.
Qed.

(** X3.  [setfws] reads the mode register of the selected controller once
    and stores it back with the wait-state field (bits 8 to 11) replaced by
    the low four bits of its argument: what [getfws] extracts from the
    stored word is [fws mod 16], and bits 0 to 7 and 12 to 31 are those of
    the word read.  [setfam], called with one of the two access modes,
    does the same for bit 24: [getfam]'s mask gives the mode back and every
    other bit is kept. *)
Theorem setfws_setfam_touch_one_field (m : machine hw) (fws : Z) (mode64 : bool) :
  let FMR := EFC_REG (efc m) EEFC_FMR in
  let fmr := wrap32 (fst (reg_load FMR (dev m))) in
  let fa_mode := if mode64 then FLASH_ACCESS_MODE_64 else FLASH_ACCESS_MODE_128 in
  exists w v,
    setfws fws m =
    Some (tt, with_dev m (reg_store FMR w (snd (reg_load FMR (dev m)))),
          [RegLoad FMR fmr; RegStore FMR w])
    /\ Z.shiftr (Z.land w EEFC_FMR_FWS_Msk) EEFC_FMR_FWS_Pos = fws mod 2 ^ 4
    /\ bitfield_get 0 8 w = bitfield_get 0 8 fmr
    /\ bitfield_get 12 20 w = bitfield_get 12 20 fmr
    /\ setfam fa_mode m =
       Some (tt, with_dev m (reg_store FMR v (snd (reg_load FMR (dev m)))),
             [RegLoad FMR fmr; RegStore FMR v])
    /\ Z.land v EEFC_FMR_FAM = fa_mode
    /\ bitfield_get 0 24 v = bitfield_get 0 24 fmr
    /\ bitfield_get 25 7 v = bitfield_get 25 7 fmr.
Proof.
  intros FMR fmr fa_mode. do 2 eexists.
  split; [reflexivity|]. fold FMR. fold fmr.
  rewrite wait_state_insert, wait_state_extract.
  split; [read_field|]. split; [read_field|]. split; [read_field|].
  split; [reflexivity|]. fold FMR. fold fmr. unfold fa_mode.
  change FLASH_ACCESS_MODE_128 with 0. change FLASH_ACCESS_MODE_64 with EEFC_FMR_FAM.
  rewrite access_mode_insert, access_mode_extract.
  split; [|split; read_field].
  rewrite bitfield_get_set_same by lia. destruct mode64; reflexivity.
Qed.


Lemma getfws_run (m : machine hw) :
  let FMR := EFC_REG (efc m) EEFC_FMR in
  let fmr := wrap32 (fst (reg_load FMR (dev m))) in
  getfws m = Some (bitfield_get 8 4 fmr, with_dev m (snd (reg_load FMR (dev m))),
                   [RegLoad FMR fmr]).
Proof.
  intros FMR fmr. unfold getfws. cbv [bind get_efc rd ret]. cbv beta iota zeta.
  rewrite wait_state_extract. reflexivity.
Qed.

Lemma setfws_run (m : machine hw) v :
  let FMR := EFC_REG (efc m) EEFC_FMR in
  let fmr := wrap32 (fst (reg_load FMR (dev m))) in
  setfws v m = Some (tt, with_dev m (reg_store FMR (bitfield_set 8 4 v fmr)
                                               (snd (reg_load FMR (dev m)))),
                     [RegLoad FMR fmr; RegStore FMR (bitfield_set 8 4 v fmr)]).
Proof.
  intros FMR fmr. unfold setfws. cbv [bind get_efc rd wr]. cbv beta iota zeta.
  rewrite wait_state_insert. reflexivity.
Qed.

(** *** Selecting a controller *)

(** X4.  [setEFC] accepts the indices 0 and 1 and nothing else, and never
    touches the device: an accepted index is what [getEFC] then returns, a
    refused one gives [INVALID] and leaves the object as it was.  The
    selection lasts until the next operation that takes an address:
    [erase], for one, always returns, and after it [getEFC] gives the
    controller of the bank of the address erased. *)
Theorem setEFC_getEFC_round_trip (m : machine hw) (efc_idx addr : Z) :
  match setEFC efc_idx m with
  | Some (st, m', t) =>
      t = [] /\ dev m' = dev m /\
      ((st = SUCCESS /\ (efc_idx = 0 \/ efc_idx = 1) /\ getEFC m' = Some (efc_idx, m', []))
       \/ (st = INVALID /\ efc_idx <> 0 /\ efc_idx <> 1 /\ m' = m))
      /\ exists r m2 t2,
           erase addr m' = Some (r, m2, t2)
           /\ getEFC m2 = Some (efc_index (bank_efc addr), m2, [])
  | None => False
  end.
Proof.
  assert (E : forall m' : machine hw, exists r m2 t2,
            erase addr m' = Some (r, m2, t2)
            /\ getEFC m2 = Some (efc_index (bank_efc addr), m2, [])).
  { intros m'. unfold erase.
    rewrite (bind_some (set_efc (bank_efc addr)) _ m' tt (with_efc m' (bank_efc addr)) [])
      by reflexivity.
    rewrite cmd_run. cbv zeta. do 3 eexists. split; reflexivity. }
  unfold setEFC.
  destruct (Z.eqb_spec efc_idx 0) as [->|H0]; cbn [negb andb].
  - cbv [bind set_efc ret]. split; [reflexivity|]. split; [reflexivity|]. split; [|apply E].
    left. repeat split. now left.
  - destruct (Z.eqb_spec efc_idx 1) as [->|H1]; cbn [negb].
    + cbv [bind set_efc ret]. split; [reflexivity|]. split; [reflexivity|]. split; [|apply E].
      left. repeat split. now right.
    + cbv [bind set_efc ret]. split; [reflexivity|]. split; [reflexivity|]. split; [|apply E].
      right. repeat split; assumption.
Qed.

(** *** Reading the GPNVM bits *)

Lemma reads_gpnvm_bit_intro (op : M hw Z) (k : Z) :
  0 <= k ->
  op = (st <- cmd EFC_FCMD_GGPB 0 ;;
        if negb (st =? SUCCESS) then ret ERROR
        else b <- FRR_bit k ;; ret (if b then BIT_IS_SET else BIT_IS_CLEARED)) ->
  reads_gpnvm_bit op k.
Proof.
  intros Hk -> m. do 3 eexists. split; [apply cmd_run|]. cbv zeta.
  rewrite (bind_some _ _ _ _ _ _ (cmd_run m EFC_FCMD_GGPB 0)).
  set (st := Z.land _ EEFC_ERROR_FLAGS). set (m1 := with_dev m _).
  destruct (st =? SUCCESS) eqn:Est; cbn [negb].
  - rewrite (bind_some _ _ _ _ _ _ (FRR_bit_run m1 k Hk)).
    unfold ret. cbn [app]. repeat split.
  - unfold ret. cbn [app]. repeat split.
Qed.

(** X5.  [getSecurityBit], [getBootSelectBit] and [getFlashSelectBit]
    read GPNVM bits 0, 1 and 2: one get-GPNVM-bits command on the selected
    controller, [ERROR] without a read of the result register when its
    status shows an error, and otherwise one read of the result register
    whose bit decides between [BIT_IS_SET] and [BIT_IS_CLEARED]. *)
Theorem gpnvm_getters_read_their_bit :
  reads_gpnvm_bit (hw := hw) getSecurityBit 0
  /\ reads_gpnvm_bit (hw := hw) getBootSelectBit 1
  /\ reads_gpnvm_bit (hw := hw) getFlashSelectBit 2.
Proof.
  repeat apply conj; apply reads_gpnvm_bit_intro; try lia; reflexivity.
Qed.

(** *** The descriptor *)

Lemma set_nth_other n k v (l : list Z) : n <> k -> nth k (set_nth n v l) 0 = nth k l 0.
Proof.
  revert n k. induction l as [|x l IH]; intros n k H; [destruct n; reflexivity|].
  destruct n, k; cbn; try reflexivity; try lia. apply IH. lia.
Qed.

Lemma fill_length ws : forall i old, length (fill i ws old) = length old.
Proof.
  induction ws as [|w ws IH]; intros i old; cbn [fill]; [reflexivity|].
  destruct (w =? 0); [reflexivity|]. rewrite IH. apply set_nth_length.
Qed.

Lemma fill_nth ws : forall i old k,
  (i + length ws <= length old)%nat ->
  nth k (fill i ws old) 0 =
  if (i <=? k)%nat && (k <? i + length ws)%nat && forallb nonzero (firstn (k - i + 1) ws)
  then nth (k - i) ws 0 else nth k old 0.
Proof.
  induction ws as [|w ws IH]; intros i old k Hlen; cbn [fill length].
  - replace (k <? i + 0)%nat with (negb (i <=? k)%nat).
    + destruct (i <=? k)%nat; reflexivity.
    + destruct (Nat.leb_spec i k); destruct (Nat.ltb_spec k (i + 0)); cbn; lia || reflexivity.
  - cbn [length] in Hlen.
    replace (k - i + 1)%nat with (S (k - i)) by lia. cbn [firstn forallb].
    unfold nonzero at 1. destruct (w =? 0) eqn:Ew; cbn [negb andb].
    + rewrite andb_false_r. reflexivity.
    + rewrite IH by (rewrite set_nth_length; lia).
      destruct (Nat.eq_dec k i) as [->|Hne].
      * replace (S i <=? i)%nat with false by (symmetry; apply Nat.leb_gt; lia).
        cbn [andb]. rewrite Nat.leb_refl. replace (i <? i + S (length ws))%nat with true
          by (symmetry; apply Nat.ltb_lt; lia).
        rewrite Nat.sub_diag. cbn. apply set_nth_same. lia.
      * rewrite set_nth_other by lia.
        destruct (Nat.leb_spec (S i) k) as [Hk|Hk].
        -- replace (i <=? k)%nat with true by (symmetry; apply Nat.leb_le; lia).
           replace (k <? i + S (length ws))%nat with (k <? S i + length ws)%nat
             by (f_equal; lia).
           replace (k - S i + 1)%nat with (S (k - S i)) by lia.
           replace (k - i)%nat with (S (k - S i)) by lia. reflexivity.
        -- replace (i <=? k)%nat with false by (symmetry; apply Nat.leb_gt; lia).
           reflexivity.
Qed.

(** The loop that copies the response always ends; it reads the result
    register of the selected controller until a zero word or the fourth
    word, and changes nothing of the object but the descriptor. *)
Lemma read_descriptor_run n : forall i (m : machine hw),
  0 <= i ->
  exists m' t,
    read_descriptor n i m = Some (tt, m', t)
    /\ flash_descriptor m' =
       fill (Z.to_nat i) (fst (frr_words (efc m) n (dev m))) (flash_descriptor m)
    /\ efc m' = efc m
    /\ commands_issued t = []
    /\ (length t <= n)%nat.
Proof.
  induction n as [|n IH]; intros i m Hi.
  - exists m, []. repeat split. cbn. lia.
  - cbn [read_descriptor frr_words fst].
    cbv [bind get_efc rd get_flash_descriptor set_flash_descriptor]. cbv beta iota zeta.
    cbn [fill].
    set (res := wrap32 (fst (reg_load (EFC_REG (efc m) EEFC_FRR) (dev m)))).
    destruct (res =? 0) eqn:Eres.
    + do 2 eexists. split; [reflexivity|]. cbn. repeat split. lia.
    + set (m1 := with_flash_descriptor _ _).
      destruct (IH (i + 1) m1 ltac:(lia)) as (m' & t & R & D & E & C & L).
      rewrite R. do 2 eexists. split; [reflexivity|].
      split; [|split; [exact E|split]].
      * rewrite D. unfold m1. cbn [dev efc flash_descriptor with_dev with_flash_descriptor
                                   with_efc].
        replace (Z.to_nat (i + 1)) with (S (Z.to_nat i)) by lia. reflexivity.
      * cbn. exact C.
      * cbn. lia.
Qed.

Ltac fields :=
  cbn [dev efc FWS0 FWS1 FAM0 FAM1 uniqueID flash_descriptor page_buffer
       with_dev with_efc with_uniqueID with_flash_descriptor with_page_buffer].

(** What a fetch is, on every device: rejected above the last page
    address; otherwise one get-descriptor command on the bank of the
    address and, when that succeeds, the copy loop and the tag. *)
Lemma getFlashDescriptor_run (m : machine hw) addr :
  addr <= IFLASH_LAST_PAGE_ADDRESS ->
  exists st m1 t1,
    cmd EFC_FCMD_GETD 0 (with_efc m (bank_efc addr)) = Some (st, m1, t1)
    /\ commands_issued t1 = [(EFC_FCMD_GETD, 0)]
    /\ efc m1 = bank_efc addr
    /\ flash_descriptor m1 = flash_descriptor m
    /\ if st =? SUCCESS then
         exists m2 t2,
           read_descriptor (Z.to_nat FLASH_DESCRIPTOR_SIZE) 0 m1 = Some (tt, m2, t2)
           /\ getFlashDescriptor addr m =
              Some (true,
                    with_flash_descriptor m2
                      (set_cell (flash_descriptor m2) FLASH_DESCRIPTOR_SIZE addr),
                    t1 ++ t2)
       else getFlashDescriptor addr m = Some (false, m1, t1).
Proof.
  intros Haddr. do 3 eexists. split; [apply cmd_run|].
  split; [reflexivity|]. split; [reflexivity|]. split; [reflexivity|].
  unfold getFlashDescriptor.
  destruct (Z.ltb_spec IFLASH_LAST_PAGE_ADDRESS addr); [lia|].
  rewrite (bind_some (set_efc (bank_efc addr)) _ m tt (with_efc m (bank_efc addr)) [])
    by reflexivity.
  rewrite (bind_some _ _ _ _ _ _ (cmd_run (with_efc m (bank_efc addr)) EFC_FCMD_GETD 0)).
  set (st := Z.land _ EEFC_ERROR_FLAGS). set (m1 := with_dev _ _).
  destruct (st =? SUCCESS) eqn:Est; cbn [negb].
  - destruct (read_descriptor_run (Z.to_nat FLASH_DESCRIPTOR_SIZE) 0 m1 ltac:(lia))
      as (m2 & t2 & R & _).
    exists m2, t2. split; [exact R|].
    rewrite (bind_some _ _ _ _ _ _ R). cbn [app]. unfold bind, get_flash_descriptor,
      set_flash_descriptor, ret. rewrite app_nil_r. reflexivity.
  - unfold ret. reflexivity.
Qed.

(** X6.  A fetch of the descriptor whose command succeeds copies the words
    of the result register into cells 0 to 3 only up to the first zero
    word: a cell before it holds its word, the cells from it on keep what
    they held before, and yet the fetch reports success and tags the cache
    with the address.  The get-descriptor command is the only command of
    the run. *)
Theorem descriptor_fetch_stops_at_zero_word (m : machine hw) (addr : Z) :
  length (flash_descriptor m) = 5%nat ->
  addr <= IFLASH_LAST_PAGE_ADDRESS ->
  returned (cmd EFC_FCMD_GETD 0 (with_efc m (bank_efc addr))) = Some SUCCESS ->
  exists m1 t1 m' t,
    cmd EFC_FCMD_GETD 0 (with_efc m (bank_efc addr)) = Some (SUCCESS, m1, t1)
    /\ getFlashDescriptor addr m = Some (true, m', t)
    /\ commands_issued t = [(EFC_FCMD_GETD, 0)]
    /\ (let words := fst (frr_words (bank_efc addr) 4 (dev m1)) in
        forall i, 0 <= i < 4 ->
          cell (flash_descriptor m') i =
          if forallb nonzero (firstn (Z.to_nat i + 1) words)
          then cell words i else cell (flash_descriptor m) i)
    /\ cell (flash_descriptor m') FLASH_DESCRIPTOR_SIZE = addr.
Proof.
  intros Hlen Haddr Hst.
  destruct (getFlashDescriptor_run m addr Haddr) as (st & m1 & t1 & C & K & E & D & G).
  rewrite C in Hst. injection Hst as ->.
  change (SUCCESS =? SUCCESS) with true in G. cbv iota in G.
  destruct G as (m2 & t2 & R & G).
  destruct (read_descriptor_run (Z.to_nat FLASH_DESCRIPTOR_SIZE) 0 m1 ltac:(lia))
    as (m2' & t2' & R' & F & _ & K2 & _).
  rewrite R in R'. injection R' as <- <-.
  do 4 eexists. split; [exact C|]. split; [exact G|].
  split; [rewrite commands_issued_app, K, K2; reflexivity|].
  assert (L2 : length (flash_descriptor m2) = 5%nat).
  { rewrite F, fill_length, D. exact Hlen. }
  fields. rewrite E in F. change (Z.to_nat FLASH_DESCRIPTOR_SIZE) with 4%nat in F.
  change (Z.to_nat 0) with 0%nat in F.
  split.
  - cbv zeta. intros i Hi. unfold cell, set_cell.
    rewrite set_nth_other by (change (Z.to_nat FLASH_DESCRIPTOR_SIZE) with 4%nat; lia).
    rewrite F, fill_nth by (rewrite frr_words_length, D, Hlen; lia).
    rewrite frr_words_length, D.
    replace (0 <=? Z.to_nat i)%nat with true by (symmetry; apply Nat.leb_le; lia).
    replace (Z.to_nat i <? 0 + 4)%nat with true by (symmetry; apply Nat.ltb_lt; lia).
    rewrite Nat.sub_0_r. reflexivity.
  - unfold cell, set_cell. apply set_nth_same.
    rewrite L2. change (Z.to_nat FLASH_DESCRIPTOR_SIZE) with 4%nat. lia.
Qed.

Lemma fetch_sets_tag (m m' : machine hw) addr t :
  length (flash_descriptor m) = 5%nat ->
  getFlashDescriptor addr m = Some (true, m', t) ->
  cell (flash_descriptor m') FLASH_DESCRIPTOR_SIZE = addr.
Proof.
  intros Hlen H.
  destruct (Z.ltb_spec IFLASH_LAST_PAGE_ADDRESS addr) as [Hhi|Hle].
  - unfold getFlashDescriptor in H.
    destruct (Z.ltb_spec IFLASH_LAST_PAGE_ADDRESS addr); [discriminate | lia].
  - destruct (getFlashDescriptor_run m addr Hle) as (st & m1 & t1 & C & K & E & D & G).
    destruct (st =? SUCCESS).
    + destruct G as (m2 & t2 & R & G). rewrite G in H. injection H as <- _.
      apply read_descriptor_length in R. fields.
      unfold cell, set_cell. apply set_nth_same.
      rewrite R, D, Hlen. change (Z.to_nat FLASH_DESCRIPTOR_SIZE) with 4%nat. lia.
    + rewrite G in H. discriminate.
Qed.

Lemma descriptor_for_miss (m : machine hw) addr :
  cell (flash_descriptor m) FLASH_DESCRIPTOR_SIZE <> addr ->
  addr <= IFLASH_LAST_PAGE_ADDRESS ->
  exists ok m' t,
    descriptor_for addr m = Some (ok, m', t)
    /\ commands_issued t = [(EFC_FCMD_GETD, 0)].
Proof.
  intros Htag Haddr.
  unfold descriptor_for, bind at 1, get_flash_descriptor.
  destruct (Z.eqb_spec (cell (flash_descriptor m) FLASH_DESCRIPTOR_SIZE) addr);
    [contradiction|].
  destruct (getFlashDescriptor_run m addr Haddr) as (st & m1 & t1 & C & K & _ & _ & G).
  destruct (st =? SUCCESS).
  - destruct G as (m2 & t2 & R & G). rewrite G.
    destruct (read_descriptor_run (Z.to_nat FLASH_DESCRIPTOR_SIZE) 0 m1 ltac:(lia))
      as (m2' & t2' & R' & _ & _ & K2 & _).
    rewrite R in R'. injection R' as <- <-.
    do 3 eexists. split; [reflexivity|].
    cbn [app]. rewrite commands_issued_app, K, K2. reflexivity.
  - rewrite G. do 3 eexists. split; [reflexivity|]. exact K.
Qed.

(** X7.  The descriptor cache holds one address.  Once the descriptor for
    an address is there (a getter found or fetched it), each of the seven
    getters called with that address returns its value from the cache,
    touches no register and changes nothing.  Called with another address
    up to the last page address, each of them issues the get-descriptor
    command again. *)
Theorem descriptor_cache_holds_one_address (m m1 : machine hw) (addr : Z) (t : list event) :
  length (flash_descriptor m) = 5%nat ->
  descriptor_for addr m = Some (true, m1, t) ->
  cell (flash_descriptor m1) FLASH_DESCRIPTOR_SIZE = addr
  /\ Forall (fun gf : (Z -> M hw Z) * (list Z -> Z) =>
               fst gf addr m1 = Some (snd gf (flash_descriptor m1), m1, []))
            descriptor_getters
  /\ forall other, other <> addr -> other <= IFLASH_LAST_PAGE_ADDRESS ->
       Forall (fun gf : (Z -> M hw Z) * (list Z -> Z) =>
                 commands_issued (trace_of (fst gf other m1)) = [(EFC_FCMD_GETD, 0)])
              descriptor_getters.
Proof.
  intros Hlen H.
  assert (Htag : cell (flash_descriptor m1) FLASH_DESCRIPTOR_SIZE = addr).
  { unfold descriptor_for in H. apply bind_inv in H.
    destruct H as (d & m0 & t0 & ok & m2 & t2 & H1 & H2 & H3).
    injection H1 as <- <- <-. injection H3 as <- <- _.
    destruct (Z.eqb_spec (cell (flash_descriptor m) FLASH_DESCRIPTOR_SIZE) addr) as [E|_].
    - injection H2 as <- _. exact E.
    - exact (fetch_sets_tag m m1 addr t2 Hlen H2). }
  split; [exact Htag|]. split.
  - assert (E : descriptor_for addr m1 = Some (true, m1, [])).
    { unfold descriptor_for, bind, get_flash_descriptor. rewrite Htag, Z.eqb_refl.
      reflexivity. }
    unfold descriptor_getters. repeat constructor; cbn [fst snd];
      unfold getFlashId, getFlashSize, getPageSize, getRegionCount, getRegionSize,
        getPageCount, getPageCountPerRegion;
      rewrite (bind_some _ _ _ _ _ _ E); reflexivity.
  - intros other Hne Hle.
    destruct (descriptor_for_miss m1 other) as (ok & m2 & t2 & E & K);
      [rewrite Htag; congruence | exact Hle |].
    unfold descriptor_getters. repeat constructor; cbn [fst snd];
      unfold getFlashId, getFlashSize, getPageSize, getRegionCount, getRegionSize,
        getPageCount, getPageCountPerRegion;
      rewrite (bind_some _ _ _ _ _ _ E); destruct ok; cbn [trace_of];
      unfold bind, get_flash_descriptor, ret; cbn [trace_of];
      rewrite ?app_nil_r; exact K.
Qed.

(** *** [lock] and [unlock] *)

Lemma region_commands_cons c first n :
  region_commands c first (S n) =
  (c, IFLASH_LOCK_REGION_PAGES * first) :: region_commands c (first + 1) n.
Proof.
  unfold region_commands. cbn [seq map]. rewrite Z.add_0_r. f_equal.
  rewrite <- seq_shift, map_map. apply map_ext. intros i. do 2 f_equal. lia.
Qed.

(** The command [cmd] issues, read back from its word. *)
Lemma cmd_command (m : machine hw) c a :
  0 <= c < 2 ^ 8 -> 0 <= a < 2 ^ 16 ->
  exists fsr m1 word,
    cmd c a m =
    Some (Z.land fsr EEFC_ERROR_FLAGS, m1,
          [IapCall (efc_index (efc m)) word; RegLoad (EFC_REG (efc m) EEFC_FSR) fsr])
    /\ efc m1 = efc m
    /\ command_of word = (c, a).
Proof.
  intros Hc Ha. do 3 eexists. split; [apply cmd_run|]. split; [reflexivity|].
  rewrite FCR_word_sum. rewrite (Z.mod_small c), (Z.mod_small a) by lia.
  destruct (FCR_word_fields c a FWP_KEY Hc Ha ltac:(unfold FWP_KEY; lia)) as (F1 & F2 & _).
  unfold command_of. rewrite F1, F2. reflexivity.
Qed.

Lemma region_loop_stop fuel c sp ep pr (m : machine hw) :
  (sp <? ep) = false -> region_loop fuel c sp ep pr m = Some (SUCCESS, m, []).
Proof. intros E. destruct fuel; cbn [region_loop]; rewrite E; reflexivity. Qed.

Lemma region_loop_run c : 0 <= c < 2 ^ 8 ->
  forall (n fuel : nat) (r er : Z) (m : machine hw),
  0 <= r -> er < 1023 -> er + 1 - r = Z.of_nat n -> (n <= fuel)%nat ->
  exists st m' t k,
    region_loop fuel c (64 * r) (64 * er + 63) 64 m = Some (st, m', t)
    /\ efc m' = efc m
    /\ (k <= n)%nat
    /\ commands_issued t = region_commands c r k
    /\ if no_error_status t then st = SUCCESS /\ k = n
       else reports_second_status_read st t.
Proof.
  intros Hc. induction n as [|n IH]; intros fuel r er m Hr Her Hn Hfuel.
  - exists SUCCESS, m, [], 0%nat.
    assert (E : (64 * r <? 64 * er + 63) = false) by (apply Z.ltb_ge; lia).
    destruct fuel; cbn [region_loop]; rewrite E; repeat split; lia.
  - destruct fuel as [|fuel]; [lia|]. cbn [region_loop].
    assert (E : (64 * r <? 64 * er + 63) = true) by (apply Z.ltb_lt; lia).
    rewrite E.
    destruct (cmd_command m c (64 * r) Hc ltac:(lia)) as (fsr & m1 & word & C & E1 & K).
    rewrite (bind_some _ _ _ _ _ _ C).
    destruct (Z.land fsr EEFC_ERROR_FLAGS =? SUCCESS) eqn:Est; cbn [negb].
    + assert (W : wrap16 (64 * r + 64) = 64 * (r + 1))
        by (unfold wrap16; rewrite Z.mod_small by lia; lia).
      rewrite W.
      destruct (IH fuel (r + 1) er m1 ltac:(lia) Her ltac:(lia) ltac:(lia))
        as (st & m' & t & k & R & E2 & Hk & Kt & Hs).
      rewrite R. exists st, m', ([IapCall (efc_index (efc m)) word;
                                  RegLoad (EFC_REG (efc m) EEFC_FSR) fsr] ++ t), (S k).
      split; [reflexivity|]. split; [congruence|]. split; [lia|].
      split.
      * cbn [app commands_issued]. rewrite K, Kt, region_commands_cons. reflexivity.
      * cbn [app no_error_status forallb status_ok].
        change (Z.land fsr EEFC_ERROR_FLAGS =? 0) with (Z.land fsr EEFC_ERROR_FLAGS =? SUCCESS).
        rewrite Est. cbn [andb]. fold (no_error_status t).
        destruct (no_error_status t).
        -- destruct Hs as [-> ->]. split; reflexivity.
        -- destruct Hs as (t0 & e & v1 & v2 & -> & N0 & V1 & V2).
           exists ([IapCall (efc_index (efc m)) word;
                    RegLoad (EFC_REG (efc m) EEFC_FSR) fsr] ++ t0), e, v1, v2.
           split; [reflexivity|]. split; [|split; assumption].
           cbn [app no_error_status forallb status_ok].
           change (Z.land fsr EEFC_ERROR_FLAGS =? 0)
             with (Z.land fsr EEFC_ERROR_FLAGS =? SUCCESS).
           rewrite Est. exact N0.
    + cbv [bind get_efc rd ret]. cbv beta iota zeta. rewrite E1.
      do 2 eexists. eexists. exists 1%nat.
      split; [reflexivity|]. split; [exact E1|]. split; [lia|].
      split.
      * cbn [app commands_issued]. rewrite K, region_commands_cons. reflexivity.
      * cbn [app no_error_status forallb status_ok].
        change (Z.land fsr EEFC_ERROR_FLAGS =? 0) with (Z.land fsr EEFC_ERROR_FLAGS =? SUCCESS).
        rewrite Est. cbn [andb].
        eexists [IapCall (efc_index (efc m)) word], (efc m), fsr, _.
        split; [reflexivity|]. split; [reflexivity|]. split; [|reflexivity].
        apply Z.eqb_neq in Est. exact Est.
Qed.

Lemma region_pages_run (m : machine hw) c start_addr end_addr :
  0 <= c < 2 ^ 8 ->
  within_one_bank start_addr end_addr ->
  let first := start_region_of start_addr in
  let n := Z.to_nat (end_region_of start_addr end_addr - first + 1) in
  exists st m' t k,
    region_pages c start_addr end_addr m = Some (st, m', t)
    /\ efc m' = bank_efc start_addr
    /\ (k <= n)%nat
    /\ commands_issued t = region_commands c first k
    /\ if no_error_status t then st = SUCCESS /\ k = n
       else reports_second_status_read st t.
Proof.
  intros Hc H first n.
  destruct (region_pages_arith start_addr end_addr H) as (A1 & A2 & A3 & A4 & A5 & A6).
  fold first in A1, A2, A5.
  unfold region_pages. rewrite A4, A5, A6.
  change (wrap16 (IFLASH_LOCK_REGION_SIZE / IFLASH_PAGE_SIZE)) with 64.
  rewrite (bind_some (set_efc (bank_efc start_addr)) _ m tt
                     (with_efc m (bank_efc start_addr)) []) by reflexivity.
  destruct (region_loop_run c Hc n 1025 first (end_region_of start_addr end_addr)
                            (with_efc m (bank_efc start_addr)))
    as (st & m' & t & k & R & E & Hk & K & Hs); try (unfold n; lia).
  rewrite R. exists st, m', t, k. cbn [app]. repeat split; assumption.
Qed.

(** X8.  For a range inside one bank, [lock] and [unlock] select the
    controller of that bank and always return.  The commands of the run
    are set-lock-bit (clear-lock-bit) commands for the regions of the
    range in ascending order, from the region of the start address on,
    each with the first page of its region as argument.  When no status
    read shows an error there is one for every region up to that of the
    end address and the result is [SUCCESS]; otherwise the run stops after
    the command that failed, reads the status register a second time and
    returns the error flags of that second read. *)
Theorem lock_unlock_one_command_per_region (m : machine hw) (start_addr end_addr : Z) :
  within_one_bank start_addr end_addr ->
  let first := start_region_of start_addr in
  let n := Z.to_nat (end_region_of start_addr end_addr - first + 1) in
  (exists st m' t k,
     lock start_addr end_addr m = Some (st, m', t)
     /\ efc m' = bank_efc start_addr
     /\ (k <= n)%nat
     /\ commands_issued t = region_commands EFC_FCMD_SLB first k
     /\ if no_error_status t then st = SUCCESS /\ k = n
        else reports_second_status_read st t)
  /\
  (exists st m' t k,
     unlock start_addr end_addr m = Some (st, m', t)
     /\ efc m' = bank_efc start_addr
     /\ (k <= n)%nat
     /\ commands_issued t = region_commands EFC_FCMD_CLB first k
     /\ if no_error_status t then st = SUCCESS /\ k = n
        else reports_second_status_read st t).
Proof.
  intros H first n.
  split; [apply (region_pages_run m EFC_FCMD_SLB) | apply (region_pages_run m EFC_FCMD_CLB)];
    try exact H; unfold EFC_FCMD_SLB, EFC_FCMD_CLB; lia.
Qed.

(** X9.  [lock] and [unlock] do not compare their two addresses.  When
    the end address lies in an earlier lock region of the bank than the
    start address, they select the controller of the bank, issue no
    command, touch no register and return [SUCCESS]. *)
Theorem lock_unlock_backward_range_does_nothing
        (m : machine hw) (start_addr end_addr : Z) :
  same_bank start_addr end_addr ->
  end_region_of start_addr end_addr < start_region_of start_addr ->
  lock start_addr end_addr m = Some (SUCCESS, with_efc m (bank_efc start_addr), [])
  /\ unlock start_addr end_addr m = Some (SUCCESS, with_efc m (bank_efc start_addr), []).
Proof.
  intros H Hlt.
  destruct (region_pages_arith_any start_addr end_addr H)
    as (A1 & A2 & _ & _ & A4 & A5 & A6).
  assert (G : forall c, region_pages c start_addr end_addr m =
                        Some (SUCCESS, with_efc m (bank_efc start_addr), [])).
  { intros c. unfold region_pages. rewrite A4, A5, A6.
    rewrite (bind_some (set_efc (bank_efc start_addr)) _ m tt
                       (with_efc m (bank_efc start_addr)) []) by reflexivity.
    rewrite region_loop_stop by (apply Z.ltb_ge; lia). reflexivity. }
  split; apply G.
Qed.

(** X10.  When the get-lock-bits command of [islocked] fails, the result
    register is not read: the run is that command and a second read of
    the status register, whose error flags are returned in the place of
    the number of locked regions. *)
Theorem islocked_failure_reports_second_status_read
        (m m1 : machine hw) (start_addr end_addr st : Z) (t1 : list event) :
  cmd EFC_FCMD_GLB 0 (with_efc m (bank_efc start_addr)) = Some (st, m1, t1) ->
  st <> SUCCESS ->
  exists res m' t,
    islocked start_addr end_addr m = Some (res, m', t)
    /\ reports_second_status_read res t
    /\ commands_issued t = [(EFC_FCMD_GLB, 0)]
    /\ length t = 3%nat
    /\ efc m' = bank_efc start_addr.
Proof.
  intros C Hst. unfold islocked.
  rewrite (bind_some (set_efc (bank_efc start_addr)) _ m tt
                     (with_efc m (bank_efc start_addr)) []) by reflexivity.
  rewrite (bind_some _ _ _ _ _ _ C).
  rewrite cmd_run in C. injection C as <- <- <-.
  apply Z.eqb_neq in Hst. rewrite Hst. cbn [negb].
  cbv [bind get_efc rd ret]. cbv beta iota zeta. fields.
  do 3 eexists. split; [reflexivity|]. cbn [app]. split.
  - eexists [_], _, _, _. split; [reflexivity|]. split; [reflexivity|].
    split; [|reflexivity]. apply Z.eqb_neq. exact Hst.
  - repeat split.
Qed.

(** *** Constructor and destructor *)

(** The word the destructor builds from an access mode and a wait-state
    count saved by the constructor. *)
Lemma saved_mode_word a c :
  Z.lor (Z.land c EEFC_FMR_FAM)
        (EEFC_FMR_FWS (Z.shiftr (Z.land a EEFC_FMR_FWS_Msk) EEFC_FMR_FWS_Pos)) =
  bitfield_set 8 4 (bitfield_get 8 4 a) (bitfield_set 24 1 (bitfield_get 24 1 c) 0).
Proof.
  rewrite wait_state_extract, <- wait_state_insert. f_equal.
  change EEFC_FMR_FAM with (Z.shiftl (Z.ones 1) 24).
  change EEFC_FMR_FWS_Msk with (Z.shiftl (Z.ones 4) 8).
  apply Z.bits_inj'. intros n Hn.
  rewrite !Z.land_spec, wrap32_testbit, Z.lnot_spec, bitfield_set_testbit,
    !field_mask_testbit by lia.
  rewrite Z.bits_0, andb_false_r.
  destruct (Z.leb_spec 24 n); destruct (Z.ltb_spec n (24 + 1)); cbn [andb].
  - assert (n = 24) by lia. subst n.
    rewrite bitfield_get_testbit by lia. cbn. rewrite andb_true_r. reflexivity.
  - rewrite andb_false_r. reflexivity.
  - rewrite andb_false_r. reflexivity.
  - rewrite andb_false_r. reflexivity.
Qed.

(** X11.  The constructor selects controller 0, reads the mode register
    of each controller twice (wait states first, access mode second),
    sets six wait states and 128-bit access in both, and empties the two
    caches.  The destructor then stores into each mode register the
    wait-state field and the access-mode bit the constructor read there,
    with every other bit of the register zero. *)
Theorem destructor_writes_back_saved_modes (m0 : machine hw) :
  exists m t s v a b c d,
    FlashTools_ctor m0 = Some (tt, m, t)
    /\ t = [RegLoad SCB_SHCSR s; RegStore SCB_SHCSR (Z.lor s SCB_SHCSR_MEMFAULTENA_Msk);
            MemLoad 4 IAP_ENTRY_ADDRESS v;
            RegLoad (EFC_REG EFC0 EEFC_FMR) a; RegLoad (EFC_REG EFC1 EEFC_FMR) b;
            RegLoad (EFC_REG EFC0 EEFC_FMR) c; RegLoad (EFC_REG EFC1 EEFC_FMR) d;
            RegStore (EFC_REG EFC0 EEFC_FMR) 0x600; RegStore (EFC_REG EFC1 EEFC_FMR) 0x600]
    /\ efc m = EFC0
    /\ uniqueID m = [0; 0; 0; 0]
    /\ flash_descriptor m = [0; 0; 0; 0; 0xFFFFFFFF]
    /\ page_buffer m = page_buffer m0
    /\ exists m' w0 w1,
         FlashTools_dtor m =
         Some (tt, m', [RegStore (EFC_REG EFC0 EEFC_FMR) w0;
                        RegStore (EFC_REG EFC1 EEFC_FMR) w1])
         /\ bitfield_get 8 4 w0 = bitfield_get 8 4 a
         /\ bitfield_get 24 1 w0 = bitfield_get 24 1 c
         /\ bitfield_get 0 8 w0 = 0 /\ bitfield_get 12 12 w0 = 0 /\ bitfield_get 25 7 w0 = 0
         /\ bitfield_get 8 4 w1 = bitfield_get 8 4 b
         /\ bitfield_get 24 1 w1 = bitfield_get 24 1 d
         /\ bitfield_get 0 8 w1 = 0 /\ bitfield_get 12 12 w1 = 0 /\ bitfield_get 25 7 w1 = 0.
Proof.
  do 8 eexists. split; [reflexivity|].
  split; [reflexivity|]. split; [reflexivity|]. split; [reflexivity|].
  split; [reflexivity|]. split; [reflexivity|].
  do 3 eexists. split; [reflexivity|].
  fields. cbn [with_saved_modes FWS0 FWS1 FAM0 FAM1].
  rewrite !saved_mode_word.
  assert (G2 : forall p w x, 0 <= w -> bitfield_get p w x mod 2 ^ w = bitfield_get p w x).
  { intros p w x Hw. unfold bitfield_get. rewrite Z.land_ones by lia.
    apply Z.mod_mod. apply Z.pow_nonzero; lia. }
  repeat split; read_field; apply G2; lia.
Qed.

(** *** One controller at a time *)

Lemma efc_eqb_refl e : efc_eqb e e = true.
Proof. destruct e; reflexivity. Qed.

Lemma so_ret e {A} (a : A) : stays_on (hw := hw) e (ret a).
Proof. intros m b m' t He H. injection H as _ <- <-. split; [exact He | reflexivity]. Qed.

Lemma so_hang e {A} : stays_on e (@hang hw A).
Proof. intros m b m' t He H. discriminate. Qed.

Lemma so_bind e {A B} (c : M hw A) (f : A -> M hw B) :
  stays_on e c -> (forall a, stays_on e (f a)) -> stays_on e (bind c f).
Proof.
  intros Hc Hf m b m' t He H.
  apply bind_inv in H. destruct H as (a & m1 & t1 & b' & m2 & t2 & H1 & H2 & E).
  injection E as -> -> ->.
  destruct (Hc _ _ _ _ He H1) as [E1 F1]. destruct (Hf _ _ _ _ _ E1 H2) as [E2 F2].
  split; [exact E2|]. rewrite forallb_app, F1, F2. reflexivity.
Qed.

(** [efc->...]: the controller the code names is the selected one. *)
Lemma so_get_efc e {B} (f : efc_id -> M hw B) :
  stays_on e (f e) -> stays_on e (bind get_efc f).
Proof.
  intros Hf m b m' t He H.
  apply bind_inv in H. destruct H as (a & m1 & t1 & b' & m2 & t2 & H1 & H2 & E).
  injection E as -> -> ->. injection H1 as <- <- <-. rewrite He in H2.
  exact (Hf _ _ _ _ He H2).
Qed.

Lemma so_rd e r : stays_on (hw := hw) e (rd (EFC_REG e r)).
Proof.
  intros m b m' t He H. injection H as _ <- <-. split; [exact He|].
  cbn. rewrite efc_eqb_refl. reflexivity.
Qed.

Lemma so_wr e r v : stays_on (hw := hw) e (wr (EFC_REG e r) v).
Proof.
  intros m b m' t He H. injection H as _ <- <-. split; [exact He|].
  cbn. rewrite efc_eqb_refl. reflexivity.
Qed.

Lemma so_call_IAP e w : stays_on (hw := hw) e (call_IAP (efc_index e) w).
Proof.
  intros m b m' t He H. injection H as _ <- <-. split; [exact He|].
  destruct e; reflexivity.
Qed.

Lemma so_load e w a : stays_on (hw := hw) e (load w a).
Proof. intros m b m' t He H. injection H as _ <- <-. split; [exact He | reflexivity]. Qed.

Lemma so_store32 e a v : stays_on (hw := hw) e (store32 a v).
Proof. intros m b m' t He H. injection H as _ <- <-. split; [exact He | reflexivity]. Qed.

Lemma so_get_uniqueID e : stays_on (hw := hw) e get_uniqueID.
Proof. intros m b m' t He H. injection H as _ <- <-. split; [exact He | reflexivity]. Qed.

Lemma so_set_uniqueID e u : stays_on (hw := hw) e (set_uniqueID u).
Proof. intros m b m' t He H. injection H as _ <- <-. split; [exact He | reflexivity]. Qed.

Lemma so_get_flash_descriptor e : stays_on (hw := hw) e get_flash_descriptor.
Proof. intros m b m' t He H. injection H as _ <- <-. split; [exact He | reflexivity]. Qed.

Lemma so_set_flash_descriptor e d : stays_on (hw := hw) e (set_flash_descriptor d).
Proof. intros m b m' t He H. injection H as _ <- <-. split; [exact He | reflexivity]. Qed.

Lemma so_get_page_buffer e : stays_on (hw := hw) e get_page_buffer.
Proof. intros m b m' t He H. injection H as _ <- <-. split; [exact He | reflexivity]. Qed.

Lemma so_set_page_buffer e b : stays_on (hw := hw) e (set_page_buffer b).
Proof. intros m c m' t He H. injection H as _ <- <-. split; [exact He | reflexivity]. Qed.

Create HintDb so discriminated.
#[local] Hint Resolve so_ret so_hang so_rd so_wr so_call_IAP so_load so_store32
  so_get_uniqueID so_set_uniqueID so_get_flash_descriptor so_set_flash_descriptor
  so_get_page_buffer so_set_page_buffer : so.

Ltac so_auto :=
  repeat first
    [ solve [auto with so]
    | match goal with
      | |- stays_on _ (bind get_efc _) => apply so_get_efc
      | |- stays_on _ (bind _ _) => apply so_bind; [| intros ? ]
      | |- stays_on _ (if ?c then _ else _) => destruct c
      | |- stays_on _ (let '(_, _) := ?p in _) => destruct p
      | |- stays_on _ (match ?p with Some _ => _ | None => _ end) => destruct p
      end ].

Lemma so_cmd e c a : stays_on (hw := hw) e (cmd c a).
Proof. unfold cmd. so_auto. Qed.

Lemma so_getfws e : stays_on (hw := hw) e getfws.
Proof. unfold getfws. so_auto. Qed.

Lemma so_setfws e v : stays_on (hw := hw) e (setfws v).
Proof. unfold setfws. so_auto. Qed.

Lemma so_FRR_bit e k : stays_on (hw := hw) e (FRR_bit k).
Proof. unfold FRR_bit. so_auto. Qed.

#[local] Hint Resolve so_cmd so_getfws so_setfws so_FRR_bit : so.

Lemma so_skip_groups e fuel : forall sr involved stat,
  stays_on (hw := hw) e (skip_groups fuel sr involved stat).
Proof.
  induction fuel as [|fuel IH]; intros sr involved stat; cbn [skip_groups]; so_auto.
Qed.

Lemma so_count_locked e idx : forall bit stat locked,
  stays_on (hw := hw) e (count_locked idx bit stat locked).
Proof.
  induction idx as [|idx IH]; intros bit stat locked; cbn [count_locked]; so_auto.
Qed.

Lemma so_region_loop e fuel : forall c sp ep pr,
  stays_on (hw := hw) e (region_loop fuel c sp ep pr).
Proof.
  induction fuel as [|fuel IH]; intros c sp ep pr; cbn [region_loop]; so_auto.
Qed.

Lemma so_read_descriptor e n : forall i, stays_on (hw := hw) e (read_descriptor n i).
Proof. induction n as [|n IH]; intros i; cbn [read_descriptor]; so_auto. Qed.

Lemma so_wait_FRDY e fuel b : stays_on (hw := hw) e (wait_FRDY fuel b).
Proof. induction fuel as [|fuel IH]; cbn [wait_FRDY]; so_auto. Qed.

Lemma so_copy_unique_id e n : forall i base buf,
  stays_on (hw := hw) e (copy_unique_id n i base buf).
Proof. induction n as [|n IH]; intros i base buf; cbn [copy_unique_id]; so_auto. Qed.

Lemma so_load_bytes e n : forall a, stays_on (hw := hw) e (load_bytes n a).
Proof. induction n as [|n IH]; intros a; cbn [load_bytes]; so_auto. Qed.

Lemma so_store_words e n : forall t a, stays_on (hw := hw) e (store_words n t a).
Proof. induction n as [|n IH]; intros t a; cbn [store_words]; so_auto. Qed.

#[local] Hint Resolve so_skip_groups so_count_locked so_region_loop so_read_descriptor
  so_wait_FRDY so_copy_unique_id so_load_bytes so_store_words : so.

Lemma so_flashcpy_parts e data parts : forall dest pd,
  stays_on (hw := hw) e (flashcpy_parts data parts dest pd).
Proof.
  induction parts as [|[i size] parts IH]; intros dest pd; cbn [flashcpy_parts]; so_auto.
Qed.

#[local] Hint Resolve so_flashcpy_parts : so.

Lemma so_flashcpy e pa data offset ws pad :
  stays_on (hw := hw) e (flashcpy pa data offset ws pad).
Proof. unfold flashcpy. destruct data; so_auto. Qed.

#[local] Hint Resolve so_flashcpy : so.

Lemma so_write_pages e fuel : forall s base p off data size er lk,
  stays_on (hw := hw) e (write_pages fuel s base p off data size er lk).
Proof.
  induction fuel as [|fuel IH]; intros s base p off data size er lk;
    cbn [write_pages]; so_auto.
Qed.

#[local] Hint Resolve so_write_pages : so.

Lemma ao_ret e {A} (a : A) : addresses_only (hw := hw) e (ret a).
Proof. intros m b m' t H. injection H as _ _ <-. reflexivity. Qed.

Lemma ao_bind e {A B} (c : M hw A) (f : A -> M hw B) :
  addresses_only e c -> (forall a, addresses_only e (f a)) -> addresses_only e (bind c f).
Proof.
  intros Hc Hf m b m' t H.
  apply bind_inv in H. destruct H as (a & m1 & t1 & b' & m2 & t2 & H1 & H2 & E).
  injection E as -> -> ->.
  rewrite forallb_app, (Hc _ _ _ _ H1), (Hf _ _ _ _ _ H2). reflexivity.
Qed.

(** [efc = ...; ...]: after the selection the rest stays on that controller. *)
Lemma ao_select e {A} (k : M hw A) :
  stays_on e k -> addresses_only e (bind (set_efc e) (fun _ => k)).
Proof.
  intros Hk m b m' t H.
  apply bind_inv in H. destruct H as (a & m1 & t1 & b' & m2 & t2 & H1 & H2 & E).
  injection E as -> -> ->. injection H1 as _ <- <-.
  exact (proj2 (Hk (with_efc m e) _ _ _ eq_refl H2)).
Qed.

Lemma bank_of_region_start s :
  bank_efc (wrap32 (s - s mod IFLASH_LOCK_REGION_SIZE)) = bank_efc (wrap32 s).
Proof.
  unfold bank_efc, wrap32. change IFLASH_LOCK_REGION_SIZE with 16384.
  change IFLASH1_ADDR with 786432.
  assert (E : (s - s mod 16384) mod 2 ^ 32 = s mod 2 ^ 32 - (s mod 2 ^ 32) mod 16384).
  { pose proof (Z.div_mod s (2 ^ 32) ltac:(lia)) as D.
    pose proof (Z.mod_pos_bound s (2 ^ 32) ltac:(lia)) as B.
    set (x := s mod 2 ^ 32) in *. set (q := s / 2 ^ 32) in *.
    assert (M : s mod 16384 = x mod 16384).
    { rewrite D. replace (2 ^ 32 * q + x) with (x + (262144 * q) * 16384) by lia.
      apply Z.mod_add. lia. }
    rewrite M.
    pose proof (Z.mod_pos_bound x 16384 ltac:(lia)) as Bx.
    replace (s - x mod 16384) with ((x - x mod 16384) + q * 2 ^ 32) by lia.
    rewrite Z.mod_add by lia. apply Z.mod_small.
    pose proof (Z.mod_le x 16384 ltac:(lia) ltac:(lia)) as Lx.
    clear D M. clearbody x q. lia. }
  rewrite E. set (x := s mod 2 ^ 32). clearbody x.
  pose proof (Z.div_mod x 16384 ltac:(lia)) as D.
  pose proof (Z.mod_pos_bound x 16384 ltac:(lia)) as B.
  destruct (Z.leb_spec 786432 x); destruct (Z.leb_spec 786432 (x - x mod 16384));
    try reflexivity; lia.
Qed.

Lemma ao_erase addr : addresses_only (hw := hw) (bank_efc addr) (erase addr).
Proof. unfold erase. apply ao_select. so_auto. Qed.

Lemma ao_islocked s e : addresses_only (hw := hw) (bank_efc s) (islocked s e).
Proof. unfold islocked. apply ao_select. so_auto. Qed.

Lemma ao_region_pages c s e :
  addresses_only (hw := hw) (bank_efc (wrap32 s)) (region_pages c s e).
Proof.
  unfold region_pages. rewrite bank_of_region_start. apply ao_select. so_auto.
Qed.

Lemma ao_getFlashDescriptor addr :
  addresses_only (hw := hw) (bank_efc addr) (getFlashDescriptor addr).
Proof.
  unfold getFlashDescriptor. destruct (IFLASH_LAST_PAGE_ADDRESS <? addr); [apply ao_ret|].
  apply ao_select. so_auto.
Qed.

Lemma ao_descriptor_for addr :
  addresses_only (hw := hw) (bank_efc addr) (descriptor_for addr).
Proof.
  unfold descriptor_for. intros m b m' t H.
  apply bind_inv in H. destruct H as (d & m1 & t1 & b' & m2 & t2 & H1 & H2 & E).
  injection E as -> -> ->. injection H1 as <- <- <-. cbn [app].
  destruct (cell (flash_descriptor m) FLASH_DESCRIPTOR_SIZE =? addr).
  - cbv [ret] in H2. injection H2 as _ _ <-. reflexivity.
  - exact (ao_getFlashDescriptor addr _ _ _ _ H2).
Qed.

Lemma ao_getter addr (f : list Z -> Z) :
  addresses_only (hw := hw) (bank_efc addr)
    (ok <- descriptor_for addr ;;
     if ok then d <- get_flash_descriptor ;; ret (f d) else ret INVALID).
Proof.
  apply ao_bind; [apply ao_descriptor_for|]. intros [|].
  - intros m b m' t H. cbv [bind get_flash_descriptor ret] in H.
    injection H as _ _ <-. reflexivity.
  - apply ao_ret.
Qed.

Lemma ao_write sizeof_Type addr data data_size er lk :
  addresses_only (hw := hw) (bank_efc addr) (write sizeof_Type addr data data_size er lk).
Proof.
  unfold write.
  destruct (Z.leb_spec (IFLASH_LAST_PAGE_ADDRESS + IFLASH_PAGE_SIZE) addr) as [|Hhi];
    [apply ao_ret|].
  destruct (Z.ltb_spec addr IFLASH_ADDR) as [|Hlo]; [apply ao_ret|].
  cbn [orb]. destruct (negb (Z.land addr 3 =? 0)); [apply ao_ret|].
  assert (W : wrap32 addr = addr).
  { apply Z.mod_small. unfold IFLASH_ADDR, IFLASH0_ADDR in Hlo.
    change (IFLASH_LAST_PAGE_ADDRESS + IFLASH_PAGE_SIZE) with 1048576 in Hhi. lia. }
  apply ao_bind.
  - unfold locked_and_stuck. apply ao_bind; [apply ao_islocked|]. intros locked.
    destruct (locked =? 0); [apply ao_ret|].
    apply ao_bind; [|intros st; apply ao_ret].
    unfold unlock. pose proof (ao_region_pages EFC_FCMD_CLB addr
                                 (wrap32 (addr + data_size - 1))) as U.
    rewrite W in U. exact U.
  - intros [|]; [apply ao_ret|]. apply ao_select. so_auto.
Qed.

(** X12.  Every operation that takes a flash address works on the
    controller of the bank of that address and on no other: in a run that
    returns, each command and each register access of [erase], [islocked],
    [lock], [unlock], [write] and the seven descriptor getters goes to that
    controller ([lock] and [unlock] decide by the region start of the
    address taken as a 32-bit value), and no operation touches the system
    control block. *)
Theorem address_operations_use_the_bank_controller
        (addr end_addr sizeof_Type data_size : Z) (data : option (list Z))
        (er lk : bool) :
  addresses_only (hw := hw) (bank_efc addr) (erase addr)
  /\ addresses_only (hw := hw) (bank_efc addr) (islocked addr end_addr)
  /\ addresses_only (hw := hw) (bank_efc (wrap32 addr)) (lock addr end_addr)
  /\ addresses_only (hw := hw) (bank_efc (wrap32 addr)) (unlock addr end_addr)
  /\ addresses_only (hw := hw) (bank_efc addr)
       (write sizeof_Type addr data data_size er lk)
  /\ Forall (fun gf : (Z -> M hw Z) * (list Z -> Z) =>
               addresses_only (bank_efc addr) (fst gf addr))
            descriptor_getters.
Proof.
  split; [apply ao_erase|]. split; [apply ao_islocked|].
  split; [apply ao_region_pages|]. split; [apply ao_region_pages|].
  split; [apply ao_write|].
  unfold descriptor_getters.
  repeat apply Forall_cons; try apply Forall_nil; cbn [fst]; apply ao_getter.
Qed.

(** X13.  The operations without an address argument use the controller
    that is selected and leave it selected: in a run that returns, every
    command and register access of the GPNVM operations, of
    [getUniqueID] and of the wait-state and access-mode members goes to
    that controller. *)
Theorem other_operations_use_the_selected_controller
        (e : efc_id) (fuel : nat) (uBuff : option (list Z)) (v : Z) :
  Forall (stays_on (hw := hw) e)
         [setSecurityBit; setBootModeSAMBA; setBootModeFlash; setBootFlash0;
          setBootFlash1; getSecurityBit; getBootSelectBit; getFlashSelectBit;
          getfws; getfam]
  /\ stays_on (hw := hw) e (getUniqueID fuel uBuff)
  /\ stays_on (hw := hw) e (setfws v)
  /\ stays_on (hw := hw) e (setfam v).
Proof.
  split; [|split; [|split]].
  - repeat apply Forall_cons; try apply Forall_nil;
      unfold setSecurityBit, setBootModeSAMBA, setBootModeFlash, setBootFlash0,
        setBootFlash1, getSecurityBit, getBootSelectBit, getFlashSelectBit, getfam;
      so_auto.
  - unfold getUniqueID. destruct uBuff; so_auto.
  - so_auto.
  - unfold setfam. so_auto.
Qed.

(** *** The page loop of [write] *)

Lemma mo_ret {A} (a : A) : memory_only (hw := hw) (ret a).
Proof. intros m. exists a, m, []. repeat split. Qed.

Lemma mo_bind {A B} (c : M hw A) (f : A -> M hw B) :
  memory_only c -> (forall a, memory_only (f a)) -> memory_only (bind c f).
Proof.
  intros Hc Hf m. destruct (Hc m) as (a & m1 & t1 & H1 & E1 & F1).
  destruct (Hf a m1) as (b & m2 & t2 & H2 & E2 & F2).
  exists b, m2, (t1 ++ t2). rewrite (bind_some _ _ _ _ _ _ H1), H2.
  split; [reflexivity|]. split; [congruence|].
  rewrite forallb_app, F1, F2. reflexivity.
Qed.

Lemma mo_load w a : memory_only (hw := hw) (load w a).
Proof. intros m. do 3 eexists. split; [reflexivity|]. repeat split. Qed.

Lemma mo_store32 a v : memory_only (hw := hw) (store32 a v).
Proof. intros m. do 3 eexists. split; [reflexivity|]. repeat split. Qed.

Lemma mo_get_page_buffer : memory_only (hw := hw) get_page_buffer.
Proof. intros m. do 3 eexists. split; [reflexivity|]. repeat split. Qed.

Lemma mo_set_page_buffer b : memory_only (hw := hw) (set_page_buffer b).
Proof. intros m. do 3 eexists. split; [reflexivity|]. repeat split. Qed.

Create HintDb mo discriminated.
#[local] Hint Resolve mo_ret mo_load mo_store32 mo_get_page_buffer mo_set_page_buffer : mo.

Ltac mo_auto :=
  repeat first
    [ solve [auto with mo]
    | match goal with
      | |- memory_only (bind _ _) => apply mo_bind; [| intros ? ]
      | |- memory_only (if ?c then _ else _) => destruct c
      end ].

Lemma mo_load_bytes n : forall a, memory_only (hw := hw) (load_bytes n a).
Proof. induction n as [|n IH]; intros a; cbn [load_bytes]; mo_auto. Qed.

Lemma mo_store_words n : forall t a, memory_only (hw := hw) (store_words n t a).
Proof. induction n as [|n IH]; intros t a; cbn [store_words]; mo_auto. Qed.

#[local] Hint Resolve mo_load_bytes mo_store_words : mo.

Lemma mo_flashcpy_parts data parts : forall dest pd,
  memory_only (hw := hw) (flashcpy_parts data parts dest pd).
Proof.
  induction parts as [|[i size] parts IH]; intros dest pd; cbn [flashcpy_parts]; mo_auto.
Qed.

#[local] Hint Resolve mo_flashcpy_parts : mo.

(** [flashcpy] always returns, whatever it is given, and issues no
    command and reads no register. *)
Lemma mo_flashcpy pa data offset ws pad :
  memory_only (hw := hw) (flashcpy pa data offset ws pad).
Proof. unfold flashcpy. destruct data; mo_auto. Qed.

Lemma memory_access_facts t :
  forallb is_memory_access t = true ->
  commands_issued t = [] /\ no_error_status t = true.
Proof.
  induction t as [|ev t IH]; [split; reflexivity|].
  cbn [forallb]. intros H. apply andb_prop in H. destruct H as [H1 H2].
  destruct (IH H2) as [C N].
  destruct ev; try discriminate H1; cbn [commands_issued no_error_status forallb status_ok];
    fold (no_error_status t); rewrite ?C, ?N; split; reflexivity.
Qed.

Lemma page_commands_cons c first n :
  page_commands c first (S n) = (c, first) :: page_commands c (first + 1) n.
Proof.
  unfold page_commands. cbn [seq map]. rewrite Z.add_0_r. f_equal.
  rewrite <- seq_shift, map_map. apply map_ext. intros i. f_equal. lia.
Qed.

Lemma page_command_range er lk : 0 <= page_command er lk < 2 ^ 8.
Proof.
  destruct er, lk; cbv [page_command andb EFC_FCMD_EWPL EFC_FCMD_EWP EFC_FCMD_WP]; lia.
Qed.

Lemma pages_touched_step offset size :
  0 <= offset < IFLASH_PAGE_SIZE -> 0 < size ->
  let write_size := if IFLASH_PAGE_SIZE - offset <? size
                    then IFLASH_PAGE_SIZE - offset else size in
  0 < write_size <= size
  /\ pages_touched offset size = S (pages_touched 0 (size - write_size)).
Proof.
  change IFLASH_PAGE_SIZE with 256. intros Ho Hs. unfold pages_touched.
  change IFLASH_PAGE_SIZE with 256.
  destruct (Z.ltb_spec 0 size); [|lia].
  destruct (Z.ltb_spec (256 - offset) size) as [Hlt|Hge]; cbv zeta.
  - split; [lia|].
    destruct (Z.ltb_spec 0 (size - (256 - offset))); [|lia].
    replace (offset + size - 1) with ((size - (256 - offset) - 1) + 1 * 256) by lia.
    rewrite Z.div_add by lia.
    replace (0 + (size - (256 - offset)) - 1) with (size - (256 - offset) - 1) by lia.
    assert (0 <= (size - (256 - offset) - 1) / 256) by (apply Z.div_pos; lia).
    lia.
  - split; [lia|].
    rewrite Z.sub_diag. cbn [Z.ltb Z.compare].
    rewrite Z.div_small by lia. reflexivity.
Qed.

(** The page loop always ends: one page command per page, for
    consecutive page numbers, until one fails. *)
Lemma write_pages_run sizeof_Type base er lk :
  forall (fuel : nat) (p off size : Z) (data : option (list Z)) (m : machine hw),
  0 <= off < IFLASH_PAGE_SIZE -> 0 <= p < 2 ^ 16 -> size < 2 ^ 32 ->
  p + Z.of_nat (pages_touched off size) <= 2 ^ 16 ->
  (Z.to_nat size <= fuel)%nat ->
  exists early m' t k,
    write_pages fuel sizeof_Type base p off data size er lk m = Some (early, m', t)
    /\ efc m' = efc m
    /\ (k <= pages_touched off size)%nat
    /\ commands_issued t = page_commands (page_command er lk) p k
    /\ if no_error_status t then early = None /\ k = pages_touched off size
       else exists st, early = Some st /\ reports_second_status_read st t.
Proof.
  induction fuel as [|fuel IH]; intros p off size data m Hoff Hp Hsize Hn Hfuel.
  - assert (E : (0 <? size) = false) by (apply Z.ltb_ge; lia).
    cbn [write_pages]. rewrite E. exists None, m, [], 0%nat.
    unfold pages_touched. rewrite E. repeat split. lia.
  - cbn [write_pages]. destruct (Z.ltb_spec 0 size) as [Hpos|Hle].
    + destruct (pages_touched_step off size Hoff Hpos) as [Hws Hstep].
      cbv zeta in Hws, Hstep.
      assert (W : wrap32 (IFLASH_PAGE_SIZE - off) = IFLASH_PAGE_SIZE - off).
      { apply Z.mod_small. change IFLASH_PAGE_SIZE with 256 in *. lia. }
      rewrite W.
      set (write_size := if IFLASH_PAGE_SIZE - off <? size
                         then IFLASH_PAGE_SIZE - off else size) in *.
      match goal with
      | |- context [flashcpy ?pa ?d ?o ?w ?pad] =>
          destruct (mo_flashcpy pa d o w pad m) as (r & m1 & t1 & F & E1 & M1)
      end.
      rewrite (bind_some _ _ _ _ _ _ F).
      destruct (memory_access_facts t1 M1) as [C1 N1].
      destruct (cmd_command m1 (page_command er lk) p (page_command_range er lk) Hp)
        as (fsr & m2 & word & C & E2 & K).
      rewrite (bind_some _ _ _ _ _ _ C).
      assert (N2 : forall rest,
                 no_error_status
                   (t1 ++ [IapCall (efc_index (efc m1)) word;
                           RegLoad (EFC_REG (efc m1) EEFC_FSR) fsr] ++ rest) =
                 (Z.land fsr EEFC_ERROR_FLAGS =? SUCCESS) && no_error_status rest).
      { intros rest. unfold no_error_status. rewrite forallb_app.
        fold (no_error_status t1). rewrite N1. reflexivity. }
      destruct (Z.land fsr EEFC_ERROR_FLAGS =? SUCCESS) eqn:Est; cbn [negb].
      * assert (W2 : wrap32 (size - write_size) = size - write_size)
          by (apply Z.mod_small; lia).
        rewrite W2.
        assert (Hp' : 0 <= wrap16 (p + 1) < 2 ^ 16) by (apply Z.mod_pos_bound; lia).
        assert (Hn' : wrap16 (p + 1)
                      + Z.of_nat (pages_touched 0 (size - write_size)) <= 2 ^ 16
                      /\ (pages_touched 0 (size - write_size) <> 0%nat ->
                          wrap16 (p + 1) = p + 1)).
        { destruct (pages_touched 0 (size - write_size)) as [|q] eqn:Eq.
          - split; [lia | congruence].
          - assert (wrap16 (p + 1) = p + 1) by (apply Z.mod_small; lia).
            split; [lia | intros _; assumption]. }
        destruct Hn' as [Hn' Hp1].
        destruct (IH (wrap16 (p + 1)) 0 (size - write_size)
                     (advance sizeof_Type data (write_size / sizeof_Type)) m2
                     ltac:(change IFLASH_PAGE_SIZE with 256; lia) Hp' ltac:(lia) Hn'
                     ltac:(lia))
          as (early & m' & t & k & R & E3 & Hk & Kt & Hs).
        rewrite R.
        exists early, m', (t1 ++ [IapCall (efc_index (efc m1)) word;
                                  RegLoad (EFC_REG (efc m1) EEFC_FSR) fsr] ++ t), (S k).
        split; [reflexivity|]. split; [congruence|]. split; [lia|].
        split.
        -- rewrite !commands_issued_app, C1. cbn [app commands_issued].
           rewrite K, Kt, page_commands_cons. f_equal.
           destruct k as [|k]; [reflexivity|]. rewrite Hp1 by lia. reflexivity.
        -- rewrite N2. cbn [andb]. destruct (no_error_status t).
           ++ destruct Hs as [-> ->]. split; [reflexivity | lia].
           ++ destruct Hs as (st & -> & t0 & e & v1 & v2 & -> & N0 & V1 & V2).
              exists st. split; [reflexivity|].
              exists (t1 ++ [IapCall (efc_index (efc m1)) word;
                             RegLoad (EFC_REG (efc m1) EEFC_FSR) fsr] ++ t0), e, v1, v2.
              split; [rewrite <- !app_assoc; reflexivity|].
              split; [|split; assumption].
              rewrite N2. exact N0.
      * cbv [bind get_efc rd ret]. cbv beta iota zeta.
        do 3 eexists. exists 1%nat.
        split; [reflexivity|]. split; [cbn [efc with_dev]; congruence|].
        split; [lia|]. split.
        -- rewrite !commands_issued_app, C1. cbn [app commands_issued].
           rewrite K, page_commands_cons. reflexivity.
        -- rewrite E2, N2. cbn [andb app].
           eexists. split; [reflexivity|].
           eexists (t1 ++ [IapCall (efc_index (efc m1)) word]), (efc m1), fsr, _.
           split; [rewrite <- app_assoc; reflexivity|].
           split; [|split; [apply Z.eqb_neq; exact Est | reflexivity]].
           unfold no_error_status. rewrite forallb_app. fold (no_error_status t1).
           rewrite N1. reflexivity.
    + exists None, m, [], 0%nat.
      assert (E : (0 <? size) = false) by (apply Z.ltb_ge; lia).
      unfold pages_touched. rewrite E. repeat split. lia.
Qed.

Lemma count_locked_returns idx : forall bit stat locked (m : machine hw),
  exists r, count_locked idx bit stat locked m = Some r.
Proof.
  induction idx as [|idx IH]; intros bit stat locked m; cbn [count_locked].
  - eexists. reflexivity.
  - destruct (wrap32 (bit + 1) =? READ_SIZE).
    + cbv [bind get_efc rd]. cbv beta iota zeta.
      match goal with
      | |- context [count_locked idx ?b ?s ?l ?mm] =>
          destruct (IH b s l mm) as [[[r m'] t] ->]
      end.
      eexists. reflexivity.
    + apply IH.
Qed.

(** [islocked] always returns. *)
Lemma islocked_returns (m : machine hw) start_addr end_addr :
  exists r, islocked start_addr end_addr m = Some r.
Proof.
  unfold islocked.
  rewrite (bind_some (set_efc (bank_efc start_addr)) _ m tt
                     (with_efc m (bank_efc start_addr)) []) by reflexivity.
  rewrite (bind_some _ _ _ _ _ _ (cmd_run (with_efc m (bank_efc start_addr)) EFC_FCMD_GLB 0)).
  destruct (negb (_ =? SUCCESS)).
  - eexists. reflexivity.
  - cbv [bind get_efc rd]. cbv beta iota zeta.
    set (sr := region_of (page_of _ start_addr)).
    assert (Hsr : 0 <= sr < 1024) by apply region_bounds.
    match goal with
    | |- context [skip_groups 2048 sr 0 ?stat ?mm] =>
        pose proof (skip_groups_run sr ltac:(lia) (Z.to_nat (sr / 32)) 2048 0 stat mm
                      ltac:(lia)) as S
    end.
    change (32 * 0) with 0 in S. rewrite S.
    + cbv beta iota zeta.
      match goal with
      | |- context [count_locked ?i ?b ?s ?l ?mm] =>
          destruct (count_locked_returns i b s l mm) as [[[r m'] t] ->]
      end.
      eexists. reflexivity.
    + assert (0 <= sr / 32) by (apply Z.div_pos; lia). lia.
    + assert (sr / 32 < 32) by (apply Z.div_lt_upper_bound; lia). lia.
Qed.

Lemma locked_and_stuck_returns (m : machine hw) addr data_size :
  within_one_bank addr (wrap32 (addr + data_size - 1)) ->
  exists r, locked_and_stuck addr data_size m = Some r.
Proof.
  intros H. unfold locked_and_stuck.
  destruct (islocked_returns m addr (wrap32 (addr + data_size - 1))) as [[[n m1] t1] I].
  rewrite (bind_some _ _ _ _ _ _ I).
  destruct (n =? 0); [eexists; reflexivity|].
  destruct (region_pages_run m1 EFC_FCMD_CLB addr (wrap32 (addr + data_size - 1))
              ltac:(unfold EFC_FCMD_CLB; lia) H) as (st & m2 & t2 & k & U & _).
  unfold unlock. rewrite (bind_some _ _ _ _ _ _ U). eexists. reflexivity.
Qed.

(** The page and the offset [write] starts at, and the pages it reaches. *)
Lemma write_pages_arith addr data_size :
  0 < data_size -> within_one_bank addr (addr + data_size - 1) ->
  let first_page := (addr - base_of addr) / IFLASH_PAGE_SIZE in
  let offset := (addr - base_of addr) mod IFLASH_PAGE_SIZE in
  wrap16 first_page = first_page
  /\ wrap16 offset = offset
  /\ 0 <= offset < IFLASH_PAGE_SIZE
  /\ 0 <= first_page < 2 ^ 16
  /\ data_size < 2 ^ 32
  /\ wrap32 (addr + data_size - 1) = addr + data_size - 1
  /\ IFLASH_ADDR <= addr < IFLASH_LAST_PAGE_ADDRESS + IFLASH_PAGE_SIZE
  /\ first_page + Z.of_nat (pages_touched offset data_size) <= 2 ^ 16.
Proof.
  intros Hpos H first_page offset.
  assert (B : 0 <= addr - base_of addr
              /\ addr - base_of addr + data_size - 1 < 262144
              /\ 524288 <= addr /\ addr + data_size - 1 < 1048576).
  { unfold within_one_bank, base_of in *.
    change (IFLASH1_ADDR + IFLASH1_SIZE) with 1048576 in H.
    change IFLASH1_ADDR with 786432 in *. change IFLASH0_ADDR with 524288 in *.
    destruct (Z.leb_spec 786432 addr); lia. }
  destruct B as (B1 & B2 & B3 & B4).
  set (rel := addr - base_of addr) in *.
  change IFLASH_PAGE_SIZE with 256 in *.
  pose proof (Z.div_mod rel 256 ltac:(lia)) as D.
  pose proof (Z.mod_pos_bound rel 256 ltac:(lia)) as Bo.
  fold first_page in D. fold offset in D, Bo.
  assert (Hf : 0 <= first_page < 1024)
    by (split; [apply Z.div_pos; lia | apply Z.div_lt_upper_bound; lia]).
  assert (Hn : first_page + Z.of_nat (pages_touched offset data_size) <= 1024).
  { unfold pages_touched. change IFLASH_PAGE_SIZE with 256.
    destruct (Z.ltb_spec 0 data_size); [|lia].
    assert (0 <= (offset + data_size - 1) / 256) by (apply Z.div_pos; lia).
    assert ((offset + data_size - 1) / 256 < 1024 - first_page)
      by (apply Z.div_lt_upper_bound; lia).
    lia. }
  clearbody first_page offset rel.
  unfold wrap16, wrap32. rewrite !Z.mod_small by lia.
  change IFLASH_ADDR with 524288.
  change (IFLASH_LAST_PAGE_ADDRESS + 256) with 1048576.
  repeat split; lia.
Qed.

(** X14.  [write] with a valid address and a byte range inside one bank
    always returns.  After the lock check (and only if that does not end
    the call with [ERROR]) it reads the wait states, sets six of them and
    issues the page command for consecutive pages, first the page of the
    address.  When no status read shows an error there is one command for
    every page the byte range reaches into, the result is [SUCCESS], and
    the last two accesses put the wait states read at the start back.
    Otherwise the run ends after the command that failed with a second
    read of the status register, whose error flags are returned; the wait
    states are not put back.  Nothing of this depends on the data
    pointer. *)
Theorem write_programs_consecutive_pages
        (m : machine hw) (sizeof_Type addr : Z) (data : option (list Z))
        (data_size : Z) (er lk : bool) :
  Z.land addr 3 = 0 ->
  0 < data_size ->
  within_one_bank addr (addr + data_size - 1) ->
  let first_page := (addr - base_of addr) / IFLASH_PAGE_SIZE in
  let offset := (addr - base_of addr) mod IFLASH_PAGE_SIZE in
  let n := pages_touched offset data_size in
  let FMR := EFC_REG (bank_efc addr) EEFC_FMR in
  exists stuck m1 t_check r m' t_rest,
    locked_and_stuck addr data_size m = Some (stuck, m1, t_check)
    /\ write sizeof_Type addr data data_size er lk m = Some (r, m', t_check ++ t_rest)
    /\ if stuck then r = ERROR /\ t_rest = []
       else
         exists f0 f1 t_pages k,
           (k <= n)%nat
           /\ commands_issued t_pages = page_commands (page_command er lk) first_page k
           /\ let prologue :=
                [RegLoad FMR f0; RegLoad FMR f1;
                 RegStore FMR (bitfield_set 8 4 CHIP_FLASH_WAIT_STATE f1)] in
              if no_error_status t_pages then
                r = SUCCESS /\ k = n
                /\ exists y,
                     t_rest = prologue ++ t_pages
                              ++ [RegLoad FMR y;
                                  RegStore FMR (bitfield_set 8 4 (bitfield_get 8 4 f0) y)]
              else
                t_rest = prologue ++ t_pages
                /\ reports_second_status_read r t_pages.
Proof.
  intros Halign Hpos Hbank first_page offset n FMR.
  destruct (write_pages_arith addr data_size Hpos Hbank)
    as (W1 & W2 & Ho & Hf & Hs & W3 & Hv & Hn).
  fold first_page in W1, Hf, Hn. fold offset in W2, Ho, Hn.
  destruct (locked_and_stuck_returns m addr data_size) as [[[stuck m1] t_check] L];
    [rewrite W3; exact Hbank|].
  exists stuck, m1, t_check.
  unfold write.
  destruct (Z.leb_spec (IFLASH_LAST_PAGE_ADDRESS + IFLASH_PAGE_SIZE) addr); [lia|].
  destruct (Z.ltb_spec addr IFLASH_ADDR); [lia|].
  rewrite Halign. cbn [orb negb Z.eqb]. cbv iota.
  rewrite (bind_some _ _ _ _ _ _ L).
  destruct stuck.
  - do 3 eexists. split; [exact L|]. split; [reflexivity|]. split; reflexivity.
  - rewrite (bind_some (set_efc (bank_efc addr)) _ m1 tt (with_efc m1 (bank_efc addr)) [])
      by reflexivity.
    set (m2 := with_efc m1 (bank_efc addr)).
    rewrite (bind_some _ _ _ _ _ _ (getfws_run m2)).
    change (EFC_REG (efc m2) EEFC_FMR) with FMR.
    set (f0 := wrap32 (fst (reg_load FMR (dev m2)))).
    set (m3 := with_dev m2 _).
    rewrite (bind_some _ _ _ _ _ _ (setfws_run m3 CHIP_FLASH_WAIT_STATE)).
    change (EFC_REG (efc m3) EEFC_FMR) with FMR.
    set (f1 := wrap32 (fst (reg_load FMR (dev m3)))).
    set (m4 := with_dev m3 _).
    change (if IFLASH1_ADDR <=? addr then IFLASH1_ADDR else IFLASH0_ADDR)
      with (base_of addr).
    fold first_page. fold offset. rewrite W1, W2.
    destruct (write_pages_run sizeof_Type (base_of addr) er lk (Z.to_nat data_size)
                              first_page offset data_size data m4 Ho Hf Hs Hn (le_n _))
      as (early & m5 & t_pages & k & R & E5 & Hk & K & Hst).
    rewrite (bind_some _ _ _ _ _ _ R).
    destruct (no_error_status t_pages) eqn:N.
    + destruct Hst as [-> ->].
      rewrite (bind_some _ _ _ _ _ _ (setfws_run m5 _)). unfold ret.
      replace (efc m5) with (bank_efc addr) by (symmetry; exact E5). fold FMR.
      do 3 eexists. split; [exact L|]. split; [reflexivity|].
      exists f0, f1, t_pages, n. split; [lia|]. split; [exact K|].
      cbv zeta. rewrite N. split; [reflexivity|]. split; [reflexivity|].
      eexists. cbn [app]. rewrite ?app_nil_r. reflexivity.
    + destruct Hst as (st & -> & Hrep). unfold ret.
      do 3 eexists. split; [exact L|]. split; [reflexivity|].
      exists f0, f1, t_pages, k. split; [exact Hk|]. split; [exact K|].
      cbv zeta. rewrite N. split; [|exact Hrep].
      cbn [app]. rewrite ?app_nil_r. reflexivity.
Qed.

(** *** The unique identifier *)

(** A busy-wait that returns has read the status register of the selected
    controller, and nothing else, until the ready flag showed the value
    waited for. *)
Lemma wait_FRDY_reads fuel b : forall (m : machine hw) u m' t,
  wait_FRDY fuel b m = Some (u, m', t) ->
  exists vs,
    t = map (RegLoad (EFC_REG (efc m) EEFC_FSR)) vs
    /\ vs <> []
    /\ (Z.land (last vs 0) EEFC_FSR_FRDY =? EEFC_FSR_FRDY) = negb b
    /\ m' = with_dev m (dev m').
Proof.
  induction fuel as [|fuel IH]; intros m u m' t H; [discriminate|].
  cbn [wait_FRDY] in H. cbv [bind get_efc rd] in H. cbv beta iota zeta in H.
  set (v := wrap32 (fst (reg_load (EFC_REG (efc m) EEFC_FSR) (dev m)))) in *.
  destruct (Bool.eqb (Z.land v EEFC_FSR_FRDY =? EEFC_FSR_FRDY) b) eqn:Ev.
  - destruct (wait_FRDY fuel b _) as [[[u1 m1] t1]|] eqn:W; [|discriminate].
    apply IH in W. destruct W as (vs & -> & Hne & Hl & Hm).
    injection H as _ <- <-. exists (v :: vs).
    split; [reflexivity|]. split; [discriminate|].
    split; [|rewrite Hm at 1; reflexivity].
    destruct vs as [|v' vs]; [contradiction|]. exact Hl.
  - cbv [ret] in H. injection H as _ <- <-. exists [v].
    split; [reflexivity|]. split; [discriminate|]. split; [|reflexivity].
    cbn [last]. destruct (Z.land v EEFC_FSR_FRDY =? EEFC_FSR_FRDY), b;
      try reflexivity; discriminate.
Qed.

(** X15.  A call of [getUniqueID] that finds the cache empty and returns
    has done this, in this order, on the selected controller: read the
    wait states and set six; set the SCOD bit of the mode register; stored
    the start command into the command register itself (the IAP routine
    is not called); read the status register until the ready flag was
    low; loaded four words from the first sixteen bytes of the bank of
    that controller, which are what it caches and hands out; stored the
    stop command; read the status register until the ready flag was high;
    cleared the SCOD bit; and put the wait states read at the start back.
    The error flags of the status register play no part, and the result
    is [SUCCESS]. *)
Theorem getUniqueID_protocol
        (fuel : nat) (m m1 : machine hw) (buf : list Z) (r : Z) (out : option (list Z))
        (t1 : list event) :
  length (uniqueID m) = 4%nat ->
  (4 <= length buf)%nat ->
  cell (uniqueID m) 0 = 0 ->
  getUniqueID fuel (Some buf) m = Some ((r, out), m1, t1) ->
  let FMR := EFC_REG (efc m) EEFC_FMR in
  let FCR := EFC_REG (efc m) EEFC_FCR in
  let FSR := EFC_REG (efc m) EEFC_FSR in
  let base := match efc m with EFC0 => IFLASH0_ADDR | EFC1 => IFLASH1_ADDR end in
  exists f0 f1 f2 fall w0 w1 w2 w3 rise x y,
    t1 = [RegLoad FMR f0;
          RegLoad FMR f1; RegStore FMR (bitfield_set 8 4 CHIP_FLASH_WAIT_STATE f1);
          RegLoad FMR f2; RegStore FMR (Z.lor f2 EEFC_FMR_SCOD);
          RegStore FCR 0x5A00000E]
         ++ map (RegLoad FSR) fall
         ++ [MemLoad 4 base w0; MemLoad 4 (base + 4) w1;
             MemLoad 4 (base + 8) w2; MemLoad 4 (base + 12) w3;
             RegStore FCR 0x5A00000F]
         ++ map (RegLoad FSR) rise
         ++ [RegLoad FMR x; RegStore FMR (Z.land x (wrap32 (Z.lnot EEFC_FMR_SCOD)));
             RegLoad FMR y; RegStore FMR (bitfield_set 8 4 (bitfield_get 8 4 f0) y)]
    /\ command_of 0x5A00000E = (EFC_FCMD_STUI, 0)
    /\ command_of 0x5A00000F = (EFC_FCMD_SPUI, 0)
    /\ Z.land (last fall 0) EEFC_FSR_FRDY = 0
    /\ Z.land (last rise 0) EEFC_FSR_FRDY = EEFC_FSR_FRDY
    /\ uniqueID m1 = [w0; w1; w2; w3]
    /\ out = Some ([w0; w1; w2; w3] ++ skipn 4 buf)
    /\ r = SUCCESS
    /\ efc m1 = efc m.
Proof.
  intros Hu Hb Hc H FMR FCR FSR base.
  destruct (exactly_four_cells _ Hu) as (a & b & c & d & U).
  destruct (four_cells _ Hb) as (b0 & b1 & b2 & b3 & rest & B).
  subst buf.
  unfold getUniqueID in H.
  rewrite (bind_some get_uniqueID _ m (uniqueID m) m []) in H by reflexivity.
  rewrite Hc in H. cbn [Z.eqb negb] in H. cbv iota in H.
  rewrite (bind_some _ _ _ _ _ _ (getfws_run m)) in H.
  set (f0 := wrap32 (fst (reg_load (EFC_REG (efc m) EEFC_FMR) (dev m)))) in *.
  set (ma := with_dev m _) in *.
  rewrite (bind_some _ _ _ _ _ _ (setfws_run ma CHIP_FLASH_WAIT_STATE)) in H.
  set (f1 := wrap32 (fst (reg_load (EFC_REG (efc ma) EEFC_FMR) (dev ma)))) in *.
  set (mb := with_dev ma _) in *.
  rewrite (bind_some get_efc _ mb (efc m) mb []) in H by reflexivity.
  rewrite (bind_some (rd (EFC_REG (efc m) EEFC_FMR)) _ mb _ _ _ eq_refl) in H.
  set (f2 := wrap32 (fst (reg_load (EFC_REG (efc m) EEFC_FMR) (dev mb)))) in *.
  set (mc := with_dev mb _) in *.
  rewrite (bind_some (wr (EFC_REG (efc m) EEFC_FMR) _) _ mc _ _ _ eq_refl) in H.
  set (md := with_dev mc _) in *.
  rewrite (bind_some (wr (EFC_REG (efc m) EEFC_FCR) _) _ md _ _ _ eq_refl) in H.
  set (me := with_dev md _) in *.
  destruct (wait_FRDY fuel true me) as [[[u2 mf] t2]|] eqn:W1;
    [|unfold bind at 1 in H; rewrite W1 in H; discriminate].
  rewrite (bind_some _ _ _ _ _ _ W1) in H.
  apply wait_FRDY_reads in W1. destruct W1 as (fall & -> & _ & Lf & Ef).
  assert (Uf : uniqueID mf = [a; b; c; d]) by (rewrite Ef; exact U).
  rewrite (bind_some _ _ _ _ _ _
             (copy_unique_id_run mf base a b c d b0 b1 b2 b3 rest Uf)) in H.
  cbv zeta in H.
  set (w := fun i => mem_load 4 (wrap32 (base + 4 * i)) (dev mf) mod 2 ^ (8 * 4)) in *.
  set (mg := with_uniqueID mf _) in *.
  rewrite (bind_some (wr (EFC_REG (efc m) EEFC_FCR) _) _ mg _ _ _ eq_refl) in H.
  set (mh := with_dev mg _) in *.
  destruct (wait_FRDY fuel false mh) as [[[u3 mi] t3]|] eqn:W2;
    [|unfold bind at 1 in H; rewrite W2 in H; discriminate].
  rewrite (bind_some _ _ _ _ _ _ W2) in H.
  apply wait_FRDY_reads in W2. destruct W2 as (rise & -> & _ & Lr & Er).
  assert (Emf : efc mf = efc m) by (rewrite Ef; reflexivity).
  assert (Ei : efc mi = efc m) by (rewrite Er; exact Emf).
  rewrite (bind_some (rd (EFC_REG (efc m) EEFC_FMR)) _ mi _ _ _ eq_refl) in H.
  set (x := wrap32 (fst (reg_load (EFC_REG (efc m) EEFC_FMR) (dev mi)))) in *.
  set (mj := with_dev mi _) in *.
  rewrite (bind_some (wr (EFC_REG (efc m) EEFC_FMR) _) _ mj _ _ _ eq_refl) in H.
  set (mk := with_dev mj _) in *.
  rewrite (bind_some _ _ _ _ _ _ (setfws_run mk (bitfield_get 8 4 f0))) in H.
  cbv [ret] in H. injection H as <- <- <- <-.
  assert (Wb : forall i, 0 <= i < 4 -> wrap32 (base + 4 * i) = base + 4 * i).
  { intros i Hi. apply Z.mod_small. unfold base.
    destruct (efc m); unfold IFLASH0_ADDR, IFLASH1_ADDR; lia. }
  assert (Wa : forall k, 0 <= k < 16 -> wrap32 (base + k) = base + k).
  { intros k Hk. apply Z.mod_small. unfold base.
    destruct (efc m); unfold IFLASH0_ADDR, IFLASH1_ADDR; lia. }
  assert (E0 : MemLoad 4 (wrap32 (base + 0)) (w 0) = MemLoad 4 base (w 0))
    by (rewrite Wa, Z.add_0_r by lia; reflexivity).
  assert (E4 : MemLoad 4 (wrap32 (base + 4)) (w 1) = MemLoad 4 (base + 4) (w 1))
    by (rewrite Wa by lia; reflexivity).
  assert (E8 : MemLoad 4 (wrap32 (base + 8)) (w 2) = MemLoad 4 (base + 8) (w 2))
    by (rewrite Wa by lia; reflexivity).
  assert (E12 : MemLoad 4 (wrap32 (base + 12)) (w 3) = MemLoad 4 (base + 12) (w 3))
    by (rewrite Wa by lia; reflexivity).
  exists f0, f1, f2, fall, (w 0), (w 1), (w 2), (w 3), rise, x,
    (wrap32 (fst (reg_load (EFC_REG (efc m) EEFC_FMR) (dev mk)))).
  split.
  { rewrite Ei, Emf.
    change (MemLoad 4 (wrap32 (base + 0)) _) with (MemLoad 4 (wrap32 (base + 0)) (w 0)).
    change (MemLoad 4 (wrap32 (base + 4)) _) with (MemLoad 4 (wrap32 (base + 4)) (w 1)).
    change (MemLoad 4 (wrap32 (base + 8)) _) with (MemLoad 4 (wrap32 (base + 8)) (w 2)).
    change (MemLoad 4 (wrap32 (base + 12)) _) with (MemLoad 4 (wrap32 (base + 12)) (w 3)).
    rewrite E0, E4, E8, E12. rewrite <- ?app_assoc. reflexivity. }
  split; [reflexivity|]. split; [reflexivity|].
  split.
  { cbn [negb] in Lf. apply Z.eqb_neq in Lf.
    change EEFC_FSR_FRDY with (Z.ones 1) in *. rewrite Z.land_ones in * by lia.
    pose proof (Z.mod_pos_bound (last fall 0) (2 ^ 1) ltac:(lia)).
    change (Z.ones 1) with 1 in Lf. lia. }
  split; [cbn [negb] in Lr; apply Z.eqb_eq in Lr; exact Lr|].
  split; [change (uniqueID mi = [w 0; w 1; w 2; w 3]); rewrite Er; reflexivity|].
  split; [reflexivity|]. split; [reflexivity|].
  exact Ei.
Qed.

End MoreProperties.

(** *** Page numbers and addresses *)

Lemma getPageAddress_flat (total sizeof_Type page_num offset : Z) :
  0 <= page_num < 2 ^ 32 ->
  total <= 2048 ->
  0 <= offset * sizeof_Type < IFLASH_PAGE_SIZE ->
  page_num < total ->
  getPageAddress total sizeof_Type page_num offset =
  IFLASH0_ADDR + IFLASH_PAGE_SIZE * page_num + offset * sizeof_Type.
Proof.
  intros Hp Ht Ho Hlt. unfold getPageAddress.
  change IFLASH_PAGE_SIZE with 256 in *. change IFLASH_NB_OF_PAGES with 1024.
  change IFLASH0_ADDR with 524288. change IFLASH1_ADDR with 786432.
  destruct (Z.ltb_spec page_num 0); [lia|].
  destruct (Z.leb_spec total page_num); [lia|]. cbn [orb].
  pose proof (Z.div_mod page_num 1024 ltac:(lia)) as D.
  pose proof (Z.mod_pos_bound page_num 1024 ltac:(lia)) as B.
  destruct (Z.leb_spec page_num 1024).
  - unfold wrap32. rewrite (Z.mod_small (256 * page_num)) by lia.
    rewrite (Z.mod_small (524288 + _)) by lia.
    rewrite Z.mod_small by lia. reflexivity.
  - assert (Q : page_num / 1024 = 1)
      by (symmetry; apply Z.div_unique with (page_num - 1024); lia).
    unfold wrap32. rewrite (Z.mod_small (256 * _)) by lia.
    rewrite (Z.mod_small (786432 + _)) by lia.
    rewrite Z.mod_small by lia. lia.
Qed.

(** X16.  For a page number below the total (at most 2048 pages),
    [getPageAddress] is one linear map over both banks: the address is
    [IFLASH0_ADDR + 256 * page_num + offset * sizeof(Type)], also for page
    1024, which the comparison [<=] sends through the branch of bank 0.  The
    address lies in the bank [write] would select for it, at the page
    [page_num mod 1024] of that bank (when the offset stays inside the
    page).  A page number at or above the total gives the null pointer. *)
Theorem getPageAddress_is_linear (total sizeof_Type page_num offset : Z) :
  0 <= page_num < 2 ^ 32 ->
  total <= 2048 ->
  0 <= offset * sizeof_Type < IFLASH_PAGE_SIZE ->
  let a := getPageAddress total sizeof_Type page_num offset in
  (total <= page_num -> a = 0) /\
  (page_num < total ->
   a = IFLASH0_ADDR + IFLASH_PAGE_SIZE * page_num + offset * sizeof_Type
   /\ bank_efc a = (if page_num <? IFLASH_NB_OF_PAGES then EFC0 else EFC1)
   /\ page_of (base_of a) a = page_num mod IFLASH_NB_OF_PAGES
   /\ (a - base_of a) mod IFLASH_PAGE_SIZE = offset * sizeof_Type).
Proof.
  intros Hp Ht Ho a. unfold a, getPageAddress.
  change IFLASH_PAGE_SIZE with 256 in *. change IFLASH_NB_OF_PAGES with 1024.
  change IFLASH0_ADDR with 524288. change IFLASH1_ADDR with 786432.
  split.
  - intros Hge. destruct (Z.ltb_spec page_num 0); [lia|].
    destruct (Z.leb_spec total page_num); [reflexivity|lia].
  - intros Hlt. destruct (Z.ltb_spec page_num 0); [lia|].
    destruct (Z.leb_spec total page_num); [lia|]. cbn [orb].
    pose proof (getPageAddress_flat total sizeof_Type page_num offset Hp Ht Ho Hlt) as E.
    unfold getPageAddress in E.
    change IFLASH_PAGE_SIZE with 256 in E. change IFLASH_NB_OF_PAGES with 1024 in E.
    change IFLASH0_ADDR with 524288 in E. change IFLASH1_ADDR with 786432 in E.
    destruct (Z.ltb_spec page_num 0) in E; [lia|].
    destruct (Z.leb_spec total page_num) in E; [lia|]. cbn [orb] in E.
    rewrite E. clear E. split; [reflexivity|].
    set (b := offset * sizeof_Type) in *.
    unfold bank_efc, base_of, page_of. change IFLASH1_ADDR with 786432.
    change IFLASH0_ADDR with 524288. change IFLASH_PAGE_SIZE with 256.
    destruct (Z.ltb_spec page_num 1024); destruct (Z.leb_spec 786432 (524288 + 256 * page_num + b));
      try lia.
    + split; [reflexivity|].
      replace (524288 + 256 * page_num + b - 524288) with (b + page_num * 256) by lia.
      unfold wrap32, wrap16.
      rewrite (Z.mod_small (b + page_num * 256)) by lia.
      rewrite Z.div_add, Z.mod_add, (Z.div_small b), (Z.mod_small b) by lia.
      rewrite (Z.mod_small page_num 1024), Z.mod_small by lia. split; reflexivity.
    + split; [reflexivity|].
      replace (524288 + 256 * page_num + b - 786432) with (b + (page_num - 1024) * 256) by lia.
      unfold wrap32, wrap16.
      rewrite (Z.mod_small (b + (page_num - 1024) * 256)) by lia.
      rewrite Z.div_add, Z.mod_add, (Z.div_small b), (Z.mod_small b) by lia.
      replace page_num with ((page_num - 1024) + 1 * 1024) at 2 by lia.
      rewrite Z.mod_add, (Z.mod_small (page_num - 1024) 1024), Z.mod_small by lia.
      split; reflexivity.
Qed.

Lemma getPageAddress_is_linear_witness :
  getPageAddress 2048 4 1024 3 = IFLASH1_ADDR + 12
  /\ bank_efc (getPageAddress 2048 4 1024 3) = EFC1
  /\ getPageAddress 2048 4 2048 0 = 0.
Proof.
  destruct (getPageAddress_is_linear 2048 4 1024 3) as [_ H];
    [lia | lia | change IFLASH_PAGE_SIZE with 256; lia |].
  destruct (getPageAddress_is_linear 2048 4 2048 0) as [Z0 _];
    [lia | lia | change IFLASH_PAGE_SIZE with 256; lia |].
  destruct (H ltac:(lia)) as (E & B & _).
  split; [rewrite E; reflexivity|]. split; [rewrite B; reflexivity|].
  apply Z0. lia.
Defined.

(** X17.  [getOffset] counts in objects of [sizeof(Type)] bytes (a size
    that divides the page size).  Up to page 1024 it is the distance of the
    address [getPageAddress] gives from the start of bank 0; above page
    1024 it is that distance plus the size of one bank.  A page number at
    or above the total gives 0. *)
Theorem getOffset_against_getPageAddress (total sizeof_Type page_num offset : Z) :
  0 <= page_num < 2 ^ 32 ->
  total <= 2048 ->
  0 < sizeof_Type ->
  IFLASH_PAGE_SIZE mod sizeof_Type = 0 ->
  0 <= offset * sizeof_Type < IFLASH_PAGE_SIZE ->
  (total <= page_num -> getOffset total sizeof_Type page_num offset = 0) /\
  (page_num < total ->
   sizeof_Type * getOffset total sizeof_Type page_num offset =
   getPageAddress total sizeof_Type page_num offset - IFLASH0_ADDR
   + (if page_num <=? IFLASH_NB_OF_PAGES then 0 else IFLASH0_SIZE)).
Proof.
  intros Hp Ht Hs Hd Ho.
  split.
  - intros Hge. unfold getOffset. destruct (Z.ltb_spec page_num 0); [lia|].
    destruct (Z.leb_spec total page_num); [reflexivity|lia].
  - intros Hlt.
    rewrite (getPageAddress_flat total sizeof_Type page_num offset Hp Ht Ho Hlt).
    unfold getOffset.
    change IFLASH_PAGE_SIZE with 256 in *. change IFLASH_NB_OF_PAGES with 1024.
    change IFLASH0_ADDR with 524288. change IFLASH0_SIZE with 262144.
    destruct (Z.ltb_spec page_num 0); [lia|].
    destruct (Z.leb_spec total page_num); [lia|]. cbn [orb].
    apply Z.div_exact in Hd; [|lia].
    set (q := 256 / sizeof_Type) in *.
    assert (Hq : 0 < q) by nia.
    assert (Hoff : 0 <= offset) by nia.
    assert (Hoq : offset < q) by nia.
    destruct (Z.leb_spec page_num 1024).
    + unfold wrap32. rewrite (Z.mod_small (256 * page_num)) by lia.
      replace (256 * page_num) with (q * page_num * sizeof_Type) by nia.
      rewrite Z.div_mul by lia. rewrite Z.mod_small by nia. nia.
    + unfold wrap32. rewrite (Z.mod_small (256 * page_num)) by lia.
      rewrite (Z.mod_small (262144 + _)) by lia.
      replace (262144 + 256 * page_num) with ((1024 * q + q * page_num) * sizeof_Type) by nia.
      rewrite Z.div_mul by lia. rewrite Z.mod_small by nia. nia.
Qed.

Lemma getOffset_against_getPageAddress_witness :
  4 * getOffset 2048 4 1025 3 = getPageAddress 2048 4 1025 3 - IFLASH0_ADDR + IFLASH0_SIZE
  /\ getOffset 2048 4 2048 0 = 0.
Proof.
  destruct (getOffset_against_getPageAddress 2048 4 1025 3) as [_ H];
    [lia | lia | lia | reflexivity | change IFLASH_PAGE_SIZE with 256; lia |].
  destruct (getOffset_against_getPageAddress 2048 4 2048 0) as [Z0 _];
    [lia | lia | lia | reflexivity | change IFLASH_PAGE_SIZE with 256; lia |].
  split; [apply H; lia | apply Z0; lia].
Defined.

Lemma descriptor_fetch_stops_at_zero_word_witness :
  exists m1 t1 m' t,
    cmd EFC_FCMD_GETD 0 (with_efc short_object (bank_efc IFLASH0_ADDR)) =
    Some (SUCCESS, m1, t1)
    /\ getFlashDescriptor IFLASH0_ADDR short_object = Some (true, m', t)
    /\ commands_issued t = [(EFC_FCMD_GETD, 0)]
    /\ (let words := fst (frr_words (bank_efc IFLASH0_ADDR) 4 (dev m1)) in
        forall i, 0 <= i < 4 ->
          cell (flash_descriptor m') i =
          if forallb nonzero (firstn (Z.to_nat i + 1) words)
          then cell words i else cell (flash_descriptor short_object) i)
    /\ cell (flash_descriptor m') FLASH_DESCRIPTOR_SIZE = IFLASH0_ADDR.
Proof.
  apply (descriptor_fetch_stops_at_zero_word short_object IFLASH0_ADDR).
  - reflexivity.
  - vm_compute. intros Hc. discriminate Hc.
  - reflexivity.
Defined.

Lemma descriptor_cache_holds_one_address_witness :
  exists m1 t,
    descriptor_for IFLASH0_ADDR sample_object = Some (true, m1, t)
    /\ cell (flash_descriptor m1) FLASH_DESCRIPTOR_SIZE = IFLASH0_ADDR
    /\ getPageSize IFLASH0_ADDR m1 = Some (256, m1, []).
Proof.
  destruct (descriptor_for IFLASH0_ADDR sample_object) as [[[ok m1] t]|] eqn:E;
    [|vm_compute in E; discriminate].
  assert (Hok : ok = true) by (vm_compute in E; injection E as <- _ _; reflexivity).
  subst ok.
  destruct (descriptor_cache_holds_one_address sample_object m1 IFLASH0_ADDR t)
    as (Htag & Hall & _); [reflexivity | exact E |].
  exists m1, t. split; [reflexivity|]. split; [exact Htag|].
  apply Forall_inv_tail, Forall_inv_tail, Forall_inv in Hall. cbn [fst snd] in Hall.
  rewrite Hall. vm_compute in E. injection E as <- _. reflexivity.
Defined.

Lemma lock_unlock_one_command_per_region_witness :
  within_one_bank 0x80000 0x88000
  /\ returned (lock 0x80000 0x88000 sample_object) = Some SUCCESS
  /\ commands_issued (trace_of (lock 0x80000 0x88000 sample_object)) =
     [(EFC_FCMD_SLB, 0); (EFC_FCMD_SLB, 64); (EFC_FCMD_SLB, 128)].
Proof.
  assert (W : within_one_bank 0x80000 0x88000)
    by (left; unfold IFLASH0_ADDR, IFLASH1_ADDR; lia).
  split; [exact W|].
  destruct (lock_unlock_one_command_per_region sample_object 0x80000 0x88000 W)
    as [(st & m' & t & k & E & _ & _ & K & S) _].
  rewrite E. cbn [returned trace_of].
  vm_compute in E. injection E as <- _ <-.
  split; [reflexivity|].
  change (no_error_status _) with true in S. destruct S as [_ ->]. exact K.
Defined.

Lemma islocked_failure_reports_second_status_read_witness :
  returned (cmd EFC_FCMD_GLB 0 (with_efc refused_object (bank_efc 0x80000))) = Some 2
  /\ returned (islocked 0x80000 0x800FF refused_object) = Some 0.
Proof.
  split; [reflexivity|].
  destruct (cmd EFC_FCMD_GLB 0 (with_efc refused_object (bank_efc 0x80000)))
    as [[[st m1] t1]|] eqn:C; [|vm_compute in C; discriminate].
  assert (Hst : st <> SUCCESS)
    by (vm_compute in C; injection C as <- _ _; intros Hc; discriminate Hc).
  destruct (islocked_failure_reports_second_status_read
              refused_object m1 0x80000 0x800FF st t1 C Hst)
    as (res & m' & t & E & _).
  rewrite E. vm_compute in E. injection E as <- _ _. reflexivity.
Defined.

Lemma MPUConfigureRegion_base_rounded_down_witness :
  exists rbar,
    nth 2 (snd (MPUConfigureRegion 0x00080123 13 3 0 1 0 1 3 0 0xFFFFFFFF)) DSB =
    MpuStore MPU_RBAR rbar
    /\ 2 ^ 5 * bitfield_get 5 27 rbar = 0x00080123 - 0x00080123 mod 2 ^ (13 + 1)
    /\ rbar = (0x00080123 - 0x00080123 mod 2 ^ (13 + 1)) + 2 ^ 4 + 3 mod 2 ^ 4.
Proof.
  apply (MPUConfigureRegion_base_rounded_down 0x00080123 13 3 0 1 0 1 3 0 0xFFFFFFFF); lia.
Defined.

Lemma write_programs_consecutive_pages_witness :
  Z.land 0x80010 3 = 0
  /\ within_one_bank 0x80010 (0x80010 + 300 - 1)
  /\ pages_touched ((0x80010 - base_of 0x80010) mod IFLASH_PAGE_SIZE) 300 = 2%nat
  /\ exists stuck m1 t_check r m' t_rest,
       locked_and_stuck 0x80010 300 sample_object = Some (stuck, m1, t_check)
       /\ write 1 0x80010 (Some (repeat 0x55 300)) 300 true false sample_object =
          Some (r, m', t_check ++ t_rest).
Proof.
  assert (W : within_one_bank 0x80010 (0x80010 + 300 - 1))
    by (left; unfold IFLASH0_ADDR, IFLASH1_ADDR; lia).
  split; [reflexivity|]. split; [exact W|]. split; [reflexivity|].
  destruct (write_programs_consecutive_pages
              sample_object 1 0x80010 (Some (repeat 0x55 300)) 300 true false
              eq_refl ltac:(lia) W)
    as (stuck & m1 & t_check & r & m' & t_rest & L & E & _).
  exists stuck, m1, t_check, r, m', t_rest. split; assumption.
Defined.

Lemma getUniqueID_protocol_witness :
  exists out m1 t1,
    getUniqueID 8 (Some [0; 0; 0; 0]) sample_object = Some ((SUCCESS, out), m1, t1)
    /\ out = Some (uniqueID m1)
    /\ efc m1 = efc sample_object.
Proof.
  destruct (getUniqueID 8 (Some [0; 0; 0; 0]) sample_object)
    as [[[[r out] m1] t1]|] eqn:E; [|vm_compute in E; discriminate].
  destruct (getUniqueID_protocol 8 sample_object m1 [0; 0; 0; 0] r out t1)
    as (f0 & f1 & f2 & fall & w0 & w1 & w2 & w3 & rise & x & y
        & _ & _ & _ & _ & _ & U & O & R & Ec);
    [reflexivity | simpl; lia | reflexivity | exact E |].
  exists out, m1, t1. subst r. split; [reflexivity|].
  split; [rewrite O, U; reflexivity | exact Ec].
Defined.

Lemma address_operations_use_the_bank_controller_witness :
  exists r m' t,
    erase 0xC0000 sample_object = Some (r, m', t)
    /\ forallb (on_controller EFC1) t = true.
Proof.
  destruct (erase 0xC0000 sample_object) as [[[r m'] t]|] eqn:E;
    [|vm_compute in E; discriminate].
  exists r, m', t. split; [reflexivity|].
  destruct (address_operations_use_the_bank_controller
              (hw := Sim.t) 0xC0000 0xC00FF 1 4 None true false) as [A _].
  exact (A sample_object r m' t E).
Defined.

Lemma other_operations_use_the_selected_controller_witness :
  exists r m' t,
    setBootModeFlash sample_object = Some (r, m', t)
    /\ efc m' = EFC0
    /\ forallb (on_controller EFC0) t = true.
Proof.
  destruct (setBootModeFlash sample_object) as [[[r m'] t]|] eqn:E;
    [|vm_compute in E; discriminate].
  exists r, m', t. split; [reflexivity|].
  destruct (other_operations_use_the_selected_controller
              (hw := Sim.t) EFC0 0 None 0) as [A _].
  apply Forall_inv_tail, Forall_inv_tail, Forall_inv in A.
  exact (A sample_object r m' t eq_refl E).
Defined.

Lemma lock_unlock_backward_range_does_nothing_witness :
  same_bank 0x88000 0x80000
  /\ end_region_of 0x88000 0x80000 < start_region_of 0x88000
  /\ lock 0x88000 0x80000 sample_object = Some (SUCCESS, sample_object, []).
Proof.
  assert (B : same_bank 0x88000 0x80000)
    by (left; unfold IFLASH0_ADDR, IFLASH1_ADDR; lia).
  assert (R : end_region_of 0x88000 0x80000 < start_region_of 0x88000) by reflexivity.
  split; [exact B|]. split; [exact R|].
  destruct (lock_unlock_backward_range_does_nothing sample_object 0x88000 0x80000 B R)
    as [L _].
  rewrite L. reflexivity.
Defined.
